(** * SimpleVector over ArrayPtr: a shallow embedding and its properties

    The development models [array_ptr.h] and [simple_vector.h].

    - A [Type*] is a [pointer]: [nullptr] or a block of the free store with
      an offset.  The free store [mem] maps live blocks to their cells, so
      two vectors that hold the same block alias each other.
    - A [SimpleVector] object lives in the object store [vecs] under its
      address ([var]); methods read and write the fields of [this] there.
    - [size_t] values are integers in [0, 2^64) and arithmetic on them wraps.
    - A computation either returns, throws (the state at the throw point is
      kept), or has undefined behaviour. *)

From stdpp Require Import base gmap list.
From Stdlib Require Import ZArith Lia.

Local Open Scope Z_scope.

(** ** Machine integers *)

Definition SIZE_MAX : Z := 2 ^ 64 - 1.
Definition PTRDIFF_MAX : Z := 2 ^ 63 - 1.

(** Conversion of an integer to [size_t]. *)
Definition to_size_t (z : Z) : Z := z mod 2 ^ 64.

(** ** Pointers, objects, state *)

Definition block := positive.
Definition var := positive.

Inductive pointer : Type :=
| nullptr
| Ptr (b : block) (off : Z).

Global Instance pointer_eq_dec : EqDecision pointer.
Proof. solve_decision. Defined.

(** [class ArrayPtr]: its only member is the raw pointer. *)
Record ArrayPtr : Type := MkArrayPtr { raw_ptr_ : pointer }.

(** [class SimpleVector]: the three data members. *)
Record SimpleVector : Type := MkSimpleVector {
  data_ : ArrayPtr;
  size_ : Z;
  capacity_ : Z
}.

Inductive exn : Type :=
| bad_alloc        (* also stands for its subclass bad_array_new_length *)
| out_of_range.

Section Model.

Context {T : Type} `{EqDecision T}.

(** The value [Type()]. *)
Variable T_default : T.
(** What a moved-from element holds afterwards. *)
Variable moved_from : T -> T.
(** What cell [i] of a fresh [new Type[n]] holds before it is assigned. *)
Variable fresh_cell : nat -> T.
(** Whether the free store grants a request of [n] elements. *)
Variable can_alloc : gmap block (list T) -> Z -> bool.

Record state : Type := MkState {
  mem : gmap block (list T);
  vecs : gmap var SimpleVector
}.

Definition set_mem (s : state) (m : gmap block (list T)) : state :=
  {| mem := m; vecs := vecs s |}.

Definition set_vecs (s : state) (o : gmap var SimpleVector) : state :=
  {| mem := mem s; vecs := o |}.

Inductive outcome (A : Type) : Type :=
| Ret (a : A) (s : state)
| Throw (e : exn) (s : state)
| Undef.

Arguments Ret {A} a s.
Arguments Throw {A} e s.
Arguments Undef {A}.

Definition M (A : Type) : Type := state -> outcome A.

Definition ret {A} (a : A) : M A := fun s => Ret a s.

Definition bind {A B} (m : M A) (k : A -> M B) : M B :=
  fun s =>
    match m s with
    | Ret a s' => k a s'
    | Throw e s' => Throw e s'
    | Undef => Undef
    end.

Definition throw {A} (e : exn) : M A := fun s => Throw e s.
Definition undef {A} : M A := fun _ => Undef.

Notation "'let*' x ':=' m 'in' k" := (bind m (fun x => k))
  (at level 10, x name, m at level 100, k at level 200).
Notation "m ';;' k" := (bind m (fun _ => k))
  (at level 100, k at level 200, right associativity).

(** The state in which a computation stops, when it has one. *)
Definition final_state {A} (o : outcome A) : option state :=
  match o with
  | Ret _ s => Some s
  | Throw _ s => Some s
  | Undef => None
  end.

(** *** Pointer arithmetic and the free store *)

(** [p + k].  Only [nullptr + 0] is defined on the null pointer. *)
Definition ptr_add (p : pointer) (k : Z) : M pointer :=
  match p with
  | nullptr => if decide (k = 0) then ret nullptr else undef
  | Ptr b off => ret (Ptr b (off + k))
  end.

(** [p - q], defined inside one block and for two null pointers. *)
Definition ptr_diff (p q : pointer) : M Z :=
  match p, q with
  | nullptr, nullptr => ret 0
  | Ptr b off, Ptr b' off' => if decide (b = b') then ret (off - off') else undef
  | _, _ => undef
  end.

(** Number of steps of a loop [for (; first != last; ++first)]. *)
Definition range_length (first last : pointer) : M nat :=
  let* d := ptr_diff last first in
  if decide (0 <= d) then ret (Z.to_nat d) else undef.

(** Read [*p]. *)
Definition load (p : pointer) : M T :=
  fun s =>
    match p with
    | nullptr => Undef
    | Ptr b off =>
        match mem s !! b with
        | Some cells =>
            if decide (0 <= off) then
              match cells !! Z.to_nat off with
              | Some x => Ret x s
              | None => Undef
              end
            else Undef
        | None => Undef
        end
    end.

(** Write [*p = x]. *)
Definition store (p : pointer) (x : T) : M unit :=
  fun s =>
    match p with
    | nullptr => Undef
    | Ptr b off =>
        match mem s !! b with
        | Some cells =>
            if decide (0 <= off < Z.of_nat (length cells)) then
              Ret tt (set_mem s (<[b := <[Z.to_nat off := x]> cells]> (mem s)))
            else Undef
        | None => Undef
        end
    end.

(** [*d = std::move( *p )]. *)
Definition move_assign_cell (d p : pointer) : M unit :=
  let* x := load p in
  store d x;;
  store p (moved_from x).

(** [*d = *p] through a pointer to const. *)
Definition copy_assign_cell (d p : pointer) : M unit :=
  let* x := load p in
  store d x.

Definition fresh_block (m : gmap block (list T)) : block := fresh (dom m).

(** A request of [n] elements is granted when [n] objects fit in one
    array at all and the free store has room for them. *)
Definition grants (m : gmap block (list T)) (n : Z) : bool :=
  bool_decide (n <= PTRDIFF_MAX) && can_alloc m n.

(** [new Type[n]] for [n > 0]. *)
Definition new_array (n : Z) : M pointer :=
  fun s =>
    if grants (mem s) n then
      let b := fresh_block (mem s) in
      Ret (Ptr b 0)
          (set_mem s (<[b := fresh_cell <$> seq 0 (Z.to_nat n)]> (mem s)))
    else Throw bad_alloc s.

(** [delete[] p]. *)
Definition delete_array (p : pointer) : M unit :=
  fun s =>
    match p with
    | nullptr => Ret tt s
    | Ptr b off =>
        if decide (off = 0) then
          match mem s !! b with
          | Some _ => Ret tt (set_mem s (delete b (mem s)))
          | None => Undef
          end
        else Undef
    end.

(** *** Standard algorithms, as the loops they are *)

(** [std::copy] over move iterators: [n] steps of [*d++ = std::move( *first++ )]. *)
Fixpoint move_loop (n : nat) (first d_first : pointer) : M unit :=
  match n with
  | O => ret tt
  | S n' =>
      move_assign_cell d_first first;;
      let* first' := ptr_add first 1 in
      let* d_first' := ptr_add d_first 1 in
      move_loop n' first' d_first'
  end.

Definition std_copy_move (first last d_first : pointer) : M unit :=
  let* n := range_length first last in
  move_loop n first d_first.

(** [std::copy] over pointers to const: the source is only read. *)
Fixpoint copy_loop (n : nat) (first d_first : pointer) : M unit :=
  match n with
  | O => ret tt
  | S n' =>
      copy_assign_cell d_first first;;
      let* first' := ptr_add first 1 in
      let* d_first' := ptr_add d_first 1 in
      copy_loop n' first' d_first'
  end.

Definition std_copy (first last d_first : pointer) : M unit :=
  let* n := range_length first last in
  copy_loop n first d_first.

(** [std::copy_backward] over move iterators:
    [n] steps of [*(--d_last) = std::move( *(--last) )]. *)
Fixpoint move_backward_loop (n : nat) (last d_last : pointer) : M unit :=
  match n with
  | O => ret tt
  | S n' =>
      let* last' := ptr_add last (-1) in
      let* d_last' := ptr_add d_last (-1) in
      move_assign_cell d_last' last';;
      move_backward_loop n' last' d_last'
  end.

Definition std_copy_backward_move (first last d_last : pointer) : M unit :=
  let* n := range_length first last in
  move_backward_loop n last d_last.

(** [std::fill]. *)
Fixpoint fill_loop (n : nat) (first : pointer) (value : T) : M unit :=
  match n with
  | O => ret tt
  | S n' =>
      store first value;;
      let* first' := ptr_add first 1 in
      fill_loop n' first' value
  end.

Definition std_fill (first last : pointer) (value : T) : M unit :=
  let* n := range_length first last in
  fill_loop n first value.

(** [std::equal] with the element type's [==]. *)
Fixpoint equal_loop (n : nat) (first1 first2 : pointer) : M bool :=
  match n with
  | O => ret true
  | S n' =>
      let* x := load first1 in
      let* y := load first2 in
      if decide (x = y) then
        let* first1' := ptr_add first1 1 in
        let* first2' := ptr_add first2 1 in
        equal_loop n' first1' first2'
      else ret false
  end.

Definition std_equal (first1 last1 first2 : pointer) : M bool :=
  let* n := range_length first1 last1 in
  equal_loop n first1 first2.

(** ** ArrayPtr *)

(** [ArrayPtr() = default]. *)
Definition ArrayPtr_default : ArrayPtr := MkArrayPtr nullptr.

(** [explicit ArrayPtr(size_t size)]. *)
Definition ArrayPtr_sized (size : Z) : M ArrayPtr :=
  if decide (0 < size) then
    let* p := new_array size in
    ret (MkArrayPtr p)
  else ret (MkArrayPtr nullptr).

(** [ArrayPtr(ArrayPtr&& other)]: the new object and what is left of [other]. *)
Definition ArrayPtr_move (other : ArrayPtr) : ArrayPtr * ArrayPtr :=
  (MkArrayPtr (raw_ptr_ other), MkArrayPtr nullptr).

(** [~ArrayPtr()]. *)
Definition ArrayPtr_destroy (this : ArrayPtr) : M unit :=
  delete_array (raw_ptr_ this).

(** [operator=(ArrayPtr&& other)].  [same] says that [this == &other]; both
    components of the result are then the one object.  The block [this]
    held before is not deleted. *)
Definition ArrayPtr_move_assign (same : bool) (this other : ArrayPtr)
  : ArrayPtr * ArrayPtr :=
  if same then (this, this)
  else (MkArrayPtr (raw_ptr_ other), MkArrayPtr nullptr).

(** [Get()]. *)
Definition Get (this : ArrayPtr) : pointer := raw_ptr_ this.

(** [explicit operator bool()]. *)
Definition ArrayPtr_bool (this : ArrayPtr) : bool :=
  bool_decide (raw_ptr_ this <> nullptr).

(** [Release()]: the raw pointer and the emptied object. *)
Definition Release (this : ArrayPtr) : pointer * ArrayPtr :=
  (raw_ptr_ this, MkArrayPtr nullptr).

(** [operator[](size_t index)]: the reference [raw_ptr_[index]], as the
    address of the cell; validity is checked when the cell is accessed. *)
Definition ArrayPtr_index (this : ArrayPtr) (index : Z) : M pointer :=
  ptr_add (raw_ptr_ this) index.

(** [swap(ArrayPtr& other)], that is [std::swap( *this, other)]: a move
    construction and two move assignments. *)
Definition ArrayPtr_swap (same : bool) (this other : ArrayPtr)
  : ArrayPtr * ArrayPtr :=
  let '(tmp, a) := ArrayPtr_move this in
  let b := if same then a else other in
  let '(a, b) := ArrayPtr_move_assign same a b in
  let '(b, _) := ArrayPtr_move_assign false b tmp in
  let a := if same then b else a in
  (a, b).

(** ** SimpleVector *)

(** Access to the object at address [this]. *)
Definition get_vec (this : var) : M SimpleVector :=
  fun s =>
    match vecs s !! this with
    | Some v => Ret v s
    | None => Undef
    end.

Definition set_vec (this : var) (v : SimpleVector) : M unit :=
  fun s => Ret tt (set_vecs s (<[this := v]> (vecs s))).

Definition set_data (this : var) (d : ArrayPtr) : M unit :=
  let* v := get_vec this in
  set_vec this (MkSimpleVector d (size_ v) (capacity_ v)).

Definition set_size (this : var) (n : Z) : M unit :=
  let* v := get_vec this in
  set_vec this (MkSimpleVector (data_ v) n (capacity_ v)).

Definition set_capacity (this : var) (n : Z) : M unit :=
  let* v := get_vec this in
  set_vec this (MkSimpleVector (data_ v) (size_ v) n).

(** The default member initialisers: [data_] empty, [size_ = 0],
    [capacity_ = 0]. *)
Definition init_members (this : var) : M unit :=
  set_vec this (MkSimpleVector ArrayPtr_default 0 0).

(** [~SimpleVector()]: destroys [data_]; the object is gone. *)
Definition SimpleVector_destroy (this : var) : M unit :=
  let* v := get_vec this in
  ArrayPtr_destroy (data_ v);;
  fun s => Ret tt (set_vecs s (delete this (vecs s))).

(** A constructor body that throws leaves no object behind: the members
    already initialised are destroyed. *)
Definition constructor (this : var) (body : M unit) : M unit :=
  init_members this;;
  fun s =>
    match body s with
    | Throw e s' =>
        match SimpleVector_destroy this s' with
        | Ret _ s'' => Throw e s''
        | _ => Undef
        end
    | o => o
    end.

(** [new_data.swap(data_)] for a local [new_data]; returns the local. *)
Definition swap_with_data (this : var) (new_data : ArrayPtr) : M ArrayPtr :=
  let* v := get_vec this in
  let '(new_data', d) := ArrayPtr_swap false new_data (data_ v) in
  set_data this d;;
  ret new_data'.

(** [SimpleVector() noexcept = default]. *)
Definition SimpleVector_default (this : var) : M unit :=
  constructor this (ret tt).

(** [SimpleVector(size_t size, const Type& value)]. *)
Definition SimpleVector_fill (this : var) (size : Z) (value : T) : M unit :=
  constructor this (
    let* new_data := ArrayPtr_sized size in
    let* last := ptr_add (Get new_data) size in
    std_fill (Get new_data) last value;;
    let* new_data := swap_with_data this new_data in
    set_capacity this size;;
    set_size this size;;
    ArrayPtr_destroy new_data).

(** [explicit SimpleVector(size_t size)]. *)
Definition SimpleVector_sized (this : var) (size : Z) : M unit :=
  SimpleVector_fill this size T_default.

Definition GetSize (this : var) : M Z :=
  let* v := get_vec this in ret (size_ v).

Definition GetCapacity (this : var) : M Z :=
  let* v := get_vec this in ret (capacity_ v).

Definition IsEmpty (this : var) : M bool :=
  let* v := get_vec this in ret (bool_decide (size_ v = 0)).

(** [operator[](size_t index)]: a reference to the cell. *)
Definition operator_index (this : var) (index : Z) : M pointer :=
  let* v := get_vec this in
  ArrayPtr_index (data_ v) index.

Definition RangeCheck (this : var) (index : Z) : M unit :=
  let* v := get_vec this in
  if decide (size_ v <= index) then throw out_of_range else ret tt.

Definition At (this : var) (index : Z) : M pointer :=
  RangeCheck this index;;
  let* v := get_vec this in
  ArrayPtr_index (data_ v) index.

Definition Clear (this : var) : M unit :=
  set_size this 0.

Definition FillDefault (begin end_ : pointer) : M unit :=
  std_fill begin end_ T_default.

Definition Resize (this : var) (new_size : Z) : M unit :=
  let* v := get_vec this in
  if decide (new_size <= capacity_ v) then
    (if decide (size_ v < new_size) then
       let* b := ptr_add (Get (data_ v)) (size_ v) in
       let* e := ptr_add (Get (data_ v)) new_size in
       FillDefault b e
     else ret tt);;
    set_size this new_size
  else
    let* new_data := ArrayPtr_sized new_size in
    let* last := ptr_add (Get (data_ v)) (size_ v) in
    std_copy_move (Get (data_ v)) last (Get new_data);;
    let* b := ptr_add (Get new_data) (size_ v) in
    let* e := ptr_add (Get new_data) new_size in
    FillDefault b e;;
    let* new_data := swap_with_data this new_data in
    set_capacity this new_size;;
    set_size this new_size;;
    ArrayPtr_destroy new_data.

Definition Reserve (this : var) (new_capacity : Z) : M unit :=
  let* v := get_vec this in
  if decide (new_capacity <= capacity_ v) then ret tt
  else
    let* new_data := ArrayPtr_sized new_capacity in
    let* last := ptr_add (Get (data_ v)) (Z.min new_capacity (size_ v)) in
    std_copy_move (Get (data_ v)) last (Get new_data);;
    let* new_data := swap_with_data this new_data in
    set_capacity this new_capacity;;
    ArrayPtr_destroy new_data.

(** [explicit SimpleVector(ReserveProxyObj proxy)]; [proxy_size] is
    [proxy.GetSize()]. *)
Definition SimpleVector_reserved (this : var) (proxy_size : Z) : M unit :=
  constructor this (Reserve this proxy_size).

Definition begin (this : var) : M pointer :=
  let* v := get_vec this in ret (Get (data_ v)).

Definition end_ (this : var) : M pointer :=
  let* v := get_vec this in ptr_add (Get (data_ v)) (size_ v).

Definition Recreate (this : var) (new_capacity pos : Z) (item : T) : M unit :=
  let* new_data := ArrayPtr_sized new_capacity in
  let* v := get_vec this in
  let* last1 := ptr_add (Get (data_ v)) pos in
  std_copy_move (Get (data_ v)) last1 (Get new_data);;
  let* r := ArrayPtr_index new_data pos in
  store r item;;
  let* first2 := ptr_add (Get (data_ v)) pos in
  let* last2 := ptr_add (Get (data_ v)) (size_ v) in
  let* d2 := ptr_add (Get new_data) pos in
  let* d2 := ptr_add d2 1 in
  std_copy_move first2 last2 d2;;
  let* new_data := swap_with_data this new_data in
  set_capacity this new_capacity;;
  set_size this (to_size_t (size_ v + 1));;
  ArrayPtr_destroy new_data.

(** [Construct(other, size)] for another vector [other]; its [begin()] and
    [end()] are pointers to const, so the elements are copied. *)
Definition Construct (this other : var) (size : Z) : M unit :=
  let* new_data := ArrayPtr_sized size in
  let* first := begin other in
  let* last := end_ other in
  std_copy first last (Get new_data);;
  let* new_data := swap_with_data this new_data in
  set_capacity this size;;
  set_size this size;;
  ArrayPtr_destroy new_data.

(** [Construct(init, init.size())] for an initializer list. *)
Fixpoint store_list (d : pointer) (init : list T) : M unit :=
  match init with
  | [] => ret tt
  | x :: init' =>
      store d x;;
      let* d' := ptr_add d 1 in
      store_list d' init'
  end.

Definition SimpleVector_init (this : var) (init : list T) : M unit :=
  constructor this (
    let size := Z.of_nat (length init) in
    let* new_data := ArrayPtr_sized size in
    store_list (Get new_data) init;;
    let* new_data := swap_with_data this new_data in
    set_capacity this size;;
    set_size this size;;
    ArrayPtr_destroy new_data).

(** [swap(SimpleVector& other)]. *)
Definition swap (this other : var) : M unit :=
  let same := bool_decide (this = other) in
  let* a := get_vec this in
  let* b := get_vec other in
  let '(da, db) := ArrayPtr_swap same (data_ a) (data_ b) in
  set_data this da;;
  set_data other db;;
  let* a := get_vec this in
  let* b := get_vec other in
  set_size this (size_ b);;
  set_size other (size_ a);;
  let* a := get_vec this in
  let* b := get_vec other in
  set_capacity this (capacity_ b);;
  set_capacity other (capacity_ a).

(** [SimpleVector(const SimpleVector& other)]. *)
Definition SimpleVector_copy (this other : var) : M unit :=
  constructor this (
    let* o := get_vec other in
    Construct this other (size_ o)).

(** [SimpleVector(SimpleVector&& other) noexcept]. *)
Definition SimpleVector_move (this other : var) : M unit :=
  constructor this (swap this other).

(** [operator=(const SimpleVector& rhs)]; the local [tmp] lives at a fresh
    address until the end of the body. *)
Definition copy_assign (this rhs : var) : M unit :=
  let* tmp := (fun s => Ret (fresh (dom (vecs s))) s) in
  SimpleVector_copy tmp rhs;;
  swap this tmp;;
  SimpleVector_destroy tmp.

(** [operator=(SimpleVector&& rhs) = default]: member by member. *)
Definition move_assign (this rhs : var) : M unit :=
  let same := bool_decide (this = rhs) in
  let* a := get_vec this in
  let* b := get_vec rhs in
  let '(da, db) := ArrayPtr_move_assign same (data_ a) (data_ b) in
  set_data this da;;
  set_data rhs db;;
  let* b := get_vec rhs in
  set_size this (size_ b);;
  let* b := get_vec rhs in
  set_capacity this (capacity_ b).

(** The growth policy [!capacity_ ? 1 : capacity_ * 2] of [PushBack] and
    [InsertInt]. *)
Definition grown (capacity : Z) : Z :=
  if decide (capacity = 0) then 1 else to_size_t (capacity * 2).

(** [PushBack(Type&& item)]; [PushBack(const Type&)] passes a copy of its
    argument to it. *)
Definition PushBack (this : var) (item : T) : M unit :=
  let* v := get_vec this in
  if decide (size_ v = capacity_ v) then
    Recreate this (grown (capacity_ v)) (size_ v) item
  else
    set_size this (to_size_t (size_ v + 1));;
    let* r := ArrayPtr_index (data_ v) (size_ v) in
    store r item.

Definition PopBack (this : var) : M unit :=
  let* v := get_vec this in
  set_size this (to_size_t (size_ v - 1)).

Definition Erase (this : var) (pos : pointer) : M pointer :=
  let* b := begin this in
  let* shift := ptr_diff pos b in
  let* v := get_vec this in
  let* first := ptr_add (Get (data_ v)) shift in
  let* first := ptr_add first 1 in
  let* last := ptr_add (Get (data_ v)) (size_ v) in
  let* d_first := ptr_add (Get (data_ v)) shift in
  std_copy_move first last d_first;;
  set_size this (to_size_t (size_ v - 1));;
  let* b := begin this in
  ptr_add b shift.

Definition InsertInt (this : var) (pos : pointer) (value : T) : M pointer :=
  let* b := begin this in
  let* shift := ptr_diff pos b in
  let* v := get_vec this in
  (if decide (size_ v = capacity_ v) then
     Recreate this (grown (capacity_ v)) (to_size_t shift) value
   else
     let* first := ptr_add (Get (data_ v)) shift in
     let* last := ptr_add (Get (data_ v)) (size_ v) in
     let* d_last := ptr_add (Get (data_ v)) (size_ v) in
     let* d_last := ptr_add d_last 1 in
     std_copy_backward_move first last d_last;;
     let* r := ArrayPtr_index (data_ v) (to_size_t shift) in
     store r value;;
     set_size this (to_size_t (size_ v + 1)));;
  let* b := begin this in
  ptr_add b shift.

(** Both [Insert] overloads end in [InsertInt]. *)
Definition Insert (this : var) (pos : pointer) (value : T) : M pointer :=
  InsertInt this pos value.

(** [operator==]. *)
Definition operator_eq (lhs rhs : var) : M bool :=
  let* ls := GetSize lhs in
  let* rs := GetSize rhs in
  if decide (ls = rs) then
    let* first1 := begin lhs in
    let* last1 := end_ lhs in
    let* first2 := begin rhs in
    std_equal first1 last1 first2
  else ret false.

Definition operator_ne (lhs rhs : var) : M bool :=
  let* r := operator_eq lhs rhs in ret (negb r).

(** ** Observations *)

(** The cells of the block a vector's [data_] points to. *)
Definition buffer (m : gmap block (list T)) (v : SimpleVector) : list T :=
  match raw_ptr_ (data_ v) with
  | nullptr => []
  | Ptr b _ => default [] (m !! b)
  end.

(** The elements at the logical indices [0, size). *)
Definition elements (m : gmap block (list T)) (v : SimpleVector) : list T :=
  take (Z.to_nat (size_ v)) (buffer m v).

(** The invariants of the data model: [size <= capacity], a capacity that
    an array can have, and [data_] holding a live block of exactly
    [capacity] cells, or nothing when the capacity is 0. *)
Definition wf_vec (m : gmap block (list T)) (v : SimpleVector) : Prop :=
  0 <= size_ v <= capacity_ v /\ capacity_ v <= PTRDIFF_MAX /\
  match raw_ptr_ (data_ v) with
  | nullptr => capacity_ v = 0
  | Ptr b off =>
      off = 0 /\ 0 < capacity_ v /\
      match m !! b with
      | Some cs => Z.of_nat (length cs) = capacity_ v
      | None => False
      end
  end.

(** The third invariant alone: the capacity is 0 exactly when [data_]
    holds no block. *)
Definition capacity_matches_buffer (v : SimpleVector) : Prop :=
  capacity_ v = 0 <-> raw_ptr_ (data_ v) = nullptr.

(** The same invariants as a test. *)
Definition wf_vecb (m : gmap block (list T)) (v : SimpleVector) : bool :=
  bool_decide (0 <= size_ v <= capacity_ v) &&
  bool_decide (capacity_ v <= PTRDIFF_MAX) &&
  match raw_ptr_ (data_ v) with
  | nullptr => bool_decide (capacity_ v = 0)
  | Ptr b off =>
      bool_decide (off = 0) && bool_decide (0 < capacity_ v) &&
      match m !! b with
      | Some cs => bool_decide (Z.of_nat (length cs) = capacity_ v)
      | None => false
      end
  end.

(** Two vectors own different blocks. *)
Definition separate (v w : SimpleVector) : Prop :=
  raw_ptr_ (data_ v) = nullptr \/ raw_ptr_ (data_ v) <> raw_ptr_ (data_ w).

(** Read the element [At(index)] refers to. *)
Definition read_At (this : var) (index : Z) : M T :=
  let* r := At this index in load r.

(** Write [x] through the reference [operator[](index)] gives. *)
Definition write_index (this : var) (index : Z) (x : T) : M unit :=
  let* r := operator_index this index in store r x.

(** The iterator [begin() + k] of a vector. *)
Definition iterator_at (v : SimpleVector) (k : Z) : pointer :=
  match raw_ptr_ (data_ v) with
  | nullptr => nullptr
  | Ptr b off => Ptr b (off + k)
  end.

(** Mutations of one vector through [PushBack] and through the reference
    [operator[]] gives, and a sequence of them run in order. *)
Inductive mutation : Type :=
| Push (item : T)
| WriteAt (index : Z) (x : T).

Definition mutate (this : var) (c : mutation) : M unit :=
  match c with
  | Push item => PushBack this item
  | WriteAt index x => write_index this index x
  end.

Fixpoint mutate_all (this : var) (cs : list mutation) : M unit :=
  match cs with
  | [] => ret tt
  | c :: cs' => mutate this c;; mutate_all this cs'
  end.

(** [Insert(begin(), value)] followed by [Erase(begin())]. *)
Definition insert_erase_front (this : var) (value : T) : M unit :=
  let* b := begin this in
  Insert this b value;;
  let* b := begin this in
  Erase this b;;
  ret tt.

(** ** The rest of the interface *)

(** [explicit ArrayPtr(Type* raw_ptr) noexcept]. *)
Definition ArrayPtr_from_raw (raw_ptr : pointer) : ArrayPtr :=
  MkArrayPtr raw_ptr.

(** [cbegin()] and [cend()]. *)
Definition cbegin (this : var) : M pointer := begin this.
Definition cend (this : var) : M pointer := end_ this.

(** The element type's [operator<]. *)
Variable T_lt : T -> T -> bool.

(** [std::lexicographical_compare]; [n1] and [n2] are the numbers of
    elements left in the two ranges. *)
Fixpoint lexicographical_loop (n1 n2 : nat) (first1 first2 : pointer) : M bool :=
  match n1, n2 with
  | S n1', S n2' =>
      let* x := load first1 in
      let* y := load first2 in
      if T_lt x y then ret true
      else if T_lt y x then ret false
      else
        let* first1' := ptr_add first1 1 in
        let* first2' := ptr_add first2 1 in
        lexicographical_loop n1' n2' first1' first2'
  | O, S _ => ret true
  | _, O => ret false
  end.

Definition std_lexicographical_compare (first1 last1 first2 last2 : pointer)
  : M bool :=
  let* n1 := range_length first1 last1 in
  let* n2 := range_length first2 last2 in
  lexicographical_loop n1 n2 first1 first2.

(** [operator<], [operator<=], [operator>], [operator>=]. *)
Definition operator_lt (lhs rhs : var) : M bool :=
  let* first1 := begin lhs in
  let* last1 := end_ lhs in
  let* first2 := begin rhs in
  let* last2 := end_ rhs in
  std_lexicographical_compare first1 last1 first2 last2.

Definition operator_le (lhs rhs : var) : M bool :=
  let* r := operator_lt rhs lhs in ret (negb r).

Definition operator_gt (lhs rhs : var) : M bool :=
  operator_lt rhs lhs.

Definition operator_ge (lhs rhs : var) : M bool :=
  let* r := operator_lt lhs rhs in ret (negb r).

(** The lexicographic order on lists, for comparison with [operator<]. *)
Fixpoint lex_lt (l r : list T) : bool :=
  match l, r with
  | _, [] => false
  | [], _ :: _ => true
  | x :: l', y :: r' =>
      if T_lt x y then true
      else if T_lt y x then false
      else lex_lt l' r'
  end.

(** [PushBack] of each item of a list in turn. *)
Fixpoint push_all (this : var) (items : list T) : M unit :=
  match items with
  | [] => ret tt
  | item :: items' => PushBack this item;; push_all this items'
  end.

(** [Insert(begin() + k, value)] and [Erase(begin() + k)]. *)
Definition Insert_at (this : var) (k : Z) (value : T) : M pointer :=
  let* b := begin this in
  let* pos := ptr_add b k in
  Insert this pos value.

Definition Erase_at (this : var) (k : Z) : M pointer :=
  let* b := begin this in
  let* pos := ptr_add b k in
  Erase this pos.

(** [Insert(end(), value)]. *)
Definition Insert_end (this : var) (value : T) : M pointer :=
  let* e := end_ this in
  Insert this e value.

(** The mutating member functions, with the index arguments of [Insert] and
    [Erase] given as offsets from [begin()]. *)
Inductive operation : Type :=
| OpPushBack (item : T)
| OpPopBack
| OpClear
| OpResize (new_size : Z)
| OpReserve (new_capacity : Z)
| OpInsert (k : Z) (value : T)
| OpErase (k : Z)
| OpWrite (index : Z) (x : T).

Definition run_operation (this : var) (o : operation) : M unit :=
  match o with
  | OpPushBack item => PushBack this item
  | OpPopBack => PopBack this
  | OpClear => Clear this
  | OpResize new_size => Resize this new_size
  | OpReserve new_capacity => Reserve this new_capacity
  | OpInsert k value => Insert_at this k value;; ret tt
  | OpErase k => Erase_at this k;; ret tt
  | OpWrite index x => write_index this index x
  end.

(** What the caller has to guarantee: a nonempty vector for [PopBack], an
    iterator in [begin(), end()] for [Insert] and in [begin(), end()) for
    [Erase], an index below the size for [operator[]]; sizes are [size_t]
    values. *)
Definition precondition (v : SimpleVector) (o : operation) : Prop :=
  match o with
  | OpPushBack _ => True
  | OpPopBack => 0 < size_ v
  | OpClear => True
  | OpResize new_size => 0 <= new_size <= SIZE_MAX
  | OpReserve new_capacity => 0 <= new_capacity <= SIZE_MAX
  | OpInsert k _ => 0 <= k <= size_ v
  | OpErase k => 0 <= k < size_ v
  | OpWrite index _ => 0 <= index < size_ v
  end.

(** The cells a pointer can reach by moving forward. *)
Definition cells_from (m : gmap block (list T)) (p : pointer) : list T :=
  match p with
  | nullptr => []
  | Ptr b off => drop (Z.to_nat off) (default [] (m !! b))
  end.

(** [n] cells can be read from [p] on. *)
Definition readable (m : gmap block (list T)) (p : pointer) (n : nat) : Prop :=
  match p with
  | nullptr => n = 0%nat
  | Ptr b off => 0 <= off /\ (n <= length (cells_from m p))%nat /\ is_Some (m !! b)
  end.

(** A sequence of member function calls on one vector, and what the caller
    has to guarantee for it: the precondition of each call in the state the
    calls before it have produced. *)
Fixpoint run_operations (this : var) (os : list operation) : M unit :=
  match os with
  | [] => ret tt
  | o :: os' => run_operation this o;; run_operations this os'
  end.

Fixpoint admissible (this : var) (os : list operation) (s : state) : Prop :=
  match os with
  | [] => True
  | o :: os' =>
      exists v, vecs s !! this = Some v /\ precondition v o /\
                forall s', run_operation this o s = Ret tt s' ->
                           admissible this os' s'
  end.

(** The capacity the growth policy reaches from 0: nothing yet, or a power
    of two that is less than twice the size. *)
Definition doubling_capacity (v : SimpleVector) : Prop :=
  (size_ v = 0 /\ capacity_ v = 0) \/
  exists k, 0 <= k /\ capacity_ v = 2 ^ k /\ capacity_ v < 2 * size_ v.

(** * Properties *)

Lemma bind_Ret {A B} (m : M A) (k : A -> M B) s a s' :
  m s = Ret a s' -> bind m k s = k a s'.
Proof. intros E. unfold bind. now rewrite E. Qed.

Lemma bind_Throw {A B} (m : M A) (k : A -> M B) s e s' :
  m s = Throw e s' -> bind m k s = Throw e s'.
Proof. intros E. unfold bind. now rewrite E. Qed.

Lemma load_ok s b cs (i : nat) x :
  mem s !! b = Some cs -> cs !! i = Some x ->
  load (Ptr b (Z.of_nat i)) s = Ret x s.
Proof.
  intros Hb Hi. unfold load. rewrite Hb.
  rewrite decide_True by lia. now rewrite Nat2Z.id, Hi.
Qed.

Lemma store_ok s b cs (i : nat) x :
  mem s !! b = Some cs -> (i < length cs)%nat ->
  store (Ptr b (Z.of_nat i)) x s
  = Ret tt (set_mem s (<[b := <[i := x]> cs]> (mem s))).
Proof.
  intros Hb Hi. unfold store. rewrite Hb.
  rewrite decide_True by lia. now rewrite Nat2Z.id.
Qed.

Lemma move_assign_cell_cross s bs bd cs cd (i j : nat) x :
  bs <> bd ->
  mem s !! bs = Some cs -> mem s !! bd = Some cd ->
  cs !! i = Some x -> (j < length cd)%nat ->
  move_assign_cell (Ptr bd (Z.of_nat j)) (Ptr bs (Z.of_nat i)) s
  = Ret tt (set_mem s (<[bs := <[i := moved_from x]> cs]>
                         (<[bd := <[j := x]> cd]> (mem s)))).
Proof.
  intros Hne Hs Hd Hx Hj. unfold move_assign_cell.
  rewrite (bind_Ret _ _ _ _ _ (load_ok _ _ _ _ _ Hs Hx)).
  rewrite (bind_Ret _ _ _ _ _ (store_ok _ _ _ _ x Hd Hj)).
  erewrite store_ok; [reflexivity | | ].
  - cbn. rewrite lookup_insert_ne by congruence. exact Hs.
  - apply lookup_lt_Some in Hx. exact Hx.
Qed.

Lemma move_loop_cross n : forall s bs bd cs cd (i j : nat),
  bs <> bd ->
  mem s !! bs = Some cs -> mem s !! bd = Some cd ->
  (i + n <= length cs)%nat -> (j + n <= length cd)%nat ->
  exists s' cs' cd',
    move_loop n (Ptr bs (Z.of_nat i)) (Ptr bd (Z.of_nat j)) s = Ret tt s' /\
    vecs s' = vecs s /\
    mem s' !! bs = Some cs' /\ length cs' = length cs /\
    (forall t, (t < i \/ i + n <= t)%nat -> cs' !! t = cs !! t) /\
    mem s' !! bd = Some cd' /\ length cd' = length cd /\
    (forall t, (t < n)%nat -> cd' !! (j + t)%nat = cs !! (i + t)%nat) /\
    (forall t, (t < j \/ j + n <= t)%nat -> cd' !! t = cd !! t) /\
    (forall b, b <> bs -> b <> bd -> mem s' !! b = mem s !! b).
Proof.
  induction n as [|n IH]; intros s bs bd cs cd i j Hne Hs Hd Hi Hj.
  - exists s, cs, cd. cbn. repeat split; auto. intros; lia.
  - destruct (lookup_lt_is_Some_2 cs i) as [x Hx]; [lia|].
    cbn [move_loop].
    assert (Hj' : (j < length cd)%nat) by lia.
    rewrite (bind_Ret _ _ _ _ _ (move_assign_cell_cross _ _ _ _ _ _ _ _ Hne Hs Hd Hx Hj')).
    cbn [ptr_add]. unfold bind at 1 2. cbn [ret].
    replace (Z.of_nat i + 1) with (Z.of_nat (S i)) by lia.
    replace (Z.of_nat j + 1) with (Z.of_nat (S j)) by lia.
    set (s1 := set_mem s _).
    destruct (IH s1 bs bd (<[i := moved_from x]> cs) (<[j := x]> cd) (S i) (S j))
      as (s' & cs' & cd' & Hrun & Hv & Hs' & Hls & Hsf & Hd' & Hld & Hcp & Hfr & Hoth); auto.
    + subst s1; cbn. now rewrite lookup_insert_eq.
    + subst s1; cbn. rewrite lookup_insert_ne by congruence. now rewrite lookup_insert_eq.
    + rewrite length_insert. lia.
    + rewrite length_insert. lia.
    + exists s', cs', cd'. rewrite Hrun. rewrite length_insert in Hls, Hld.
      repeat split; auto.
      * intros t Ht. rewrite Hsf by lia. apply list_lookup_insert_ne. lia.
      * intros t Ht. destruct t as [|t].
        -- rewrite Nat.add_0_r. rewrite Hfr by lia.
           rewrite list_lookup_insert_eq by lia. rewrite Nat.add_0_r. now rewrite Hx.
        -- replace (j + S t)%nat with (S j + t)%nat by lia.
           rewrite Hcp by lia. rewrite list_lookup_insert_ne by lia.
           f_equal; lia.
      * intros t Ht. rewrite Hfr by lia. apply list_lookup_insert_ne. lia.
      * intros b Hb1 Hb2. rewrite Hoth by auto. subst s1; cbn.
        rewrite !lookup_insert_ne by congruence. reflexivity.
Qed.

Lemma copy_assign_cell_cross s bs bd cs cd (i j : nat) x :
  bs <> bd ->
  mem s !! bs = Some cs -> mem s !! bd = Some cd ->
  cs !! i = Some x -> (j < length cd)%nat ->
  copy_assign_cell (Ptr bd (Z.of_nat j)) (Ptr bs (Z.of_nat i)) s
  = Ret tt (set_mem s (<[bd := <[j := x]> cd]> (mem s))).
Proof.
  intros Hne Hs Hd Hx Hj. unfold copy_assign_cell.
  rewrite (bind_Ret _ _ _ _ _ (load_ok _ _ _ _ _ Hs Hx)).
  now apply store_ok.
Qed.

Lemma copy_loop_cross n : forall s bs bd cs cd (i j : nat),
  bs <> bd ->
  mem s !! bs = Some cs -> mem s !! bd = Some cd ->
  (i + n <= length cs)%nat -> (j + n <= length cd)%nat ->
  exists s' cd',
    copy_loop n (Ptr bs (Z.of_nat i)) (Ptr bd (Z.of_nat j)) s = Ret tt s' /\
    vecs s' = vecs s /\
    mem s' !! bd = Some cd' /\ length cd' = length cd /\
    (forall t, (t < n)%nat -> cd' !! (j + t)%nat = cs !! (i + t)%nat) /\
    (forall t, (t < j \/ j + n <= t)%nat -> cd' !! t = cd !! t) /\
    (forall b, b <> bd -> mem s' !! b = mem s !! b).
Proof.
  induction n as [|n IH]; intros s bs bd cs cd i j Hne Hs Hd Hi Hj.
  - exists s, cd. cbn. repeat split; auto. intros; lia.
  - destruct (lookup_lt_is_Some_2 cs i) as [x Hx]; [lia|].
    assert (Hj' : (j < length cd)%nat) by lia.
    cbn [copy_loop].
    rewrite (bind_Ret _ _ _ _ _ (copy_assign_cell_cross _ _ _ _ _ _ _ _ Hne Hs Hd Hx Hj')).
    cbn [ptr_add]. unfold bind at 1 2. cbn [ret].
    replace (Z.of_nat i + 1) with (Z.of_nat (S i)) by lia.
    replace (Z.of_nat j + 1) with (Z.of_nat (S j)) by lia.
    set (s1 := set_mem s _).
    destruct (IH s1 bs bd cs (<[j := x]> cd) (S i) (S j))
      as (s' & cd' & Hrun & Hv & Hd' & Hld & Hcp & Hfr & Hoth); auto.
    + subst s1; cbn. now rewrite lookup_insert_ne by congruence.
    + subst s1; cbn. now rewrite lookup_insert_eq.
    + lia.
    + rewrite length_insert. lia.
    + exists s', cd'. rewrite Hrun. rewrite length_insert in Hld.
      repeat split; auto.
      * intros t Ht. destruct t as [|t].
        -- rewrite Nat.add_0_r. rewrite Hfr by lia.
           rewrite list_lookup_insert_eq by lia. rewrite Nat.add_0_r. now rewrite Hx.
        -- replace (j + S t)%nat with (S j + t)%nat by lia.
           rewrite Hcp by lia. f_equal; lia.
      * intros t Ht. rewrite Hfr by lia. apply list_lookup_insert_ne. lia.
      * intros b Hb. rewrite Hoth by auto. subst s1; cbn.
        rewrite !lookup_insert_ne by congruence. reflexivity.
Qed.

Lemma fill_loop_ok n : forall s b cs (i : nat) value,
  mem s !! b = Some cs -> (i + n <= length cs)%nat ->
  exists s' cs',
    fill_loop n (Ptr b (Z.of_nat i)) value s = Ret tt s' /\
    vecs s' = vecs s /\
    mem s' !! b = Some cs' /\ length cs' = length cs /\
    (forall t, (i <= t < i + n)%nat -> cs' !! t = Some value) /\
    (forall t, (t < i \/ i + n <= t)%nat -> cs' !! t = cs !! t) /\
    (forall b', b' <> b -> mem s' !! b' = mem s !! b').
Proof.
  induction n as [|n IH]; intros s b cs i value Hb Hi.
  - exists s, cs. cbn. repeat split; auto. intros; lia.
  - assert (Hi' : (i < length cs)%nat) by lia.
    cbn [fill_loop].
    rewrite (bind_Ret _ _ _ _ _ (store_ok _ _ _ _ value Hb Hi')).
    cbn [ptr_add]. unfold bind at 1. cbn [ret].
    replace (Z.of_nat i + 1) with (Z.of_nat (S i)) by lia.
    set (s1 := set_mem s _).
    destruct (IH s1 b (<[i := value]> cs) (S i) value)
      as (s' & cs' & Hrun & Hv & Hb' & Hl & Hin & Hfr & Hoth).
    + subst s1; cbn. now rewrite lookup_insert_eq.
    + rewrite length_insert. lia.
    + exists s', cs'. rewrite Hrun. rewrite length_insert in Hl.
      repeat split; auto.
      * intros t Ht. destruct (decide (t = i)) as [->|Hne].
        -- rewrite Hfr by lia. apply list_lookup_insert_eq. lia.
        -- apply Hin. lia.
      * intros t Ht. rewrite Hfr by lia. apply list_lookup_insert_ne. lia.
      * intros b' Hb'ne. rewrite Hoth by auto. subst s1; cbn.
        now rewrite lookup_insert_ne by congruence.
Qed.


Lemma move_assign_cell_same s b cs (i j : nat) x :
  mem s !! b = Some cs ->
  cs !! i = Some x -> (j < length cs)%nat ->
  move_assign_cell (Ptr b (Z.of_nat j)) (Ptr b (Z.of_nat i)) s
  = Ret tt (set_mem s (<[b := <[i := moved_from x]> (<[j := x]> cs)]> (mem s))).
Proof.
  intros Hb Hx Hj. unfold move_assign_cell.
  rewrite (bind_Ret _ _ _ _ _ (load_ok _ _ _ _ _ Hb Hx)).
  rewrite (bind_Ret _ _ _ _ _ (store_ok _ _ _ _ x Hb Hj)).
  erewrite store_ok.
  - unfold set_mem; cbn. now rewrite insert_insert_eq.
  - cbn. now rewrite lookup_insert_eq.
  - rewrite length_insert. now apply lookup_lt_Some in Hx.
Qed.

(** The left shift of [Erase]: source one cell to the right of the target,
    in one block. *)
Lemma move_loop_left n : forall s b cs (i : nat),
  mem s !! b = Some cs -> (i + n + 1 <= length cs)%nat ->
  exists s' cs',
    move_loop n (Ptr b (Z.of_nat (S i))) (Ptr b (Z.of_nat i)) s = Ret tt s' /\
    vecs s' = vecs s /\
    mem s' !! b = Some cs' /\ length cs' = length cs /\
    (forall t, (i <= t < i + n)%nat -> cs' !! t = cs !! S t) /\
    (forall t, (t < i)%nat -> cs' !! t = cs !! t) /\
    (forall b', b' <> b -> mem s' !! b' = mem s !! b').
Proof.
  induction n as [|n IH]; intros s b cs i Hb Hi.
  - exists s, cs. cbn. repeat split; auto. intros; lia.
  - destruct (lookup_lt_is_Some_2 cs (S i)) as [x Hx]; [lia|].
    assert (Hi' : (i < length cs)%nat) by lia.
    cbn [move_loop].
    rewrite (bind_Ret _ _ _ _ _ (move_assign_cell_same _ _ _ _ _ _ Hb Hx Hi')).
    cbn [ptr_add]. unfold bind at 1 2. cbn [ret].
    replace (Z.of_nat (S i) + 1) with (Z.of_nat (S (S i))) by lia.
    replace (Z.of_nat i + 1) with (Z.of_nat (S i)) by lia.
    set (s1 := set_mem s _).
    destruct (IH s1 b (<[S i := moved_from x]> (<[i := x]> cs)) (S i))
      as (s' & cs' & Hrun & Hv & Hb' & Hl & Hsh & Hfr & Hoth).
    + subst s1; cbn. now rewrite lookup_insert_eq.
    + rewrite !length_insert. lia.
    + exists s', cs'. rewrite Hrun. rewrite !length_insert in Hl.
      repeat split; auto.
      * intros t Ht. destruct (decide (t = i)) as [->|Hne].
        -- rewrite Hfr by lia. rewrite list_lookup_insert_ne by lia.
           rewrite list_lookup_insert_eq by lia. now rewrite Hx.
        -- rewrite Hsh by lia. rewrite !list_lookup_insert_ne by lia. reflexivity.
      * intros t Ht. rewrite Hfr by lia. rewrite !list_lookup_insert_ne by lia.
        reflexivity.
      * intros b' Hb'ne. rewrite Hoth by auto. subst s1; cbn.
        now rewrite lookup_insert_ne by congruence.
Qed.

(** The right shift of [InsertInt]: [n] cells starting at [i] move one cell
    to the right, last cell first. *)
Lemma move_backward_loop_right n : forall s b cs (i : nat),
  mem s !! b = Some cs -> (i + n + 1 <= length cs)%nat ->
  exists s' cs',
    move_backward_loop n (Ptr b (Z.of_nat (i + n))) (Ptr b (Z.of_nat (i + n + 1))) s
    = Ret tt s' /\
    vecs s' = vecs s /\
    mem s' !! b = Some cs' /\ length cs' = length cs /\
    (forall t, (i <= t < i + n)%nat -> cs' !! S t = cs !! t) /\
    (forall t, (t < i \/ i + n < t)%nat -> cs' !! t = cs !! t) /\
    (forall b', b' <> b -> mem s' !! b' = mem s !! b').
Proof.
  induction n as [|n IH]; intros s b cs i Hb Hi.
  - exists s, cs. cbn. repeat split; auto. intros; lia.
  - destruct (lookup_lt_is_Some_2 cs (i + n)) as [x Hx]; [lia|].
    assert (Hi' : (i + n + 1 < length cs)%nat) by lia.
    cbn [move_backward_loop ptr_add]. unfold bind at 1 2. cbn [ret].
    replace (Z.of_nat (i + S n) + -1) with (Z.of_nat (i + n)) by lia.
    replace (Z.of_nat (i + S n + 1) + -1) with (Z.of_nat (i + n + 1)) by lia.
    rewrite (bind_Ret _ _ _ _ _ (move_assign_cell_same _ _ _ _ _ _ Hb Hx Hi')).
    set (s1 := set_mem s _).
    destruct (IH s1 b (<[(i + n)%nat := moved_from x]> (<[(i + n + 1)%nat := x]> cs)) i)
      as (s' & cs' & Hrun & Hv & Hb' & Hl & Hsh & Hfr & Hoth).
    + subst s1; cbn. now rewrite lookup_insert_eq.
    + rewrite !length_insert. lia.
    + exists s', cs'. rewrite Hrun. rewrite !length_insert in Hl.
      repeat split; auto.
      * intros t Ht. destruct (decide (t = i + n)%nat) as [->|Hne].
        -- rewrite Hfr by lia. rewrite list_lookup_insert_ne by lia.
           replace (S (i + n)) with (i + n + 1)%nat by lia.
           rewrite list_lookup_insert_eq by lia. now rewrite Hx.
        -- rewrite Hsh by lia. rewrite !list_lookup_insert_ne by lia. reflexivity.
      * intros t Ht. rewrite Hfr by lia. rewrite !list_lookup_insert_ne by lia.
        reflexivity.
      * intros b' Hb'ne. rewrite Hoth by auto. subst s1; cbn.
        now rewrite lookup_insert_ne by congruence.
Qed.

Lemma equal_loop_true n : forall s b1 b2 c1 c2 (i j : nat),
  mem s !! b1 = Some c1 -> mem s !! b2 = Some c2 ->
  (i + n <= length c1)%nat ->
  (forall t, (t < n)%nat -> c2 !! (j + t)%nat = c1 !! (i + t)%nat) ->
  equal_loop n (Ptr b1 (Z.of_nat i)) (Ptr b2 (Z.of_nat j)) s = Ret true s.
Proof.
  induction n as [|n IH]; intros s b1 b2 c1 c2 i j H1 H2 Hi Heq.
  - reflexivity.
  - destruct (lookup_lt_is_Some_2 c1 i) as [x Hx]; [lia|].
    assert (Hy : c2 !! j = Some x).
    { specialize (Heq 0%nat ltac:(lia)). rewrite !Nat.add_0_r in Heq. congruence. }
    cbn [equal_loop].
    rewrite (bind_Ret _ _ _ _ _ (load_ok _ _ _ _ _ H1 Hx)).
    rewrite (bind_Ret _ _ _ _ _ (load_ok _ _ _ _ _ H2 Hy)).
    rewrite decide_True by reflexivity.
    cbn [ptr_add]. unfold bind at 1 2. cbn [ret].
    replace (Z.of_nat i + 1) with (Z.of_nat (S i)) by lia.
    replace (Z.of_nat j + 1) with (Z.of_nat (S j)) by lia.
    apply (IH s b1 b2 c1 c2); auto; [lia|].
    intros t Ht. specialize (Heq (S t) ltac:(lia)).
    replace (S j + t)%nat with (j + S t)%nat by lia.
    replace (S i + t)%nat with (i + S t)%nat by lia. exact Heq.
Qed.

(** ** Running single steps *)

Lemma bind_ret_l {A B} (a : A) (k : A -> M B) s : bind (ret a) k s = k a s.
Proof. reflexivity. Qed.

Lemma fresh_block_None (m : gmap block (list T)) : m !! fresh_block m = None.
Proof. apply not_elem_of_dom. unfold fresh_block. apply is_fresh. Qed.

Lemma grants_bound m n : grants m n = true -> n <= PTRDIFF_MAX.
Proof.
  unfold grants. intros Hg. apply andb_prop in Hg as [Hg _].
  now apply bool_decide_eq_true in Hg.
Qed.

Lemma ArrayPtr_sized_ok s n :
  0 < n -> grants (mem s) n = true ->
  ArrayPtr_sized n s
  = Ret (MkArrayPtr (Ptr (fresh_block (mem s)) 0))
        (set_mem s (<[fresh_block (mem s) := fresh_cell <$> seq 0 (Z.to_nat n)]> (mem s))).
Proof.
  intros Hn Hg. unfold ArrayPtr_sized. rewrite decide_True by lia.
  unfold bind, new_array. now rewrite Hg.
Qed.

Lemma ArrayPtr_sized_fail s n :
  0 < n -> grants (mem s) n = false ->
  ArrayPtr_sized n s = Throw bad_alloc s.
Proof.
  intros Hn Hg. unfold ArrayPtr_sized. rewrite decide_True by lia.
  unfold bind, new_array. now rewrite Hg.
Qed.

Lemma ArrayPtr_sized_zero s n :
  n <= 0 -> ArrayPtr_sized n s = Ret (MkArrayPtr nullptr) s.
Proof. intros Hn. unfold ArrayPtr_sized. now rewrite decide_False by lia. Qed.

Lemma get_vec_ok s this v :
  vecs s !! this = Some v -> get_vec this s = Ret v s.
Proof. intros Hv. unfold get_vec. now rewrite Hv. Qed.

Lemma set_data_ok s this v d :
  vecs s !! this = Some v ->
  set_data this d s
  = Ret tt (set_vecs s (<[this := MkSimpleVector d (size_ v) (capacity_ v)]> (vecs s))).
Proof. intros Hv. unfold set_data. now rewrite (bind_Ret _ _ _ _ _ (get_vec_ok _ _ _ Hv)). Qed.

Lemma set_size_ok s this v n :
  vecs s !! this = Some v ->
  set_size this n s
  = Ret tt (set_vecs s (<[this := MkSimpleVector (data_ v) n (capacity_ v)]> (vecs s))).
Proof. intros Hv. unfold set_size. now rewrite (bind_Ret _ _ _ _ _ (get_vec_ok _ _ _ Hv)). Qed.

Lemma set_capacity_ok s this v n :
  vecs s !! this = Some v ->
  set_capacity this n s
  = Ret tt (set_vecs s (<[this := MkSimpleVector (data_ v) (size_ v) n]> (vecs s))).
Proof. intros Hv. unfold set_capacity. now rewrite (bind_Ret _ _ _ _ _ (get_vec_ok _ _ _ Hv)). Qed.

Lemma swap_with_data_ok s this v new_data :
  vecs s !! this = Some v ->
  swap_with_data this new_data s
  = Ret (data_ v)
        (set_vecs s (<[this := MkSimpleVector new_data (size_ v) (capacity_ v)]> (vecs s))).
Proof.
  intros Hv. unfold swap_with_data.
  rewrite (bind_Ret _ _ _ _ _ (get_vec_ok _ _ _ Hv)).
  destruct new_data as [p], v as [[q] sz cp]. cbn.
  now rewrite (bind_Ret _ _ _ _ _ (set_data_ok _ _ _ _ Hv)).
Qed.

(** The three assignments that end every reallocation: [data_] takes the
    new block, then [capacity_] and [size_] are set. *)
Lemma install_ok s this v new_data cap sz (k : ArrayPtr -> M unit) :
  vecs s !! this = Some v ->
  (let* old := swap_with_data this new_data in
   set_capacity this cap;; set_size this sz;; k old) s
  = k (data_ v) (set_vecs s (<[this := MkSimpleVector new_data sz cap]> (vecs s))).
Proof.
  intros Hv.
  rewrite (bind_Ret _ _ _ _ _ (swap_with_data_ok _ _ _ _ Hv)).
  erewrite bind_Ret; [| apply set_capacity_ok; cbn; apply lookup_insert_eq].
  erewrite bind_Ret; [| apply set_size_ok; cbn; apply lookup_insert_eq].
  cbn. unfold set_vecs; cbn. now rewrite !insert_insert_eq.
Qed.

Lemma range_length_ok s b (i k : Z) :
  i <= k -> range_length (Ptr b i) (Ptr b k) s = Ret (Z.to_nat (k - i)) s.
Proof.
  intros Hik. unfold range_length, bind. cbn [ptr_diff].
  rewrite decide_True by reflexivity. cbn [ret].
  now rewrite decide_True by lia.
Qed.

Lemma std_copy_move_cross s bs bd cs cd (i k j : Z) :
  bs <> bd ->
  mem s !! bs = Some cs -> mem s !! bd = Some cd ->
  0 <= i <= k -> k <= Z.of_nat (length cs) ->
  0 <= j -> j + (k - i) <= Z.of_nat (length cd) ->
  exists s' cs' cd',
    std_copy_move (Ptr bs i) (Ptr bs k) (Ptr bd j) s = Ret tt s' /\
    vecs s' = vecs s /\
    mem s' !! bs = Some cs' /\ length cs' = length cs /\
    (forall t, (t < Z.to_nat i \/ Z.to_nat i + Z.to_nat (k - i) <= t)%nat ->
               cs' !! t = cs !! t) /\
    mem s' !! bd = Some cd' /\ length cd' = length cd /\
    (forall t, (t < Z.to_nat (k - i))%nat ->
               cd' !! (Z.to_nat j + t)%nat = cs !! (Z.to_nat i + t)%nat) /\
    (forall t, (t < Z.to_nat j \/ Z.to_nat j + Z.to_nat (k - i) <= t)%nat ->
               cd' !! t = cd !! t) /\
    (forall b, b <> bs -> b <> bd -> mem s' !! b = mem s !! b).
Proof.
  intros Hne Hs Hd Hi Hk Hj Hjk.
  unfold std_copy_move.
  rewrite (bind_Ret _ _ _ _ _ (range_length_ok s bs i k ltac:(lia))).
  cbn beta.
  replace (Ptr bs i) with (Ptr bs (Z.of_nat (Z.to_nat i))) by (f_equal; lia).
  replace (Ptr bd j) with (Ptr bd (Z.of_nat (Z.to_nat j))) by (f_equal; lia).
  apply move_loop_cross; auto; lia.
Qed.

Ltac step_with E := rewrite (bind_Ret _ _ _ _ _ E); cbn beta.
Ltac pure_step :=
  cbn [ptr_add ArrayPtr_index Get raw_ptr_ data_ size_ capacity_];
  rewrite bind_ret_l.

Lemma to_size_t_small z : 0 <= z <= SIZE_MAX -> to_size_t z = z.
Proof. unfold to_size_t, SIZE_MAX. intros Hz. apply Z.mod_small. lia. Qed.

Lemma length_fresh_cells (n : Z) :
  0 <= n -> Z.of_nat (length (fresh_cell <$> seq 0 (Z.to_nat n))) = n.
Proof. intros Hn. rewrite length_fmap, length_seq. lia. Qed.

Lemma delete_array_ok s b cs :
  mem s !! b = Some cs ->
  delete_array (Ptr b 0) s = Ret tt (set_mem s (delete b (mem s))).
Proof. intros Hb. unfold delete_array. rewrite decide_True by reflexivity. now rewrite Hb. Qed.

Lemma Recreate_ok s this v new_capacity pos item :
  vecs s !! this = Some v -> wf_vec (mem s) v ->
  0 <= pos <= size_ v -> size_ v < new_capacity ->
  grants (mem s) new_capacity = true ->
  exists s' b' cs',
    Recreate this new_capacity pos item s = Ret tt s' /\
    vecs s' = <[this := MkSimpleVector (MkArrayPtr (Ptr b' 0)) (size_ v + 1) new_capacity]> (vecs s) /\
    mem s !! b' = None /\
    mem s' !! b' = Some cs' /\ Z.of_nat (length cs') = new_capacity /\
    (forall t, (t < Z.to_nat pos)%nat -> cs' !! t = buffer (mem s) v !! t) /\
    cs' !! Z.to_nat pos = Some item /\
    (forall t, (Z.to_nat pos <= t < Z.to_nat (size_ v))%nat ->
               cs' !! S t = buffer (mem s) v !! t) /\
    (forall b, b <> b' -> Ptr b 0 <> raw_ptr_ (data_ v) -> mem s' !! b = mem s !! b).
Proof.
  intros Hv (Hsz & Hcp & Hp) Hpos Hnew Hg.
  pose proof (grants_bound _ _ Hg) as Hbound.
  assert (Hwrap : to_size_t (size_ v + 1) = size_ v + 1).
  { apply to_size_t_small. unfold SIZE_MAX, PTRDIFF_MAX in *. lia. }
  pose proof (fresh_block_None (mem s)) as Hfresh.
  set (b' := fresh_block (mem s)) in *.
  set (fc := fresh_cell <$> seq 0 (Z.to_nat new_capacity)).
  assert (Hfc : Z.of_nat (length fc) = new_capacity) by (apply length_fresh_cells; lia).
  unfold Recreate.
  step_with (ArrayPtr_sized_ok s new_capacity ltac:(lia) Hg).
  fold b' fc. set (s1 := set_mem s _).
  step_with (get_vec_ok s1 this v Hv). rewrite Hwrap.
  destruct v as [[p] sz cp]; cbn [data_ size_ capacity_ raw_ptr_] in *.
  destruct p as [|b off].
  - (* nothing held: size 0, insertion at 0 *)
    assert (sz = 0) by lia. assert (pos = 0) by lia. subst sz pos cp.
    cbn [Get raw_ptr_ ptr_add]. rewrite !(decide_True (P := 0 = 0)) by reflexivity.
    rewrite bind_ret_l.
    erewrite bind_Ret by reflexivity. cbn beta.
    pure_step.
    assert (Hst : store (Ptr b' (0 + 0)) item s1
                  = Ret tt (set_mem s1 (<[b' := <[0%nat := item]> fc]> (mem s1)))).
    { apply (store_ok s1 b' fc 0%nat); [|lia].
      subst s1; cbn. now rewrite lookup_insert_eq. }
    step_with Hst. set (s3 := set_mem s1 _).
    rewrite bind_ret_l. do 3 pure_step.
    erewrite bind_Ret by reflexivity. cbn beta.
    rewrite (install_ok s3 this _ _ _ _ _ ltac:(subst s3 s1; cbn; exact Hv)).
    cbn [data_]. unfold ArrayPtr_destroy; cbn [raw_ptr_ delete_array].
    eexists _, b', (<[0%nat := item]> fc). split; [reflexivity|].
    cbn [vecs mem set_mem set_vecs].
    repeat split.
    + exact Hfresh.
    + subst s3 s1; cbn. now rewrite lookup_insert_eq.
    + rewrite length_insert. lia.
    + intros t Ht. cbn in Ht. lia.
    + apply list_lookup_insert_eq. lia.
    + intros t Ht. cbn in Ht. lia.
    + intros b0 Hb0 _. subst s3 s1; cbn. now rewrite !lookup_insert_ne by congruence.
  - destruct Hp as (-> & Hcp0 & Hb). destruct (mem s !! b) as [cs|] eqn:Hcs; [|done].
    assert (Hbb' : b <> b') by congruence.
    pure_step.
    destruct (std_copy_move_cross s1 b b' cs fc 0 (0 + pos) 0)
      as (s2 & cs2 & cd2 & Hrun2 & Hv2 & Hs2 & Hls2 & Hsf2 & Hd2 & Hld2 & Hcp2 & Hfr2 & Hoth2);
      auto; try lia.
    { subst s1; cbn. now rewrite lookup_insert_ne by congruence. }
    { subst s1; cbn. now rewrite lookup_insert_eq. }
    step_with Hrun2.
    pure_step.
    assert (Hst : store (Ptr b' (0 + pos)) item s2
                  = Ret tt (set_mem s2 (<[b' := <[Z.to_nat pos := item]> cd2]> (mem s2)))).
    { replace (0 + pos) with (Z.of_nat (Z.to_nat pos)) by lia.
      apply store_ok; auto. lia. }
    step_with Hst. set (s3 := set_mem s2 _).
    do 4 pure_step.
    destruct (std_copy_move_cross s3 b b' cs2 (<[Z.to_nat pos := item]> cd2)
                (0 + pos) (0 + sz) (0 + pos + 1))
      as (s4 & cs4 & cd4 & Hrun4 & Hv4 & Hs4 & Hls4 & Hsf4 & Hd4 & Hld4 & Hcp4 & Hfr4 & Hoth4);
      auto; try lia.
    { subst s3; cbn. now rewrite lookup_insert_ne by congruence. }
    { subst s3; cbn. now rewrite lookup_insert_eq. }
    { rewrite length_insert. lia. }
    step_with Hrun4.
    rewrite (install_ok s4 this _ _ _ _ _ ltac:(rewrite Hv4; subst s3; cbn; rewrite Hv2; exact Hv)).
    cbn [data_].
    unfold ArrayPtr_destroy; cbn [raw_ptr_].
    erewrite delete_array_ok by (cbn; exact Hs4).
    eexists _, b', cd4. split; [reflexivity|]. cbn [vecs mem set_mem set_vecs].
    rewrite length_insert in Hld4.
    repeat split.
    + rewrite Hv4. subst s3; cbn. rewrite Hv2. reflexivity.
    + exact Hfresh.
    + rewrite lookup_delete_ne by congruence. exact Hd4.
    + lia.
    + intros t Ht. unfold buffer; cbn. rewrite Hcs; cbn.
      rewrite Hfr4 by lia. rewrite list_lookup_insert_ne by lia.
      apply (Hcp2 t). lia.
    + rewrite Hfr4 by lia. apply list_lookup_insert_eq. lia.
    + intros t Ht. unfold buffer; cbn. rewrite Hcs; cbn.
      replace (S t) with (Z.to_nat (0 + pos + 1) + (t - Z.to_nat pos))%nat by lia.
      rewrite Hcp4 by lia.
      replace (Z.to_nat (0 + pos) + (t - Z.to_nat pos))%nat with t by lia.
      apply Hsf2. lia.
    + intros b0 Hb0 Hb0'. assert (b0 <> b) by congruence.
      rewrite lookup_delete_ne by congruence. rewrite Hoth4 by auto.
      subst s3; cbn. rewrite lookup_insert_ne by congruence.
      rewrite Hoth2 by auto. subst s1; cbn. now rewrite lookup_insert_ne by congruence.
Qed.

(** ** Lists read cell by cell *)

Lemma take_ext (l l' : list T) (n : nat) :
  (forall t, (t < n)%nat -> l' !! t = l !! t) -> take n l' = take n l.
Proof.
  intros Hp. apply list_eq. intros i.
  destruct (decide (i < n)%nat).
  - rewrite !lookup_take_lt by lia. auto.
  - rewrite !lookup_take_ge by lia. reflexivity.
Qed.

Lemma take_snoc_ext (l l' : list T) (n : nat) x :
  (forall t, (t < n)%nat -> l' !! t = l !! t) -> l' !! n = Some x ->
  take (S n) l' = take n l ++ [x].
Proof.
  intros Hp Hx. rewrite (take_S_r _ _ _ Hx). f_equal. now apply take_ext.
Qed.

(** ** Well-formed vectors *)

Lemma grown_wf cap :
  0 <= cap <= PTRDIFF_MAX ->
  grown cap = if decide (cap = 0) then 1 else 2 * cap.
Proof.
  intros Hc. unfold grown. destruct (decide (cap = 0)); [reflexivity|].
  rewrite to_size_t_small; [lia|]. unfold SIZE_MAX, PTRDIFF_MAX in *. lia.
Qed.

Lemma wf_vecb_true m v : wf_vecb m v = true -> wf_vec m v.
Proof.
  unfold wf_vecb, wf_vec. intros Hb.
  apply andb_prop in Hb as [Hb Hp]. apply andb_prop in Hb as [Hs Hc].
  apply bool_decide_eq_true in Hs. apply bool_decide_eq_true in Hc.
  split; [exact Hs|]. split; [exact Hc|].
  destruct (raw_ptr_ (data_ v)) as [|b off].
  - now apply bool_decide_eq_true in Hp.
  - apply andb_prop in Hp as [Hp Hl]. apply andb_prop in Hp as [Ho Hpos].
    apply bool_decide_eq_true in Ho. apply bool_decide_eq_true in Hpos.
    split; [exact Ho|]. split; [exact Hpos|].
    destruct (m !! b); [|discriminate]. now apply bool_decide_eq_true in Hl.
Qed.

Lemma wf_vec_capacity_matches_buffer m v :
  wf_vec m v -> capacity_matches_buffer v.
Proof.
  intros (_ & _ & Hp). unfold capacity_matches_buffer.
  destruct (raw_ptr_ (data_ v)) as [|b off].
  - split; auto.
  - destruct Hp as (_ & Hpos & _). split; [lia|discriminate].
Qed.

Lemma wf_vec_held m b off sz cp :
  wf_vec m (MkSimpleVector (MkArrayPtr (Ptr b off)) sz cp) ->
  off = 0 /\ exists cs, m !! b = Some cs /\ Z.of_nat (length cs) = cp.
Proof.
  intros (_ & _ & Hp); cbn in Hp. destruct Hp as (-> & _ & Hb).
  destruct (m !! b) as [cs|]; [eauto | done].
Qed.

(** ** PushBack *)

Lemma PushBack_ok s this v item :
  vecs s !! this = Some v -> wf_vec (mem s) v ->
  (size_ v = capacity_ v -> grants (mem s) (grown (capacity_ v)) = true) ->
  exists s' v',
    PushBack this item s = Ret tt s' /\
    vecs s' = <[this := v']> (vecs s) /\
    wf_vec (mem s') v' /\
    size_ v' = size_ v + 1 /\
    capacity_ v' = (if decide (size_ v = capacity_ v)
                    then if decide (capacity_ v = 0) then 1 else 2 * capacity_ v
                    else capacity_ v) /\
    elements (mem s') v' = elements (mem s) v ++ [item] /\
    (forall b cs, mem s !! b = Some cs -> Ptr b 0 <> raw_ptr_ (data_ v) ->
                  mem s' !! b = Some cs) /\
    (raw_ptr_ (data_ v') = raw_ptr_ (data_ v) \/
     exists b', raw_ptr_ (data_ v') = Ptr b' 0 /\ mem s !! b' = None).
Proof.
  intros Hv Hwf Hg. pose proof Hwf as (Hsz & Hcp & Hp).
  unfold PushBack. step_with (get_vec_ok s this v Hv).
  destruct (decide (size_ v = capacity_ v)) as [Hfull|Hroom].
  - specialize (Hg Hfull).
    pose proof (grown_wf (capacity_ v) ltac:(lia)) as Hgrown.
    destruct (Recreate_ok s this v (grown (capacity_ v)) (size_ v) item Hv Hwf)
      as (s' & b' & cs' & Hrun & Hvs & Hfresh & Hb' & Hlen & Hlow & Hat & _ & Hoth);
      auto; try lia.
    { rewrite Hgrown. destruct (decide (capacity_ v = 0)); lia. }
    pose proof (grants_bound _ _ Hg) as Hbound.
    eexists s', _. split; [exact Hrun|]. split; [exact Hvs|].
    cbn [size_ capacity_ data_ raw_ptr_].
    split; [|split; [reflexivity|split; [exact Hgrown|split; [|split]]]].
    + unfold wf_vec; cbn. rewrite Hb'. rewrite Hgrown in *.
      destruct (decide (capacity_ v = 0)); repeat split; lia.
    + unfold elements at 1, buffer at 1; cbn. rewrite Hb'; cbn.
      replace (Z.to_nat (size_ v + 1)) with (S (Z.to_nat (size_ v))) by lia.
      unfold elements. apply take_snoc_ext; auto.
    + intros b cs Hb Hne. rewrite Hoth; auto. congruence.
    + right. exists b'. auto.
  - destruct v as [[p] sz cp]; cbn [data_ size_ capacity_ raw_ptr_] in *.
    destruct p as [|b off]; [lia|].
    destruct Hp as (-> & Hcp0 & Hb). destruct (mem s !! b) as [cs|] eqn:Hcs; [|done].
    rewrite to_size_t_small by (unfold SIZE_MAX, PTRDIFF_MAX in *; lia).
    step_with (set_size_ok s this _ (sz + 1) Hv). cbn [data_ capacity_].
    pure_step.
    replace (0 + sz) with (Z.of_nat (Z.to_nat sz)) by lia.
    erewrite store_ok; [| cbn; exact Hcs | lia].
    eexists _, _. split; [reflexivity|]. cbn [vecs mem set_mem set_vecs size_ capacity_].
    split; [reflexivity|].
    split; [|split; [reflexivity|split; [reflexivity|split; [|split]]]].
    + unfold wf_vec; cbn. rewrite lookup_insert_eq, length_insert. repeat split; lia.
    + unfold elements, buffer; cbn. rewrite lookup_insert_eq, Hcs; cbn.
      replace (Z.to_nat (sz + 1)) with (S (Z.to_nat sz)) by lia.
      apply take_snoc_ext.
      * intros t Ht. apply list_lookup_insert_ne. lia.
      * apply list_lookup_insert_eq. lia.
    + intros b0 cs0 Hb0 Hne. rewrite lookup_insert_ne by congruence. exact Hb0.
    + left. reflexivity.
Qed.

(** ** Element access *)

Lemma length_elements m v :
  wf_vec m v -> length (elements m v) = Z.to_nat (size_ v).
Proof.
  intros (Hs & Hc & Hp). unfold elements, buffer. rewrite length_take.
  destruct (raw_ptr_ (data_ v)) as [|b off].
  - cbn. lia.
  - destruct Hp as (_ & _ & Hb). destruct (m !! b); [|done]. cbn. lia.
Qed.

Lemma operator_index_ok s this v index :
  vecs s !! this = Some v ->
  operator_index this index s = ptr_add (raw_ptr_ (data_ v)) index s.
Proof.
  intros Hv. unfold operator_index. now step_with (get_vec_ok s this v Hv).
Qed.

Lemma operator_index_no_throw s this index e s' :
  operator_index this index s <> Throw e s'.
Proof.
  unfold operator_index, bind, get_vec.
  destruct (vecs s !! this) as [v|]; [|discriminate].
  unfold ArrayPtr_index, ptr_add.
  destruct (raw_ptr_ (data_ v)); [|discriminate].
  destruct (decide (index = 0)); discriminate.
Qed.

Lemma At_ok s this v index :
  vecs s !! this = Some v ->
  At this index s
  = if decide (size_ v <= index) then Throw out_of_range s
    else operator_index this index s.
Proof.
  intros Hv. unfold At, RangeCheck, operator_index.
  unfold bind at 1 2. rewrite (get_vec_ok s this v Hv).
  destruct (decide (size_ v <= index)); reflexivity.
Qed.

Lemma read_index_ok s this v index :
  vecs s !! this = Some v -> wf_vec (mem s) v -> 0 <= index < size_ v ->
  exists x r,
    elements (mem s) v !! Z.to_nat index = Some x /\
    operator_index this index s = Ret r s /\ load r s = Ret x s.
Proof.
  intros Hv (Hsz & Hcp & Hp) Hi.
  rewrite (operator_index_ok s this v index Hv).
  destruct v as [[p] sz cp]; cbn [data_ size_ capacity_ raw_ptr_] in *.
  destruct p as [|b off]; [lia|].
  destruct Hp as (-> & Hcp0 & Hb). destruct (mem s !! b) as [cs|] eqn:Hcs; [|done].
  destruct (lookup_lt_is_Some_2 cs (Z.to_nat index)) as [x Hx]; [lia|].
  exists x, (Ptr b (0 + index)). split; [|split; [reflexivity|]].
  - unfold elements, buffer; cbn. rewrite Hcs; cbn.
    rewrite lookup_take_lt by lia. exact Hx.
  - replace (0 + index) with (Z.of_nat (Z.to_nat index)) by lia.
    now apply (load_ok s b cs).
Qed.

Lemma read_At_ok s this v index :
  vecs s !! this = Some v -> wf_vec (mem s) v -> 0 <= index < size_ v ->
  exists x,
    elements (mem s) v !! Z.to_nat index = Some x /\
    read_At this index s = Ret x s.
Proof.
  intros Hv Hwf Hi.
  destruct (read_index_ok s this v index Hv Hwf Hi) as (x & r & Hx & Hr & Hl).
  exists x. split; [exact Hx|]. unfold read_At.
  erewrite bind_Ret; [exact Hl|].
  rewrite (At_ok s this v index Hv). now rewrite decide_False by lia.
Qed.

(** C4: [At(index)] throws [out_of_range] exactly when [index >= size];
    below [size] it is the reference [operator[]] gives, which reads the
    element at that logical index; the state is the same afterwards whether
    it returns or throws. *)
Theorem At_checked_access s this v index :
  vecs s !! this = Some v ->
  ((exists e s', At this index s = Throw e s') <-> size_ v <= index) /\
  (size_ v <= index -> At this index s = Throw out_of_range s) /\
  (index < size_ v -> At this index s = operator_index this index s) /\
  (forall s', final_state (At this index s) = Some s' -> s' = s) /\
  (wf_vec (mem s) v -> 0 <= index < size_ v ->
   exists x r, elements (mem s) v !! Z.to_nat index = Some x /\
               At this index s = Ret r s /\
               operator_index this index s = Ret r s /\
               load r s = Ret x s).
Proof.
  intros Hv. pose proof (At_ok s this v index Hv) as HAt.
  split; [|split; [|split; [|split]]].
  - split.
    + intros (e & s' & Hthrow). destruct (decide (size_ v <= index)); [assumption|].
      rewrite HAt in Hthrow. now apply operator_index_no_throw in Hthrow.
    + intros Hge. exists out_of_range, s. rewrite HAt. now rewrite decide_True.
  - intros Hge. rewrite HAt. now rewrite decide_True.
  - intros Hlt. rewrite HAt. now rewrite decide_False by lia.
  - intros s'. rewrite HAt. destruct (decide (size_ v <= index)).
    + cbn. congruence.
    + rewrite (operator_index_ok s this v index Hv).
      unfold ptr_add. destruct (raw_ptr_ (data_ v)); [|cbn; congruence].
      destruct (decide (index = 0)); cbn; congruence.
  - intros Hwf Hi.
    destruct (read_index_ok s this v index Hv Hwf Hi) as (x & r & Hx & Hr & Hl).
    exists x, r. rewrite HAt. rewrite decide_False by lia. auto.
Qed.

(** C3: after [PushBack(item)] the last element reads [item], the size is
    one more, the capacity changes only from a full vector and then
    becomes 1 (from 0) or twice the old capacity, and the old elements keep
    their values and order in front of the new one. *)
Theorem PushBack_appends s this v item :
  vecs s !! this = Some v -> wf_vec (mem s) v ->
  (size_ v = capacity_ v -> grants (mem s) (grown (capacity_ v)) = true) ->
  exists s' v',
    PushBack this item s = Ret tt s' /\
    vecs s' !! this = Some v' /\
    read_At this (size_ v' - 1) s' = Ret item s' /\
    size_ v' = size_ v + 1 /\
    (size_ v <> capacity_ v -> capacity_ v' = capacity_ v) /\
    (size_ v = capacity_ v -> capacity_ v = 0 -> capacity_ v' = 1) /\
    (size_ v = capacity_ v -> capacity_ v <> 0 -> capacity_ v' = 2 * capacity_ v) /\
    elements (mem s') v' = elements (mem s) v ++ [item] /\
    take (Z.to_nat (size_ v)) (elements (mem s') v') = elements (mem s) v.
Proof.
  intros Hv Hwf Hg.
  destruct (PushBack_ok s this v item Hv Hwf Hg)
    as (s' & v' & Hrun & Hvs & Hwf' & Hsz & Hcp & Hel & _).
  assert (Hv' : vecs s' !! this = Some v') by (rewrite Hvs; apply lookup_insert_eq).
  pose proof (length_elements _ _ Hwf) as Hlen.
  exists s', v'. split; [exact Hrun|]. split; [exact Hv'|].
  split; [|split; [exact Hsz|split; [|split; [|split; [|split; [exact Hel|]]]]]].
  - destruct (read_At_ok s' this v' (size_ v' - 1) Hv' Hwf') as (x & Hx & Hread).
    { destruct Hwf as (Hs & _). lia. }
    rewrite Hel in Hx. replace (Z.to_nat (size_ v' - 1)) with (Z.to_nat (size_ v)) in Hx by lia.
    rewrite lookup_app_r in Hx by lia. rewrite Hlen, Nat.sub_diag in Hx.
    cbn in Hx. congruence.
  - intros Hroom. now rewrite decide_False in Hcp.
  - intros Hfull H0. now rewrite !decide_True in Hcp.
  - intros Hfull H0. rewrite decide_True in Hcp by assumption.
    now rewrite decide_False in Hcp.
  - rewrite Hel, <- Hlen. apply take_app_length.
Qed.

(** ** Resize *)

Lemma take_fill_ext (l l' : list T) (n k : nat) x :
  (n <= length l)%nat ->
  (forall t, (t < n)%nat -> l' !! t = l !! t) ->
  (forall t, (n <= t < n + k)%nat -> l' !! t = Some x) ->
  take (n + k) l' = take n l ++ replicate k x.
Proof.
  intros Hn Hlow Hhigh. apply list_eq. intros i.
  assert (Hlt : length (take n l) = n) by (rewrite length_take; lia).
  destruct (decide (i < n)%nat); [|destruct (decide (i < n + k)%nat)].
  - rewrite lookup_take_lt by lia. rewrite lookup_app_l by lia.
    rewrite lookup_take_lt by lia. auto.
  - rewrite lookup_take_lt by lia. rewrite lookup_app_r by lia.
    rewrite Hhigh by lia. symmetry. apply lookup_replicate_2. lia.
  - rewrite lookup_take_ge by lia. rewrite lookup_app_r by lia.
    symmetry. apply lookup_replicate_None. lia.
Qed.

Lemma std_fill_ok s b cs (i k : Z) value :
  mem s !! b = Some cs -> 0 <= i <= k -> k <= Z.of_nat (length cs) ->
  exists s' cs',
    std_fill (Ptr b i) (Ptr b k) value s = Ret tt s' /\
    vecs s' = vecs s /\
    mem s' !! b = Some cs' /\ length cs' = length cs /\
    (forall t, (Z.to_nat i <= t < Z.to_nat k)%nat -> cs' !! t = Some value) /\
    (forall t, (t < Z.to_nat i \/ Z.to_nat k <= t)%nat -> cs' !! t = cs !! t) /\
    (forall b', b' <> b -> mem s' !! b' = mem s !! b').
Proof.
  intros Hb Hi Hk. unfold std_fill.
  rewrite (bind_Ret _ _ _ _ _ (range_length_ok s b i k ltac:(lia))). cbn beta.
  replace (Ptr b i) with (Ptr b (Z.of_nat (Z.to_nat i))) by (f_equal; lia).
  destruct (fill_loop_ok (Z.to_nat (k - i)) s b cs (Z.to_nat i) value Hb ltac:(lia))
    as (s' & cs' & Hrun & Hv & Hb' & Hl & Hin & Hfr & Hoth).
  exists s', cs'. repeat split; auto.
  - intros t Ht. apply Hin. lia.
  - intros t Ht. apply Hfr. lia.
Qed.

Lemma Resize_ok s this v new_size :
  vecs s !! this = Some v -> wf_vec (mem s) v -> 0 <= new_size ->
  (capacity_ v < new_size -> grants (mem s) new_size = true) ->
  exists s' v',
    Resize this new_size s = Ret tt s' /\
    vecs s' = <[this := v']> (vecs s) /\
    wf_vec (mem s') v' /\
    size_ v' = new_size /\
    capacity_ v' = Z.max (capacity_ v) new_size /\
    elements (mem s') v'
    = take (Z.to_nat new_size) (elements (mem s) v)
      ++ replicate (Z.to_nat (new_size - size_ v)) T_default /\
    (forall b cs, mem s !! b = Some cs -> Ptr b 0 <> raw_ptr_ (data_ v) ->
                  mem s' !! b = Some cs).
Proof.
  intros Hv Hwf Hn Hg. pose proof Hwf as (Hsz & Hcp & Hp).
  unfold Resize. step_with (get_vec_ok s this v Hv).
  destruct v as [[p] sz cp]; cbn [data_ size_ capacity_ raw_ptr_] in *.
  destruct (decide (new_size <= cp)) as [Hfit|Hgrow].
  - (* within the capacity *)
    destruct (decide (sz < new_size)) as [Hup|Hdown].
    + destruct p as [|b off]; [lia|].
      destruct Hp as (-> & Hcp0 & Hb). destruct (mem s !! b) as [cs|] eqn:Hcs; [|done].
      unfold bind at 1. do 2 pure_step. unfold FillDefault.
      destruct (std_fill_ok s b cs (0 + sz) (0 + new_size) T_default Hcs)
        as (s1 & cs1 & Hrun & Hv1 & Hb1 & Hl1 & Hin & Hfr & Hoth); try lia.
      rewrite Hrun.
      rewrite (set_size_ok s1 this _ new_size ltac:(rewrite Hv1; exact Hv)).
      eexists _, _. split; [reflexivity|].
      cbn [vecs mem set_mem set_vecs size_ capacity_ data_].
      split; [now rewrite Hv1|].
      cbn [size_ capacity_ data_ raw_ptr_].
      split; [|split; [reflexivity|split; [lia|split]]].
      * unfold wf_vec; cbn. rewrite Hb1. repeat split; lia.
      * unfold elements, buffer; cbn. rewrite Hb1, Hcs; cbn.
        rewrite take_take.
        replace (Z.to_nat new_size `min` Z.to_nat sz)%nat with (Z.to_nat sz) by lia.
        replace (Z.to_nat new_size)
          with (Z.to_nat sz + Z.to_nat (new_size - sz))%nat at 1 by lia.
        apply take_fill_ext; [lia| |].
        -- intros t Ht. apply Hfr. lia.
        -- intros t Ht. apply Hin. lia.
      * intros b0 cs0 Hb0 Hne. rewrite Hoth by congruence. exact Hb0.
    + unfold bind at 1. cbn [ret].
      rewrite (set_size_ok s this _ new_size Hv).
      eexists _, _. split; [reflexivity|].
      cbn [vecs mem set_mem set_vecs size_ capacity_ data_].
      split; [reflexivity|].
      cbn [size_ capacity_ data_ raw_ptr_].
      split; [|split; [reflexivity|split; [lia|split]]].
      * unfold wf_vec; cbn. repeat split; try lia. exact Hp.
      * unfold elements; cbn [size_]. rewrite take_take.
        replace (Z.to_nat (new_size - sz)) with 0%nat by lia. cbn [replicate].
        rewrite app_nil_r. f_equal. lia.
      * auto.
  - (* beyond the capacity *)
    assert (Hcpn : cp < new_size) by lia. specialize (Hg Hcpn).
    pose proof (grants_bound _ _ Hg) as Hbound.
    pose proof (fresh_block_None (mem s)) as Hfresh.
    step_with (ArrayPtr_sized_ok s new_size ltac:(lia) Hg).
    set (b' := fresh_block (mem s)) in *.
    set (fc := fresh_cell <$> seq 0 (Z.to_nat new_size)).
    assert (Hfc : Z.of_nat (length fc) = new_size) by (apply length_fresh_cells; lia).
    set (s1 := set_mem s _).
    assert (Hb'1 : mem s1 !! b' = Some fc) by (subst s1; cbn; apply lookup_insert_eq).
    destruct p as [|b off].
    + assert (sz = 0) by lia. subst sz cp.
      cbn [Get raw_ptr_ ptr_add]. rewrite !(decide_True (P := 0 = 0)) by reflexivity.
      rewrite bind_ret_l. erewrite bind_Ret by reflexivity. cbn beta.
      do 2 pure_step. unfold FillDefault.
      destruct (std_fill_ok s1 b' fc (0 + 0) (0 + new_size) T_default Hb'1)
        as (s2 & cs2 & Hrun & Hv2 & Hb2 & Hl2 & Hin & Hfr & Hoth); try lia.
      step_with Hrun.
      rewrite (install_ok s2 this _ _ _ _ _ ltac:(rewrite Hv2; exact Hv)).
      cbn [data_]. unfold ArrayPtr_destroy; cbn [raw_ptr_ delete_array].
      eexists _, _. split; [reflexivity|].
      cbn [vecs mem set_mem set_vecs size_ capacity_ data_].
      split; [now rewrite Hv2|].
      cbn [size_ capacity_ data_ raw_ptr_].
      split; [|split; [reflexivity|split; [lia|split]]].
      * unfold wf_vec; cbn. rewrite Hb2. repeat split; lia.
      * unfold elements, buffer; cbn. rewrite Hb2; cbn.
        replace (Z.to_nat new_size)
          with (0 + Z.to_nat (new_size - 0))%nat at 1 by lia.
        rewrite !take_nil.
        apply (take_fill_ext [] cs2 0%nat); [cbn; lia| |].
        -- intros t Ht. lia.
        -- intros t Ht. apply Hin. lia.
      * intros b0 cs0 Hb0 _. rewrite Hoth by congruence.
        subst s1; cbn. rewrite lookup_insert_ne by congruence. exact Hb0.
    + destruct Hp as (-> & Hcp0 & Hb). destruct (mem s !! b) as [cs|] eqn:Hcs; [|done].
      assert (Hbb' : b <> b') by congruence.
      pure_step.
      destruct (std_copy_move_cross s1 b b' cs fc 0 (0 + sz) 0)
        as (s2 & cs2 & cd2 & Hrun2 & Hv2 & Hs2 & Hls2 & Hsf2 & Hd2 & Hld2 & Hcp2 & Hfr2 & Hoth2);
        auto; try lia.
      { subst s1; cbn. now rewrite lookup_insert_ne by congruence. }
      step_with Hrun2. do 2 pure_step. unfold FillDefault.
      destruct (std_fill_ok s2 b' cd2 (0 + sz) (0 + new_size) T_default Hd2)
        as (s3 & cs3 & Hrun3 & Hv3 & Hb3 & Hl3 & Hin & Hfr & Hoth); try lia.
      step_with Hrun3.
      rewrite (install_ok s3 this _ _ _ _ _ ltac:(rewrite Hv3, Hv2; exact Hv)).
      cbn [data_]. unfold ArrayPtr_destroy; cbn [raw_ptr_].
      erewrite delete_array_ok
        by (cbn; rewrite Hoth by congruence; exact Hs2).
      eexists _, _. split; [reflexivity|].
      cbn [vecs mem set_mem set_vecs size_ capacity_ data_].
      split; [now rewrite Hv3, Hv2|].
      cbn [size_ capacity_ data_ raw_ptr_].
      split; [|split; [reflexivity|split; [lia|split]]].
      * unfold wf_vec; cbn. rewrite lookup_delete_ne by congruence.
        rewrite Hb3. repeat split; lia.
      * unfold elements, buffer; cbn. rewrite lookup_delete_ne by congruence.
        rewrite Hb3, Hcs; cbn. rewrite take_take.
        replace (Z.to_nat new_size `min` Z.to_nat sz)%nat with (Z.to_nat sz) by lia.
        replace (Z.to_nat new_size)
          with (Z.to_nat sz + Z.to_nat (new_size - sz))%nat at 1 by lia.
        apply take_fill_ext; [lia| |].
        -- intros t Ht. rewrite Hfr by lia. apply (Hcp2 t). lia.
        -- intros t Ht. apply Hin. lia.
      * intros b0 cs0 Hb0 Hne. assert (b0 <> b) by congruence.
        assert (b0 <> b') by congruence.
        rewrite lookup_delete_ne by congruence. rewrite Hoth by congruence.
        rewrite Hoth2 by congruence.
        subst s1; cbn. rewrite lookup_insert_ne by congruence. exact Hb0.
Qed.

(** ** Reserve *)

Lemma Reserve_ok s this v new_capacity :
  vecs s !! this = Some v -> wf_vec (mem s) v ->
  (capacity_ v < new_capacity -> grants (mem s) new_capacity = true) ->
  exists s' v',
    Reserve this new_capacity s = Ret tt s' /\
    vecs s' = <[this := v']> (vecs s) /\
    wf_vec (mem s') v' /\
    size_ v' = size_ v /\
    capacity_ v' = Z.max (capacity_ v) new_capacity /\
    elements (mem s') v' = elements (mem s) v /\
    (new_capacity <= capacity_ v -> s' = s /\ v' = v) /\
    (forall b cs, mem s !! b = Some cs -> Ptr b 0 <> raw_ptr_ (data_ v) ->
                  mem s' !! b = Some cs).
Proof.
  intros Hv Hwf Hg. pose proof Hwf as (Hsz & Hcp & Hp).
  unfold Reserve. step_with (get_vec_ok s this v Hv).
  destruct (decide (new_capacity <= capacity_ v)) as [Hfit|Hgrow].
  - exists s, v. split; [reflexivity|]. split; [now rewrite insert_id|].
    repeat split; auto; lia.
  - destruct v as [[p] sz cp]; cbn [data_ size_ capacity_ raw_ptr_] in *.
    assert (Hcpn : cp < new_capacity) by lia. specialize (Hg Hcpn).
    pose proof (grants_bound _ _ Hg) as Hbound.
    pose proof (fresh_block_None (mem s)) as Hfresh.
    step_with (ArrayPtr_sized_ok s new_capacity ltac:(lia) Hg).
    set (b' := fresh_block (mem s)) in *.
    set (fc := fresh_cell <$> seq 0 (Z.to_nat new_capacity)).
    assert (Hfc : Z.of_nat (length fc) = new_capacity) by (apply length_fresh_cells; lia).
    set (s1 := set_mem s _).
    assert (Hb'1 : mem s1 !! b' = Some fc) by (subst s1; cbn; apply lookup_insert_eq).
    rewrite Z.min_r by lia.
    destruct p as [|b off].
    + assert (sz = 0) by lia. subst sz cp.
      cbn [Get raw_ptr_ ptr_add]. rewrite !(decide_True (P := 0 = 0)) by reflexivity.
      rewrite bind_ret_l. erewrite bind_Ret by reflexivity. cbn beta.
      erewrite bind_Ret by (apply swap_with_data_ok; exact Hv). cbn beta.
      erewrite bind_Ret by (apply set_capacity_ok; cbn; apply lookup_insert_eq).
      cbn beta. cbn [data_]. unfold ArrayPtr_destroy; cbn [raw_ptr_ delete_array].
      eexists _, _. split; [reflexivity|].
      cbn [vecs mem set_mem set_vecs size_ capacity_ data_].
      split; [now rewrite insert_insert_eq|].
      cbn [size_ capacity_ data_ raw_ptr_].
      split; [|split; [reflexivity|split; [lia|split; [|split]]]].
      * unfold wf_vec; cbn [size_ capacity_ data_ raw_ptr_].
        rewrite Hb'1. repeat split; lia.
      * unfold elements; cbn. now rewrite !take_0.
      * lia.
      * intros b0 cs0 Hb0 _. subst s1; cbn.
        rewrite lookup_insert_ne by congruence. exact Hb0.
    + destruct Hp as (-> & Hcp0 & Hb). destruct (mem s !! b) as [cs|] eqn:Hcs; [|done].
      assert (Hbb' : b <> b') by congruence.
      pure_step.
      destruct (std_copy_move_cross s1 b b' cs fc 0 (0 + sz) 0)
        as (s2 & cs2 & cd2 & Hrun2 & Hv2 & Hs2 & Hls2 & Hsf2 & Hd2 & Hld2 & Hcp2 & Hfr2 & Hoth2);
        auto; try lia.
      { subst s1; cbn. now rewrite lookup_insert_ne by congruence. }
      step_with Hrun2.
      erewrite bind_Ret by (apply swap_with_data_ok; rewrite Hv2; exact Hv). cbn beta.
      erewrite bind_Ret by (apply set_capacity_ok; cbn; apply lookup_insert_eq).
      cbn beta. cbn [data_]. unfold ArrayPtr_destroy; cbn [raw_ptr_].
      erewrite delete_array_ok by (cbn; exact Hs2).
      eexists _, _. split; [reflexivity|].
      cbn [vecs mem set_mem set_vecs size_ capacity_ data_].
      split; [now rewrite insert_insert_eq, Hv2|].
      cbn [size_ capacity_ data_ raw_ptr_].
      split; [|split; [reflexivity|split; [lia|split; [|split]]]].
      * unfold wf_vec; cbn. rewrite lookup_delete_ne by congruence.
        rewrite Hd2. repeat split; lia.
      * unfold elements, buffer; cbn. rewrite lookup_delete_ne by congruence.
        rewrite Hd2, Hcs; cbn. apply take_ext.
        intros t Ht. apply (Hcp2 t). lia.
      * lia.
      * intros b0 cs0 Hb0 Hne. assert (b0 <> b) by congruence.
        assert (b0 <> b') by congruence.
        rewrite lookup_delete_ne by congruence. rewrite Hoth2 by congruence.
        subst s1; cbn. rewrite lookup_insert_ne by congruence. exact Hb0.
Qed.

(** C7: [Reserve(new_capacity)] changes nothing when the capacity already
    suffices; otherwise the capacity becomes [new_capacity] and the size and
    the elements stay as they were. *)
Theorem Reserve_preallocates s this v new_capacity :
  vecs s !! this = Some v -> wf_vec (mem s) v ->
  (capacity_ v < new_capacity -> grants (mem s) new_capacity = true) ->
  (new_capacity <= capacity_ v -> Reserve this new_capacity s = Ret tt s) /\
  (capacity_ v < new_capacity ->
   exists s' v',
     Reserve this new_capacity s = Ret tt s' /\
     vecs s' !! this = Some v' /\
     capacity_ v' = new_capacity /\
     size_ v' = size_ v /\
     elements (mem s') v' = elements (mem s) v).
Proof.
  intros Hv Hwf Hg.
  destruct (Reserve_ok s this v new_capacity Hv Hwf Hg)
    as (s' & v' & Hrun & Hvs & Hwf' & Hsz & Hcp & Hel & Hnoop & _).
  split.
  - intros Hfit. destruct (Hnoop Hfit) as [-> _]. exact Hrun.
  - intros Hgrow. exists s', v'. split; [exact Hrun|].
    split; [rewrite Hvs; apply lookup_insert_eq|].
    split; [lia|]. split; [exact Hsz|exact Hel].
Qed.

(** C5: [Resize(new_size)] below the size keeps exactly the first
    [new_size] elements and the capacity; above the size it keeps every
    element at its index, sets the slots from the old size on to the default
    value, and the size becomes [new_size]. *)
Theorem Resize_truncates_or_fills s this v new_size :
  vecs s !! this = Some v -> wf_vec (mem s) v -> 0 <= new_size ->
  (capacity_ v < new_size -> grants (mem s) new_size = true) ->
  exists s' v',
    Resize this new_size s = Ret tt s' /\
    vecs s' !! this = Some v' /\
    size_ v' = new_size /\
    (new_size < size_ v ->
     elements (mem s') v' = take (Z.to_nat new_size) (elements (mem s) v) /\
     capacity_ v' = capacity_ v) /\
    (size_ v < new_size ->
     elements (mem s') v'
     = elements (mem s) v ++ replicate (Z.to_nat (new_size - size_ v)) T_default /\
     (forall t x, elements (mem s) v !! t = Some x ->
                  elements (mem s') v' !! t = Some x) /\
     (forall t, (Z.to_nat (size_ v) <= t < Z.to_nat new_size)%nat ->
                elements (mem s') v' !! t = Some T_default)).
Proof.
  intros Hv Hwf Hn Hg. pose proof Hwf as (Hsz & Hcp & _).
  pose proof (length_elements _ _ Hwf) as Hlen.
  destruct (Resize_ok s this v new_size Hv Hwf Hn Hg)
    as (s' & v' & Hrun & Hvs & Hwf' & Hsz' & Hcp' & Hel & _).
  exists s', v'. split; [exact Hrun|].
  split; [rewrite Hvs; apply lookup_insert_eq|]. split; [exact Hsz'|]. split.
  - intros Hdown. split; [|lia]. rewrite Hel.
    replace (Z.to_nat (new_size - size_ v)) with 0%nat by lia.
    apply app_nil_r.
  - intros Hup.
    assert (Hall : elements (mem s') v'
                   = elements (mem s) v
                     ++ replicate (Z.to_nat (new_size - size_ v)) T_default).
    { rewrite Hel. f_equal. apply take_ge. lia. }
    split; [exact Hall|]. split.
    + intros t x Hx. rewrite Hall. now apply lookup_app_l_Some.
    + intros t Ht. rewrite Hall. rewrite lookup_app_r by lia.
      apply lookup_replicate_2. lia.
Qed.

(** ** Allocation failure *)

Lemma Recreate_fail s this new_capacity pos item :
  0 < new_capacity -> grants (mem s) new_capacity = false ->
  Recreate this new_capacity pos item s = Throw bad_alloc s.
Proof.
  intros Hn Hg. unfold Recreate.
  now rewrite (bind_Throw _ _ _ _ _ (ArrayPtr_sized_fail s new_capacity Hn Hg)).
Qed.

Lemma grown_pos cap : 0 <= cap <= PTRDIFF_MAX -> 0 < grown cap.
Proof.
  intros Hc. rewrite grown_wf by assumption.
  destruct (decide (cap = 0)); lia.
Qed.

Lemma begin_ok s this v :
  vecs s !! this = Some v -> begin this s = Ret (raw_ptr_ (data_ v)) s.
Proof. intros Hv. unfold begin. now step_with (get_vec_ok s this v Hv). Qed.

Lemma ptr_diff_iterator_at s v k :
  ptr_diff (iterator_at v k) (raw_ptr_ (data_ v)) s
  = Ret (match raw_ptr_ (data_ v) with nullptr => 0 | Ptr _ _ => k end) s.
Proof.
  unfold iterator_at. destruct (raw_ptr_ (data_ v)) as [|b off]; [reflexivity|].
  cbn [ptr_diff]. rewrite decide_True by reflexivity. unfold ret. f_equal. lia.
Qed.

(** C8: when the free store refuses the new block, [PushBack] and [Insert]
    on a full vector, [Resize] and [Reserve] beyond the capacity throw
    [bad_alloc] and the whole state, this vector included, is as before. *)
Theorem reallocation_failure_keeps_state s this v :
  vecs s !! this = Some v -> wf_vec (mem s) v ->
  (forall item,
     size_ v = capacity_ v -> grants (mem s) (grown (capacity_ v)) = false ->
     PushBack this item s = Throw bad_alloc s) /\
  (forall k value,
     size_ v = capacity_ v -> grants (mem s) (grown (capacity_ v)) = false ->
     Insert this (iterator_at v k) value s = Throw bad_alloc s) /\
  (forall new_size,
     capacity_ v < new_size -> grants (mem s) new_size = false ->
     Resize this new_size s = Throw bad_alloc s) /\
  (forall new_capacity,
     capacity_ v < new_capacity -> grants (mem s) new_capacity = false ->
     Reserve this new_capacity s = Throw bad_alloc s).
Proof.
  intros Hv (Hsz & Hcp & Hp).
  pose proof (grown_pos (capacity_ v) ltac:(lia)) as Hpos.
  split; [|split; [|split]].
  - intros item Hfull Hg. unfold PushBack.
    step_with (get_vec_ok s this v Hv). rewrite decide_True by assumption.
    now apply Recreate_fail.
  - intros k value Hfull Hg. unfold Insert, InsertInt.
    step_with (begin_ok s this v Hv).
    step_with (ptr_diff_iterator_at s v k).
    step_with (get_vec_ok s this v Hv). rewrite decide_True by assumption.
    unfold bind at 1. now rewrite Recreate_fail.
  - intros new_size Hgrow Hg. unfold Resize.
    step_with (get_vec_ok s this v Hv). rewrite decide_False by lia.
    now rewrite (bind_Throw _ _ _ _ _ (ArrayPtr_sized_fail s new_size ltac:(lia) Hg)).
  - intros new_capacity Hgrow Hg. unfold Reserve.
    step_with (get_vec_ok s this v Hv). rewrite decide_False by lia.
    now rewrite (bind_Throw _ _ _ _ _ (ArrayPtr_sized_fail s new_capacity ltac:(lia) Hg)).
Qed.

(** ** Insert and Erase inside the capacity *)

Lemma insert_ext (l l' : list T) (k n : nat) x :
  (k <= n <= length l)%nat ->
  (forall t, (t < k)%nat -> l' !! t = l !! t) ->
  l' !! k = Some x ->
  (forall t, (k <= t < n)%nat -> l' !! S t = l !! t) ->
  take (S n) l' = take k (take n l) ++ x :: drop k (take n l).
Proof.
  intros Hk Hlow Hx Hhigh. apply list_eq. intros i.
  assert (Hlt : length (take k (take n l)) = k) by (rewrite !length_take; lia).
  destruct (decide (i < k)%nat); [|destruct (decide (i = k)); [|destruct (decide (i <= n)%nat)]].
  - rewrite lookup_take_lt by lia. rewrite lookup_app_l by lia.
    rewrite !lookup_take_lt by lia. auto.
  - subst i. rewrite lookup_take_lt by lia. rewrite lookup_app_r by lia.
    rewrite Hlt, Nat.sub_diag. exact Hx.
  - rewrite lookup_take_lt by lia. rewrite lookup_app_r by lia. rewrite Hlt.
    destruct i as [|i]; [lia|].
    change (x :: drop k (take n l)) with ([x] ++ drop k (take n l)).
    rewrite lookup_app_r by (cbn; lia). cbn [length].
    rewrite lookup_drop. rewrite lookup_take_lt by lia.
    replace (k + (S i - k - 1))%nat with i by lia. apply Hhigh. lia.
  - rewrite lookup_take_ge by lia. rewrite lookup_app_r by lia. rewrite Hlt.
    change (x :: drop k (take n l)) with ([x] ++ drop k (take n l)).
    rewrite lookup_app_r by (cbn; lia). cbn [length].
    rewrite lookup_drop. symmetry. apply lookup_take_ge. lia.
Qed.

Lemma erase_ext (l l' : list T) (k n : nat) :
  (k < n <= length l)%nat ->
  (forall t, (t < k)%nat -> l' !! t = l !! t) ->
  (forall t, (k <= t < n - 1)%nat -> l' !! t = l !! S t) ->
  take (n - 1) l' = take k (take n l) ++ drop (S k) (take n l).
Proof.
  intros Hk Hlow Hhigh. apply list_eq. intros i.
  assert (Hlt : length (take k (take n l)) = k) by (rewrite !length_take; lia).
  destruct (decide (i < k)%nat); [|destruct (decide (i < n - 1)%nat)].
  - rewrite lookup_take_lt by lia. rewrite lookup_app_l by lia.
    rewrite !lookup_take_lt by lia. auto.
  - rewrite lookup_take_lt by lia. rewrite lookup_app_r by lia. rewrite Hlt.
    rewrite lookup_drop. rewrite lookup_take_lt by lia.
    replace (S k + (i - k))%nat with (S i) by lia. apply Hhigh. lia.
  - rewrite lookup_take_ge by lia. rewrite lookup_app_r by lia. rewrite Hlt.
    rewrite lookup_drop. symmetry. apply lookup_take_ge. lia.
Qed.

Lemma std_copy_backward_move_right s b cs (i k : Z) :
  mem s !! b = Some cs -> 0 <= i <= k -> k + 1 <= Z.of_nat (length cs) ->
  exists s' cs',
    std_copy_backward_move (Ptr b i) (Ptr b k) (Ptr b (k + 1)) s = Ret tt s' /\
    vecs s' = vecs s /\
    mem s' !! b = Some cs' /\ length cs' = length cs /\
    (forall t, (Z.to_nat i <= t < Z.to_nat k)%nat -> cs' !! S t = cs !! t) /\
    (forall t, (t < Z.to_nat i \/ Z.to_nat k < t)%nat -> cs' !! t = cs !! t) /\
    (forall b', b' <> b -> mem s' !! b' = mem s !! b').
Proof.
  intros Hb Hi Hk. unfold std_copy_backward_move.
  rewrite (bind_Ret _ _ _ _ _ (range_length_ok s b i k ltac:(lia))). cbn beta.
  destruct (move_backward_loop_right (Z.to_nat (k - i)) s b cs (Z.to_nat i) Hb)
    as (s' & cs' & Hrun & Hv & Hb' & Hl & Hsh & Hfr & Hoth); [lia|].
  replace (Z.of_nat (Z.to_nat i + Z.to_nat (k - i))) with k in Hrun by lia.
  replace (Z.of_nat (Z.to_nat i + Z.to_nat (k - i) + 1)) with (k + 1) in Hrun by lia.
  exists s', cs'. repeat split; auto.
  - intros t Ht. apply Hsh. lia.
  - intros t Ht. apply Hfr. lia.
Qed.

Lemma std_copy_move_left s b cs (i k : Z) :
  mem s !! b = Some cs -> 0 <= i -> i + 1 <= k -> k <= Z.of_nat (length cs) ->
  exists s' cs',
    std_copy_move (Ptr b (i + 1)) (Ptr b k) (Ptr b i) s = Ret tt s' /\
    vecs s' = vecs s /\
    mem s' !! b = Some cs' /\ length cs' = length cs /\
    (forall t, (Z.to_nat i <= t < Z.to_nat k - 1)%nat -> cs' !! t = cs !! S t) /\
    (forall t, (t < Z.to_nat i)%nat -> cs' !! t = cs !! t) /\
    (forall b', b' <> b -> mem s' !! b' = mem s !! b').
Proof.
  intros Hb Hi Hik Hk. unfold std_copy_move.
  rewrite (bind_Ret _ _ _ _ _ (range_length_ok s b (i + 1) k ltac:(lia))). cbn beta.
  destruct (move_loop_left (Z.to_nat (k - (i + 1))) s b cs (Z.to_nat i) Hb)
    as (s' & cs' & Hrun & Hv & Hb' & Hl & Hsh & Hfr & Hoth); [lia|].
  replace (Z.of_nat (S (Z.to_nat i))) with (i + 1) in Hrun by lia.
  replace (Z.of_nat (Z.to_nat i)) with i in Hrun by lia.
  exists s', cs'. repeat split; auto.
  intros t Ht. apply Hsh. lia.
Qed.

Lemma InsertInt_ok s this v k value :
  vecs s !! this = Some v -> wf_vec (mem s) v ->
  0 <= k <= size_ v -> size_ v < capacity_ v ->
  exists s' v',
    InsertInt this (iterator_at v k) value s = Ret (iterator_at v k) s' /\
    vecs s' = <[this := v']> (vecs s) /\
    wf_vec (mem s') v' /\
    data_ v' = data_ v /\
    size_ v' = size_ v + 1 /\
    capacity_ v' = capacity_ v /\
    elements (mem s') v'
    = take (Z.to_nat k) (elements (mem s) v)
      ++ value :: drop (Z.to_nat k) (elements (mem s) v) /\
    (forall b cs, mem s !! b = Some cs -> Ptr b 0 <> raw_ptr_ (data_ v) ->
                  mem s' !! b = Some cs).
Proof.
  intros Hv Hwf Hk Hroom. pose proof Hwf as (Hsz & Hcp & Hp).
  unfold InsertInt.
  step_with (begin_ok s this v Hv).
  step_with (ptr_diff_iterator_at s v k).
  step_with (get_vec_ok s this v Hv).
  rewrite decide_False by lia. unfold iterator_at.
  destruct v as [[p] sz cp]; cbn [data_ size_ capacity_ raw_ptr_] in *.
  destruct p as [|b off]; [lia|].
  destruct Hp as (-> & Hcp0 & Hb). destruct (mem s !! b) as [cs|] eqn:Hcs; [|done].
  rewrite !to_size_t_small by (unfold SIZE_MAX, PTRDIFF_MAX in *; lia).
  unfold bind at 1. do 4 pure_step.
  destruct (std_copy_backward_move_right s b cs (0 + k) (0 + sz) Hcs)
    as (s1 & cs1 & Hrun1 & Hv1 & Hb1 & Hl1 & Hsh & Hfr & Hoth); try lia.
  step_with Hrun1. pure_step.
  assert (Hst : store (Ptr b (0 + k)) value s1
                = Ret tt (set_mem s1 (<[b := <[Z.to_nat k := value]> cs1]> (mem s1)))).
  { replace (0 + k) with (Z.of_nat (Z.to_nat k)) by lia.
    apply store_ok; auto. lia. }
  step_with Hst.
  erewrite set_size_ok by (cbn; rewrite Hv1; exact Hv).
  cbn beta iota. cbn [data_ size_ capacity_].
  erewrite bind_Ret by (apply begin_ok; cbn; apply lookup_insert_eq).
  cbn [ptr_add raw_ptr_ data_]. unfold ret.
  eexists _, _. split; [reflexivity|].
  cbn [vecs mem set_mem set_vecs].
  split; [now rewrite Hv1|].
  cbn [size_ capacity_ data_ raw_ptr_].
  split; [|split; [reflexivity|split; [reflexivity|split; [reflexivity|split]]]].
  - unfold wf_vec; cbn [size_ capacity_ data_ raw_ptr_].
    rewrite lookup_insert_eq, length_insert. repeat split; lia.
  - unfold elements, buffer; cbn [size_ capacity_ data_ raw_ptr_].
    rewrite lookup_insert_eq, Hcs; cbn [from_option id].
    replace (Z.to_nat (sz + 1)) with (S (Z.to_nat sz)) by lia.
    apply insert_ext; [lia| | |].
    + intros t Ht. rewrite list_lookup_insert_ne by lia. apply Hfr. lia.
    + apply list_lookup_insert_eq. lia.
    + intros t Ht. rewrite list_lookup_insert_ne by lia. apply Hsh. lia.
  - intros b0 cs0 Hb0 Hne. rewrite lookup_insert_ne by congruence.
    rewrite Hoth by congruence. exact Hb0.
Qed.

Lemma Erase_ok s this v k :
  vecs s !! this = Some v -> wf_vec (mem s) v ->
  0 <= k < size_ v ->
  exists s' v',
    Erase this (iterator_at v k) s = Ret (iterator_at v k) s' /\
    vecs s' = <[this := v']> (vecs s) /\
    wf_vec (mem s') v' /\
    data_ v' = data_ v /\
    size_ v' = size_ v - 1 /\
    capacity_ v' = capacity_ v /\
    elements (mem s') v'
    = take (Z.to_nat k) (elements (mem s) v)
      ++ drop (S (Z.to_nat k)) (elements (mem s) v) /\
    (forall b cs, mem s !! b = Some cs -> Ptr b 0 <> raw_ptr_ (data_ v) ->
                  mem s' !! b = Some cs).
Proof.
  intros Hv Hwf Hk. pose proof Hwf as (Hsz & Hcp & Hp).
  unfold Erase.
  step_with (begin_ok s this v Hv).
  step_with (ptr_diff_iterator_at s v k).
  step_with (get_vec_ok s this v Hv).
  unfold iterator_at.
  destruct v as [[p] sz cp]; cbn [data_ size_ capacity_ raw_ptr_] in *.
  destruct p as [|b off]; [lia|].
  destruct Hp as (-> & Hcp0 & Hb). destruct (mem s !! b) as [cs|] eqn:Hcs; [|done].
  rewrite !to_size_t_small by (unfold SIZE_MAX, PTRDIFF_MAX in *; lia).
  do 4 pure_step.
  destruct (std_copy_move_left s b cs (0 + k) (0 + sz) Hcs)
    as (s1 & cs1 & Hrun1 & Hv1 & Hb1 & Hl1 & Hsh & Hfr & Hoth); try lia.
  step_with Hrun1.
  rewrite (bind_Ret _ _ _ _ _ (set_size_ok _ this _ (sz - 1) ltac:(rewrite Hv1; exact Hv))).
  cbn [data_ size_ capacity_].
  erewrite bind_Ret by (apply begin_ok; cbn; apply lookup_insert_eq).
  cbn [ptr_add raw_ptr_ data_]. unfold ret.
  eexists _, _. split; [reflexivity|].
  cbn [vecs mem set_mem set_vecs].
  split; [now rewrite Hv1|].
  cbn [size_ capacity_ data_ raw_ptr_].
  split; [|split; [reflexivity|split; [reflexivity|split; [reflexivity|split]]]].
  - unfold wf_vec; cbn [size_ capacity_ data_ raw_ptr_].
    rewrite Hb1. repeat split; lia.
  - unfold elements, buffer; cbn [size_ capacity_ data_ raw_ptr_].
    rewrite Hb1, Hcs; cbn [from_option id].
    replace (Z.to_nat (sz - 1)) with (Z.to_nat sz - 1)%nat by lia.
    apply erase_ext; [lia| |].
    + intros t Ht. apply Hfr. lia.
    + intros t Ht. apply Hsh. lia.
  - intros b0 cs0 Hb0 Hne. rewrite Hoth by congruence. exact Hb0.
Qed.

(** C6: on a vector with room left, [Insert(begin(), value)] followed by
    [Erase(begin())] gives back the elements, the size and the capacity. *)
Theorem Insert_Erase_front_roundtrip s this v value :
  vecs s !! this = Some v -> wf_vec (mem s) v ->
  size_ v < capacity_ v ->
  exists s' v',
    insert_erase_front this value s = Ret tt s' /\
    vecs s' !! this = Some v' /\
    elements (mem s') v' = elements (mem s) v /\
    size_ v' = size_ v /\
    capacity_ v' = capacity_ v.
Proof.
  intros Hv Hwf Hroom. pose proof Hwf as (Hsz & Hcp & Hp).
  destruct (InsertInt_ok s this v 0 value Hv Hwf ltac:(lia) Hroom)
    as (s1 & v1 & Hrun1 & Hvs1 & Hwf1 & Hd1 & Hsz1 & Hcp1 & Hel1 & _).
  assert (Hv1 : vecs s1 !! this = Some v1) by (rewrite Hvs1; apply lookup_insert_eq).
  destruct (Erase_ok s1 this v1 0 Hv1 Hwf1 ltac:(lia))
    as (s2 & v2 & Hrun2 & Hvs2 & Hwf2 & Hd2 & Hsz2 & Hcp2 & Hel2 & _).
  assert (Hit0 : iterator_at v 0 = raw_ptr_ (data_ v)).
  { unfold iterator_at. destruct (raw_ptr_ (data_ v)) as [|b off]; [reflexivity|].
    destruct Hp as (-> & _). reflexivity. }
  assert (Hit1 : iterator_at v1 0 = raw_ptr_ (data_ v1)).
  { unfold iterator_at. rewrite Hd1. exact Hit0. }
  rewrite Hit0 in Hrun1. rewrite Hit1 in Hrun2.
  exists s2, v2. split; [|split; [|split; [|split]]].
  - unfold insert_erase_front, Insert.
    step_with (begin_ok s this v Hv). step_with Hrun1.
    step_with (begin_ok s1 this v1 Hv1). now step_with Hrun2.
  - rewrite Hvs2. apply lookup_insert_eq.
  - rewrite Hel2, Hel1. cbn [Z.to_nat take drop app]. reflexivity.
  - lia.
  - lia.
Qed.

(** ** Copy construction *)

Lemma std_copy_cross s bs bd cs cd (i k j : Z) :
  bs <> bd ->
  mem s !! bs = Some cs -> mem s !! bd = Some cd ->
  0 <= i <= k -> k <= Z.of_nat (length cs) ->
  0 <= j -> j + (k - i) <= Z.of_nat (length cd) ->
  exists s' cd',
    std_copy (Ptr bs i) (Ptr bs k) (Ptr bd j) s = Ret tt s' /\
    vecs s' = vecs s /\
    mem s' !! bd = Some cd' /\ length cd' = length cd /\
    (forall t, (t < Z.to_nat (k - i))%nat ->
               cd' !! (Z.to_nat j + t)%nat = cs !! (Z.to_nat i + t)%nat) /\
    (forall b, b <> bd -> mem s' !! b = mem s !! b).
Proof.
  intros Hne Hs Hd Hi Hk Hj Hjk.
  unfold std_copy.
  rewrite (bind_Ret _ _ _ _ _ (range_length_ok s bs i k ltac:(lia))). cbn beta.
  replace (Ptr bs i) with (Ptr bs (Z.of_nat (Z.to_nat i))) by (f_equal; lia).
  replace (Ptr bd j) with (Ptr bd (Z.of_nat (Z.to_nat j))) by (f_equal; lia).
  destruct (copy_loop_cross (Z.to_nat (k - i)) s bs bd cs cd (Z.to_nat i) (Z.to_nat j))
    as (s' & cd' & Hrun & Hv & Hd' & Hld & Hcp & _ & Hoth); auto; try lia.
  exists s', cd'. repeat split; auto.
Qed.

Lemma end_ok s this v :
  vecs s !! this = Some v ->
  end_ this s = ptr_add (raw_ptr_ (data_ v)) (size_ v) s.
Proof. intros Hv. unfold end_. now step_with (get_vec_ok s this v Hv). Qed.

Lemma std_copy_nothing s b off d :
  std_copy (Ptr b off) (Ptr b (off + 0)) d s = Ret tt s.
Proof.
  unfold std_copy.
  rewrite (bind_Ret _ _ _ _ _ (range_length_ok s b off (off + 0) ltac:(lia))).
  cbn beta. now replace (Z.to_nat (off + 0 - off)) with 0%nat by lia.
Qed.

Lemma constructor_ok s this (body : M unit) s' :
  body (set_vecs s (<[this := MkSimpleVector ArrayPtr_default 0 0]> (vecs s))) = Ret tt s' ->
  constructor this body s = Ret tt s'.
Proof.
  intros Hbody. unfold constructor, init_members.
  erewrite bind_Ret by reflexivity. now rewrite Hbody.
Qed.

Lemma SimpleVector_copy_ok s this other o :
  vecs s !! this = None -> vecs s !! other = Some o -> wf_vec (mem s) o ->
  (0 < size_ o -> grants (mem s) (size_ o) = true) ->
  exists s' v',
    SimpleVector_copy this other s = Ret tt s' /\
    vecs s' = <[this := v']> (vecs s) /\
    wf_vec (mem s') v' /\
    size_ v' = size_ o /\
    capacity_ v' = size_ o /\
    elements (mem s') v' = elements (mem s) o /\
    (forall b, raw_ptr_ (data_ v') = Ptr b 0 -> mem s !! b = None) /\
    (forall b cs, mem s !! b = Some cs -> mem s' !! b = Some cs).
Proof.
  intros Hthis Ho Hwf Hg. pose proof Hwf as (Hsz & Hcp & Hp).
  assert (Hne : this <> other) by congruence.
  set (s0 := set_vecs s (<[this := MkSimpleVector ArrayPtr_default 0 0]> (vecs s))).
  assert (Ho0 : vecs s0 !! other = Some o).
  { subst s0; cbn. now rewrite lookup_insert_ne. }
  assert (Hthis0 : vecs s0 !! this = Some (MkSimpleVector ArrayPtr_default 0 0)).
  { subst s0; cbn. apply lookup_insert_eq. }
  assert (Hins : forall v', <[this := v']> (vecs s0) = <[this := v']> (vecs s)).
  { intros v'. subst s0; cbn. apply insert_insert_eq. }
  unfold SimpleVector_copy.
  destruct (decide (size_ o = 0)) as [Hempty|Hnonempty].
  - (* nothing to copy: no block is requested *)
    exists (set_vecs s0 (<[this := MkSimpleVector (MkArrayPtr nullptr) 0 0]> (vecs s0))),
           (MkSimpleVector (MkArrayPtr nullptr) 0 0).
    split.
    { apply constructor_ok. fold s0.
      step_with (get_vec_ok s0 other o Ho0). unfold Construct.
      rewrite Hempty.
      step_with (ArrayPtr_sized_zero s0 0 ltac:(lia)).
      step_with (begin_ok s0 other o Ho0).
      unfold bind at 1. rewrite (end_ok s0 other o Ho0), Hempty.
      destruct (raw_ptr_ (data_ o)) as [|b off].
      - cbn [ptr_add]. rewrite decide_True by reflexivity. cbn [ret].
        erewrite bind_Ret by reflexivity. cbn beta.
        rewrite (install_ok s0 this _ _ _ _ _ Hthis0). reflexivity.
      - cbn [ptr_add ret]. step_with (std_copy_nothing s0 b off (Get (MkArrayPtr nullptr))).
        rewrite (install_ok s0 this _ _ _ _ _ Hthis0). reflexivity. }
    cbn [vecs mem set_vecs size_ capacity_ data_ raw_ptr_].
    split; [apply Hins|].
    split; [unfold wf_vec; cbn; unfold PTRDIFF_MAX; lia|].
    split; [lia|]. split; [lia|]. split; [|split].
    + unfold elements; cbn. rewrite Hempty. cbn. now rewrite take_0.
    + intros b Hb. discriminate.
    + subst s0; cbn. auto.
  - assert (Hpos : 0 < size_ o) by lia. specialize (Hg Hpos).
    pose proof (grants_bound _ _ Hg) as Hbound.
    pose proof (fresh_block_None (mem s)) as Hfresh.
    destruct o as [[p] sz cp]; cbn [data_ size_ capacity_ raw_ptr_] in *.
    destruct p as [|b off]; [lia|].
    destruct Hp as (-> & Hcp0 & Hb). destruct (mem s !! b) as [cs|] eqn:Hcs; [|done].
    set (b' := fresh_block (mem s)) in *.
    set (fc := fresh_cell <$> seq 0 (Z.to_nat sz)).
    assert (Hfc : Z.of_nat (length fc) = sz) by (apply length_fresh_cells; lia).
    assert (Hbb' : b <> b') by congruence.
    set (s1 := set_mem s0 (<[b' := fc]> (mem s0))).
    destruct (std_copy_cross s1 b b' cs fc 0 (0 + sz) 0)
      as (s2 & cd2 & Hrun2 & Hv2 & Hd2 & Hld2 & Hcp2 & Hoth2); auto; try lia.
    { subst s1 s0; cbn. now rewrite lookup_insert_ne by congruence. }
    { subst s1 s0; cbn. now rewrite lookup_insert_eq. }
    exists (set_vecs s2 (<[this := MkSimpleVector (MkArrayPtr (Ptr b' 0)) sz sz]> (vecs s2))),
           (MkSimpleVector (MkArrayPtr (Ptr b' 0)) sz sz).
    split.
    { apply constructor_ok. fold s0.
      step_with (get_vec_ok s0 other _ Ho0). unfold Construct. cbn [size_].
      step_with (ArrayPtr_sized_ok s0 sz Hpos Hg).
      change (fresh_block (mem s0)) with b'. fold fc s1.
      erewrite bind_Ret by (apply begin_ok; exact Ho0). cbn beta.
      unfold bind at 1. rewrite (end_ok s1 other _ Ho0).
      cbn [ptr_add ret raw_ptr_ data_ size_ Get]. step_with Hrun2.
      rewrite (install_ok s2 this _ _ _ _ _ ltac:(rewrite Hv2; exact Hthis0)).
      reflexivity. }
    cbn [vecs mem set_vecs size_ capacity_ data_ raw_ptr_].
    split; [rewrite Hv2; apply Hins|].
    split; [|split; [reflexivity|split; [reflexivity|split; [|split]]]].
    + unfold wf_vec; cbn [size_ capacity_ data_ raw_ptr_]. rewrite Hd2.
      repeat split; lia.
    + unfold elements, buffer; cbn [size_ capacity_ data_ raw_ptr_].
      rewrite Hd2, Hcs; cbn [from_option id]. apply take_ext.
      intros t Ht. apply (Hcp2 t). lia.
    + intros b0 Hb0. replace b0 with b' by congruence. exact Hfresh.
    + intros b0 cs0 Hb0. rewrite Hoth2 by congruence.
      subst s1 s0; cbn. rewrite lookup_insert_ne by congruence. exact Hb0.
Qed.

(** ** What an operation on one vector leaves alone *)

Lemma elements_same_block m m' v :
  (forall b off, raw_ptr_ (data_ v) = Ptr b off -> m' !! b = m !! b) ->
  elements m' v = elements m v.
Proof.
  intros Hsame. unfold elements, buffer.
  destruct (raw_ptr_ (data_ v)) as [|b off]; [reflexivity|].
  now rewrite (Hsame b off eq_refl).
Qed.

Lemma wf_vec_same_block m m' v :
  (forall b off, raw_ptr_ (data_ v) = Ptr b off -> m' !! b = m !! b) ->
  wf_vec m v -> wf_vec m' v.
Proof.
  intros Hsame (Hsz & Hcp & Hp). unfold wf_vec. repeat split; try lia.
  destruct (raw_ptr_ (data_ v)) as [|b off]; [exact Hp|].
  now rewrite (Hsame b off eq_refl).
Qed.

Lemma PushBack_outcome s this v item s' :
  vecs s !! this = Some v -> wf_vec (mem s) v ->
  final_state (PushBack this item s) = Some s' ->
  exists v',
    vecs s' = <[this := v']> (vecs s) /\
    wf_vec (mem s') v' /\
    (forall b cs, mem s !! b = Some cs -> Ptr b 0 <> raw_ptr_ (data_ v) ->
                  mem s' !! b = Some cs) /\
    (raw_ptr_ (data_ v') = raw_ptr_ (data_ v) \/
     exists b', raw_ptr_ (data_ v') = Ptr b' 0 /\ mem s !! b' = None).
Proof.
  intros Hv Hwf Hfin.
  assert (Hok : (size_ v = capacity_ v -> grants (mem s) (grown (capacity_ v)) = true) ->
                exists v',
                  vecs s' = <[this := v']> (vecs s) /\
                  wf_vec (mem s') v' /\
                  (forall b cs, mem s !! b = Some cs -> Ptr b 0 <> raw_ptr_ (data_ v) ->
                                mem s' !! b = Some cs) /\
                  (raw_ptr_ (data_ v') = raw_ptr_ (data_ v) \/
                   exists b', raw_ptr_ (data_ v') = Ptr b' 0 /\ mem s !! b' = None)).
  { intros Hg.
    destruct (PushBack_ok s this v item Hv Hwf Hg)
      as (s1 & v1 & Hrun & Hvs & Hwf1 & _ & _ & _ & Hfr & Hblk).
    rewrite Hrun in Hfin. cbn in Hfin. injection Hfin as <-. exists v1. auto. }
  destruct (decide (size_ v = capacity_ v)) as [Hfull|Hroom];
    [|apply Hok; intros; contradiction].
  destruct (grants (mem s) (grown (capacity_ v))) eqn:Hg; [apply Hok; auto|].
  assert (Hthrow : PushBack this item s = Throw bad_alloc s).
  { destruct Hwf as (Hsz & Hcp & _). unfold PushBack.
    step_with (get_vec_ok s this v Hv). rewrite decide_True by assumption.
    apply Recreate_fail; [|exact Hg]. apply grown_pos. lia. }
  rewrite Hthrow in Hfin. cbn in Hfin. injection Hfin as <-.
  exists v. split; [now rewrite insert_id|]. auto.
Qed.

Lemma store_frame p x s s' :
  final_state (store p x s) = Some s' ->
  vecs s' = vecs s /\
  (forall b, (forall off, p <> Ptr b off) -> mem s' !! b = mem s !! b) /\
  (forall b, length <$> mem s' !! b = length <$> mem s !! b).
Proof.
  unfold store. destruct p as [|b off]; [discriminate|].
  destruct (mem s !! b) as [cs|] eqn:Hcs; [|discriminate].
  destruct (decide (0 <= off < Z.of_nat (length cs))); [|discriminate].
  cbn. intros [= <-]. split; [reflexivity|]. split.
  - intros b0 Hb0. cbn. apply lookup_insert_ne. intros ->. now apply (Hb0 off).
  - intros b0. cbn. destruct (decide (b0 = b)) as [->|Hne].
    + rewrite lookup_insert_eq, Hcs. cbn. now rewrite length_insert.
    + now rewrite lookup_insert_ne by congruence.
Qed.

Lemma wf_vec_same_lengths m m' v :
  (forall b, length <$> m' !! b = length <$> m !! b) ->
  wf_vec m v -> wf_vec m' v.
Proof.
  intros Hlen (Hsz & Hcp & Hp). unfold wf_vec. repeat split; try lia.
  destruct (raw_ptr_ (data_ v)) as [|b off]; [exact Hp|].
  destruct Hp as (Ho & Hpos & Hb). repeat split; auto.
  specialize (Hlen b). destruct (m !! b) as [cs|]; [|done].
  destruct (m' !! b) as [cs'|]; [|discriminate]. cbn in Hlen. congruence.
Qed.

Lemma write_index_frame s this v index x s' :
  vecs s !! this = Some v ->
  final_state (write_index this index x s) = Some s' ->
  vecs s' = vecs s /\
  (forall b, (forall off, raw_ptr_ (data_ v) <> Ptr b off) -> mem s' !! b = mem s !! b) /\
  (forall b, length <$> mem s' !! b = length <$> mem s !! b).
Proof.
  intros Hv. unfold write_index, bind.
  rewrite (operator_index_ok s this v index Hv).
  unfold ptr_add. destruct (raw_ptr_ (data_ v)) as [|b off].
  - destruct (decide (index = 0)); cbn; discriminate.
  - cbn [ret]. intros Hfin. apply store_frame in Hfin as (Hvs & Hfr & Hlen).
    split; [exact Hvs|]. split; [|exact Hlen]. intros b0 Hb0. apply Hfr.
    intros off' [= -> _]. now apply (Hb0 off).
Qed.

(** ** Equality *)

Lemma GetSize_ok s this v :
  vecs s !! this = Some v -> GetSize this s = Ret (size_ v) s.
Proof. intros Hv. unfold GetSize. now step_with (get_vec_ok s this v Hv). Qed.

Lemma operator_eq_true s lhs rhs v w :
  vecs s !! lhs = Some v -> vecs s !! rhs = Some w ->
  wf_vec (mem s) v -> wf_vec (mem s) w ->
  elements (mem s) v = elements (mem s) w ->
  operator_eq lhs rhs s = Ret true s.
Proof.
  intros Hv Hw Hwfv Hwfw Hel.
  pose proof (length_elements _ _ Hwfv) as Hlv.
  pose proof (length_elements _ _ Hwfw) as Hlw.
  destruct Hwfv as (Hsv & Hcv & Hpv), Hwfw as (Hsw & Hcw & Hpw).
  assert (Hsize : size_ v = size_ w) by (rewrite Hel in Hlv; lia).
  unfold operator_eq.
  step_with (GetSize_ok s lhs v Hv). step_with (GetSize_ok s rhs w Hw).
  rewrite decide_True by assumption.
  step_with (begin_ok s lhs v Hv).
  unfold bind at 1. rewrite (end_ok s lhs v Hv).
  destruct v as [[p] sz cp], w as [[q] sz' cp']; cbn [data_ size_ capacity_ raw_ptr_] in *.
  subst sz'.
  destruct p as [|b off].
  - assert (sz = 0) by lia. subst sz.
    cbn [ptr_add]. rewrite decide_True by reflexivity. cbn [ret].
    now step_with (begin_ok s rhs _ Hw).
  - destruct Hpv as (-> & Hcp0 & Hb). destruct (mem s !! b) as [cs|] eqn:Hcs; [|done].
    cbn [ptr_add ret]. step_with (begin_ok s rhs _ Hw). cbn [data_ raw_ptr_].
    unfold std_equal.
    rewrite (bind_Ret _ _ _ _ _ (range_length_ok s b 0 (0 + sz) ltac:(lia))). cbn beta.
    replace (Z.to_nat (0 + sz - 0)) with (Z.to_nat sz) by lia.
    destruct (decide (sz = 0)) as [->|Hnz]; [reflexivity|].
    destruct q as [|b2 off2]; [lia|].
    destruct Hpw as (-> & Hcp0' & Hb2). destruct (mem s !! b2) as [cs2|] eqn:Hcs2; [|done].
    apply (equal_loop_true (Z.to_nat sz) s b b2 cs cs2 0 0 Hcs Hcs2); [lia|].
    intros t Ht. cbn [Nat.add].
    unfold elements, buffer in Hel; cbn [data_ size_ raw_ptr_] in Hel.
    rewrite Hcs, Hcs2 in Hel; cbn [from_option id] in Hel.
    rewrite <- (lookup_take_lt cs2 (Z.to_nat sz) t Ht).
    rewrite <- (lookup_take_lt cs (Z.to_nat sz) t Ht). now rewrite Hel.
Qed.

Lemma mutate_keeps_other s this v other o c s' :
  this <> other ->
  vecs s !! this = Some v -> wf_vec (mem s) v -> vecs s !! other = Some o ->
  (forall b off, raw_ptr_ (data_ o) = Ptr b off ->
                 is_Some (mem s !! b) /\ Ptr b 0 <> raw_ptr_ (data_ v)) ->
  final_state (mutate this c s) = Some s' ->
  exists v',
    vecs s' !! this = Some v' /\ wf_vec (mem s') v' /\
    vecs s' !! other = Some o /\
    (forall b off, raw_ptr_ (data_ o) = Ptr b off ->
                   mem s' !! b = mem s !! b /\ Ptr b 0 <> raw_ptr_ (data_ v')).
Proof.
  intros Hne Hv Hwf Ho Hsep Hfin. destruct c as [item | index x]; cbn [mutate] in Hfin.
  - destruct (PushBack_outcome s this v item s' Hv Hwf Hfin)
      as (v' & Hvs & Hwf' & Hfr & Hblk).
    exists v'. split; [rewrite Hvs; apply lookup_insert_eq|]. split; [exact Hwf'|].
    split; [rewrite Hvs, lookup_insert_ne; auto|].
    intros b off Hb. destruct (Hsep b off Hb) as [[cs Hcs] Hdiff]. split.
    + rewrite Hcs. now apply Hfr.
    + destruct Hblk as [Heq | (b' & Heq & Hfresh)]; rewrite Heq; [exact Hdiff|].
      intros [= ->]. congruence.
  - destruct (write_index_frame s this v index x s' Hv Hfin) as (Hvs & Hfr & Hlen).
    exists v. split; [now rewrite Hvs|].
    split; [now apply (wf_vec_same_lengths (mem s))|]. split; [now rewrite Hvs|].
    intros b off Hb. destruct (Hsep b off Hb) as [_ Hdiff]. split; [|exact Hdiff].
    apply Hfr. intros off' Heq.
    destruct Hwf as (_ & _ & Hp). rewrite Heq in Hp. destruct Hp as (-> & _).
    congruence.
Qed.

Lemma mutate_all_keeps_other cs : forall s this v other o s',
  this <> other ->
  vecs s !! this = Some v -> wf_vec (mem s) v -> vecs s !! other = Some o ->
  (forall b off, raw_ptr_ (data_ o) = Ptr b off ->
                 is_Some (mem s !! b) /\ Ptr b 0 <> raw_ptr_ (data_ v)) ->
  final_state (mutate_all this cs s) = Some s' ->
  vecs s' !! other = Some o /\
  (forall b off, raw_ptr_ (data_ o) = Ptr b off -> mem s' !! b = mem s !! b).
Proof.
  induction cs as [|c cs IH]; intros s this v other o s' Hne Hv Hwf Ho Hsep Hfin.
  - cbn in Hfin. injection Hfin as <-. auto.
  - cbn [mutate_all] in Hfin. unfold bind in Hfin.
    destruct (mutate this c s) as [[] s1 | e s1 |] eqn:Hstep; [| |discriminate].
    + destruct (mutate_keeps_other s this v other o c s1 Hne Hv Hwf Ho Hsep)
        as (v1 & Hv1 & Hwf1 & Ho1 & Hsep1); [now rewrite Hstep|].
      destruct (IH s1 this v1 other o s' Hne Hv1 Hwf1 Ho1) as [Ho' Hmem]; auto.
      { intros b off Hb. destruct (Hsep1 b off Hb) as [Hsame Hdiff].
        destruct (Hsep b off Hb) as [Hlive _]. rewrite Hsame. auto. }
      split; [exact Ho'|]. intros b off Hb. rewrite (Hmem b off Hb).
      now apply (Hsep1 b off).
    + destruct (mutate_keeps_other s this v other o c s1 Hne Hv Hwf Ho Hsep)
        as (v1 & Hv1 & Hwf1 & Ho1 & Hsep1); [now rewrite Hstep|].
      cbn in Hfin. injection Hfin as <-. split; [exact Ho1|].
      intros b off Hb. now apply (Hsep1 b off).
Qed.

(** C2 (as the code has it): a copy-constructed vector compares equal to
    its source and holds the same elements; its capacity is the size of the
    source; the source is untouched by the copy and by any later sequence
    of [PushBack]s and writes through [operator[]] on the copy, however that
    sequence ends. *)
Theorem copy_construct_independent s this other o :
  vecs s !! this = None -> vecs s !! other = Some o -> wf_vec (mem s) o ->
  (0 < size_ o -> grants (mem s) (size_ o) = true) ->
  exists s' v',
    SimpleVector_copy this other s = Ret tt s' /\
    vecs s' !! this = Some v' /\
    vecs s' !! other = Some o /\
    operator_eq this other s' = Ret true s' /\
    elements (mem s') v' = elements (mem s') o /\
    elements (mem s') o = elements (mem s) o /\
    size_ v' = size_ o /\
    capacity_ v' = size_ o /\
    (forall cs s'',
       final_state (mutate_all this cs s') = Some s'' ->
       vecs s'' !! other = Some o /\ elements (mem s'') o = elements (mem s) o).
Proof.
  intros Hthis Ho Hwf Hg.
  assert (Hne : this <> other) by congruence.
  destruct (SimpleVector_copy_ok s this other o Hthis Ho Hwf Hg)
    as (s' & v' & Hrun & Hvs & Hwf' & Hsz & Hcp & Hel & Hfresh & Hkeep).
  assert (Hv' : vecs s' !! this = Some v') by (rewrite Hvs; apply lookup_insert_eq).
  assert (Ho' : vecs s' !! other = Some o) by (rewrite Hvs, lookup_insert_ne; auto).
  (* the source's block is live before the copy and is kept by it *)
  assert (Hblock : forall b off, raw_ptr_ (data_ o) = Ptr b off ->
                     exists cs, mem s !! b = Some cs /\ mem s' !! b = Some cs).
  { intros b off Hb. destruct Hwf as (_ & _ & Hp). rewrite Hb in Hp.
    destruct Hp as (_ & _ & Hlive). destruct (mem s !! b) as [cs|] eqn:Hcs; [|done].
    exists cs. auto. }
  assert (Hsep : forall b off, raw_ptr_ (data_ o) = Ptr b off ->
                   is_Some (mem s' !! b) /\ Ptr b 0 <> raw_ptr_ (data_ v')).
  { intros b off Hb. destruct (Hblock b off Hb) as (cs & Hcs & Hcs').
    split; [eauto|]. intros Heq. symmetry in Heq. apply Hfresh in Heq. congruence. }
  assert (Helo : elements (mem s') o = elements (mem s) o).
  { apply elements_same_block. intros b off Hb.
    destruct (Hblock b off Hb) as (cs & Hcs & Hcs'). congruence. }
  assert (Hwfo' : wf_vec (mem s') o).
  { apply (wf_vec_same_block (mem s)); [|exact Hwf]. intros b off Hb.
    destruct (Hblock b off Hb) as (cs & Hcs & Hcs'). congruence. }
  exists s', v'. split; [exact Hrun|]. split; [exact Hv'|]. split; [exact Ho'|].
  split; [|split; [congruence|split; [exact Helo|split; [exact Hsz|split; [exact Hcp|]]]]].
  - apply (operator_eq_true s' this other v' o); auto. congruence.
  - intros cs s'' Hfin.
    destruct (mutate_all_keeps_other cs s' this v' other o s'' Hne Hv' Hwf' Ho' Hsep Hfin)
      as [Ho'' Hmem].
    split; [exact Ho''|]. rewrite <- Helo. now apply elements_same_block.
Qed.

(** ** swap, move construction, copy assignment *)

Ltac solve_lookup :=
  cbn [vecs mem set_vecs set_mem];
  repeat first [rewrite lookup_insert_eq | rewrite lookup_insert_ne by congruence];
  first [reflexivity | eassumption].

Lemma swap_ok s a b va vb :
  a <> b -> vecs s !! a = Some va -> vecs s !! b = Some vb ->
  swap a b s = Ret tt (set_vecs s (<[b := va]> (<[a := vb]> (vecs s)))).
Proof.
  intros Hne Ha Hb. unfold swap.
  rewrite bool_decide_eq_false_2 by assumption.
  step_with (get_vec_ok s a va Ha). step_with (get_vec_ok s b vb Hb).
  destruct va as [[p] sa ca], vb as [[q] sb cb].
  cbn [ArrayPtr_swap ArrayPtr_move ArrayPtr_move_assign data_ raw_ptr_].
  erewrite bind_Ret by (apply set_data_ok; solve_lookup). cbn beta.
  erewrite bind_Ret by (apply set_data_ok; solve_lookup). cbn beta.
  erewrite bind_Ret by (apply get_vec_ok; solve_lookup). cbn beta.
  erewrite bind_Ret by (apply get_vec_ok; solve_lookup). cbn beta.
  erewrite bind_Ret by (apply set_size_ok; solve_lookup). cbn beta.
  erewrite bind_Ret by (apply set_size_ok; solve_lookup). cbn beta.
  erewrite bind_Ret by (apply get_vec_ok; solve_lookup). cbn beta.
  erewrite bind_Ret by (apply get_vec_ok; solve_lookup). cbn beta.
  erewrite bind_Ret by (apply set_capacity_ok; solve_lookup). cbn beta.
  erewrite set_capacity_ok by solve_lookup.
  cbn [vecs mem set_vecs set_mem data_ size_ capacity_].
  unfold set_vecs. f_equal. f_equal.
  apply map_eq. intros i.
  destruct (decide (i = b)) as [->|Hib]; [now rewrite !lookup_insert_eq|].
  rewrite !(lookup_insert_ne _ b) by congruence.
  destruct (decide (i = a)) as [->|Hia]; [now rewrite !lookup_insert_eq|].
  now rewrite !lookup_insert_ne by congruence.
Qed.

(** C9: move construction hands the source's block, size and capacity to
    the new vector and leaves the source with no block, size 0 and
    capacity 0; the free store is not touched. *)
Theorem move_construct_transfers s this other o :
  vecs s !! this = None -> vecs s !! other = Some o ->
  exists s',
    SimpleVector_move this other s = Ret tt s' /\
    vecs s' !! this = Some o /\
    vecs s' !! other = Some (MkSimpleVector (MkArrayPtr nullptr) 0 0) /\
    mem s' = mem s /\
    elements (mem s') o = elements (mem s) o.
Proof.
  intros Hthis Ho. assert (Hne : this <> other) by congruence.
  eexists. split.
  - unfold SimpleVector_move. apply constructor_ok.
    apply swap_ok; [exact Hne| solve_lookup | solve_lookup].
  - cbn [vecs mem set_vecs].
    rewrite lookup_insert_ne by congruence. rewrite !lookup_insert_eq. auto.
Qed.

Lemma copy_assign_ok s this rhs v w :
  vecs s !! this = Some v -> vecs s !! rhs = Some w ->
  wf_vec (mem s) v -> wf_vec (mem s) w ->
  (0 < size_ w -> grants (mem s) (size_ w) = true) ->
  exists s' t,
    copy_assign this rhs s = Ret tt s' /\
    vecs s' = <[this := t]> (vecs s) /\
    wf_vec (mem s') t /\
    size_ t = size_ w /\
    capacity_ t = size_ w /\
    elements (mem s') t = elements (mem s) w /\
    (forall b cs, mem s !! b = Some cs -> Ptr b 0 <> raw_ptr_ (data_ v) ->
                  mem s' !! b = Some cs).
Proof.
  intros Hv Hw Hwfv Hwfw Hg.
  set (tmp := fresh (dom (vecs s))).
  assert (Htmp : vecs s !! tmp = None).
  { apply not_elem_of_dom. apply is_fresh. }
  assert (Hne : this <> tmp) by congruence.
  destruct (SimpleVector_copy_ok s tmp rhs w Htmp Hw Hwfw Hg)
    as (s1 & t & Hrun1 & Hvs1 & Hwf1 & Hsz1 & Hcp1 & Hel1 & Hfresh & Hkeep).
  assert (Hv1 : vecs s1 !! this = Some v) by (rewrite Hvs1, lookup_insert_ne; auto).
  assert (Ht1 : vecs s1 !! tmp = Some t) by (rewrite Hvs1; apply lookup_insert_eq).
  assert (Hfinal : delete tmp (<[tmp := v]> (<[this := t]> (vecs s1)))
                   = <[this := t]> (vecs s)).
  { rewrite delete_insert_eq, delete_insert_ne by congruence.
    rewrite Hvs1. now rewrite delete_insert_id. }
  assert (Hdestroy : exists m',
            SimpleVector_destroy tmp (set_vecs s1 (<[tmp := v]> (<[this := t]> (vecs s1))))
            = Ret tt (MkState m' (<[this := t]> (vecs s))) /\
            (forall b, Ptr b 0 <> raw_ptr_ (data_ v) -> m' !! b = mem s1 !! b)).
  { unfold SimpleVector_destroy.
    erewrite bind_Ret by (apply get_vec_ok; solve_lookup). cbn beta.
    unfold ArrayPtr_destroy.
    destruct v as [[p] sz cp]; cbn [data_ raw_ptr_] in *.
    destruct p as [|b off].
    - exists (mem s1). split; [|reflexivity].
      cbn [delete_array]. erewrite bind_Ret by reflexivity. cbn beta.
      unfold set_vecs; cbn [vecs mem]. now rewrite Hfinal.
    - destruct (wf_vec_held _ _ _ _ _ Hwfv) as (-> & cs & Hcs & _).
      exists (delete b (mem s1)). split.
      + erewrite bind_Ret by (apply (delete_array_ok _ b cs); cbn; auto).
        cbn beta. unfold set_vecs, set_mem; cbn [vecs mem]. now rewrite Hfinal.
      + intros b0 Hb0. apply lookup_delete_ne. congruence. }
  destruct Hdestroy as (m' & Hd & Hm').
  exists (MkState m' (<[this := t]> (vecs s))), t.
  split.
  { unfold copy_assign. erewrite bind_Ret by reflexivity. cbn beta. fold tmp.
    step_with Hrun1. step_with (swap_ok s1 this tmp v t Hne Hv1 Ht1). exact Hd. }
  cbn [vecs mem].
  split; [reflexivity|].
  assert (Hsep : forall b off, raw_ptr_ (data_ t) = Ptr b off ->
                   m' !! b = mem s1 !! b).
  { intros b off Hb. apply Hm'. intros Heq.
    destruct Hwf1 as (_ & _ & Hp). rewrite Hb in Hp. destruct Hp as (-> & _).
    apply Hfresh in Hb.
    destruct v as [[p] sz cp]; cbn [data_ raw_ptr_] in *. subst p.
    destruct (wf_vec_held _ _ _ _ _ Hwfv) as (_ & cs & Hcs & _). congruence. }
  split; [now apply (wf_vec_same_block (mem s1))|].
  split; [exact Hsz1|]. split; [exact Hcp1|].
  split; [rewrite <- Hel1; now apply elements_same_block|].
  intros b cs Hb Hnb. rewrite Hm' by assumption. now apply Hkeep.
Qed.

(** C10 (as the code has it): copy assignment gives [this] the size and the
    elements of [rhs], with a capacity equal to that size, and leaves a
    distinct [rhs] as it was, equal to [this]; assigning a vector to itself
    keeps its size and elements, and a capacity of 0 stays 0. *)
Theorem copy_assign_copies s this rhs v w :
  vecs s !! this = Some v -> vecs s !! rhs = Some w ->
  wf_vec (mem s) v -> wf_vec (mem s) w ->
  (this <> rhs -> separate v w) ->
  (0 < size_ w -> grants (mem s) (size_ w) = true) ->
  exists s' t,
    copy_assign this rhs s = Ret tt s' /\
    vecs s' !! this = Some t /\
    size_ t = size_ w /\
    elements (mem s') t = elements (mem s) w /\
    capacity_ t = size_ w /\
    (this <> rhs ->
     vecs s' !! rhs = Some w /\
     elements (mem s') w = elements (mem s) w /\
     operator_eq this rhs s' = Ret true s') /\
    (this = rhs ->
     size_ t = size_ v /\
     elements (mem s') t = elements (mem s) v /\
     (capacity_ v = 0 -> capacity_ t = 0)).
Proof.
  intros Hv Hw Hwfv Hwfw Hsep Hg.
  destruct (copy_assign_ok s this rhs v w Hv Hw Hwfv Hwfw Hg)
    as (s' & t & Hrun & Hvs & Hwft & Hsz & Hcp & Hel & Hkeep).
  assert (Ht : vecs s' !! this = Some t) by (rewrite Hvs; apply lookup_insert_eq).
  exists s', t. split; [exact Hrun|]. split; [exact Ht|].
  split; [exact Hsz|]. split; [exact Hel|]. split; [exact Hcp|]. split.
  - intros Hne. specialize (Hsep Hne).
    assert (Hw' : vecs s' !! rhs = Some w) by (rewrite Hvs, lookup_insert_ne; auto).
    assert (Hblock : forall b off, raw_ptr_ (data_ w) = Ptr b off ->
                       mem s' !! b = mem s !! b).
    { intros b off Hb. pose proof Hwfw as (_ & _ & Hp). rewrite Hb in Hp.
      destruct Hp as (-> & _ & Hlive).
      destruct (mem s !! b) as [cs|] eqn:Hcs; [|done].
      apply Hkeep; [exact Hcs|]. rewrite <- Hb.
      destruct Hsep as [Hnull|Hdiff]; [rewrite Hnull, Hb; discriminate | congruence]. }
    assert (Helw : elements (mem s') w = elements (mem s) w)
      by now apply elements_same_block.
    split; [exact Hw'|]. split; [exact Helw|].
    apply (operator_eq_true s' this rhs t w); auto; [|congruence].
    apply (wf_vec_same_block (mem s)); auto.
  - intros ->. assert (v = w) by congruence. subst w.
    split; [exact Hsz|]. split; [exact Hel|].
    intros H0. destruct Hwfv as (Hs & _). lia.
Qed.


(** ** Move assignment *)

(** C1: the defaulted move assignment [this = std::move(rhs)] between two
    vectors empties [rhs.data_] but copies [size_] and [capacity_] without
    resetting them in [rhs]: a source of capacity other than 0 is left with
    that capacity and no block.  The block [this] held is not deleted. *)
Theorem move_assign_keeps_source_capacity s this rhs a b :
  this <> rhs -> vecs s !! this = Some a -> vecs s !! rhs = Some b ->
  exists s',
    move_assign this rhs s = Ret tt s' /\
    vecs s' !! this = Some b /\
    vecs s' !! rhs
    = Some (MkSimpleVector (MkArrayPtr nullptr) (size_ b) (capacity_ b)) /\
    mem s' = mem s /\
    (capacity_ b <> 0 ->
     ~ capacity_matches_buffer
         (MkSimpleVector (MkArrayPtr nullptr) (size_ b) (capacity_ b))).
Proof.
  intros Hne Ha Hb. destruct a as [[p] sa ca], b as [[q] sb cb].
  eexists. split.
  - unfold move_assign. rewrite bool_decide_eq_false_2 by assumption.
    step_with (get_vec_ok s this _ Ha). step_with (get_vec_ok s rhs _ Hb).
    cbn [ArrayPtr_move_assign data_ raw_ptr_].
    erewrite bind_Ret by (apply set_data_ok; solve_lookup). cbn beta.
    erewrite bind_Ret by (apply set_data_ok; solve_lookup). cbn beta.
    erewrite bind_Ret by (apply get_vec_ok; solve_lookup). cbn beta.
    erewrite bind_Ret by (apply set_size_ok; solve_lookup). cbn beta.
    erewrite bind_Ret by (apply get_vec_ok; solve_lookup). cbn beta.
    erewrite set_capacity_ok by solve_lookup. reflexivity.
  - cbn [vecs mem set_vecs set_mem data_ size_ capacity_].
    split; [solve_lookup|]. split; [solve_lookup|]. split; [reflexivity|].
    intros Hcap [_ Hnull]. cbn in Hnull. now apply Hcap, Hnull.
Qed.


(** * Further properties *)

(** ** Constructors *)

Lemma state_eta (s : state) : MkState (mem s) (vecs s) = s.
Proof. now destruct s. Qed.

Lemma constructor_fail s this (body : M unit) e :
  vecs s !! this = None ->
  body (set_vecs s (<[this := MkSimpleVector ArrayPtr_default 0 0]> (vecs s)))
  = Throw e (set_vecs s (<[this := MkSimpleVector ArrayPtr_default 0 0]> (vecs s))) ->
  constructor this body s = Throw e s.
Proof.
  intros Hnew Hbody. unfold constructor, init_members.
  erewrite bind_Ret by reflexivity. rewrite Hbody.
  unfold SimpleVector_destroy.
  erewrite bind_Ret by (apply get_vec_ok; solve_lookup). cbn beta.
  cbn [data_ ArrayPtr_default ArrayPtr_destroy raw_ptr_ delete_array].
  erewrite bind_Ret by reflexivity. cbn beta.
  unfold set_vecs; cbn [mem vecs]. rewrite delete_insert_id by assumption.
  now rewrite state_eta.
Qed.

Lemma take_all_ext (l : list T) (n : nat) x :
  (forall t, (t < n)%nat -> l !! t = Some x) -> take n l = replicate n x.
Proof.
  intros Hall. change (replicate n x) with (take 0 (@nil T) ++ replicate n x).
  change n with (0 + n)%nat at 1.
  apply (take_fill_ext [] l 0%nat n x); [cbn; lia | intros; lia |].
  intros t Ht. apply Hall. lia.
Qed.

Lemma SimpleVector_fill_ok s this size value :
  vecs s !! this = None -> 0 <= size ->
  (0 < size -> grants (mem s) size = true) ->
  exists s' v',
    SimpleVector_fill this size value s = Ret tt s' /\
    vecs s' = <[this := v']> (vecs s) /\
    wf_vec (mem s') v' /\
    size_ v' = size /\ capacity_ v' = size /\
    elements (mem s') v' = replicate (Z.to_nat size) value /\
    (size = 0 -> mem s' = mem s) /\
    (forall b, raw_ptr_ (data_ v') = Ptr b 0 -> mem s !! b = None) /\
    (forall b cs, mem s !! b = Some cs -> mem s' !! b = Some cs) /\
    (forall b b0, raw_ptr_ (data_ v') = Ptr b 0 -> b0 <> b ->
                  mem s' !! b0 = mem s !! b0).
Proof.
  intros Hnew Hsize Hg.
  set (s0 := set_vecs s (<[this := MkSimpleVector ArrayPtr_default 0 0]> (vecs s))).
  assert (Hthis0 : vecs s0 !! this = Some (MkSimpleVector ArrayPtr_default 0 0)).
  { subst s0; cbn. apply lookup_insert_eq. }
  assert (Hins : forall v', <[this := v']> (vecs s0) = <[this := v']> (vecs s)).
  { intros v'. subst s0; cbn. apply insert_insert_eq. }
  unfold SimpleVector_fill.
  destruct (decide (size = 0)) as [->|Hnz].
  - exists (set_vecs s0 (<[this := MkSimpleVector (MkArrayPtr nullptr) 0 0]> (vecs s0))),
           (MkSimpleVector (MkArrayPtr nullptr) 0 0).
    split.
    { apply constructor_ok. fold s0.
      step_with (ArrayPtr_sized_zero s0 0 ltac:(lia)).
      cbn [Get raw_ptr_ ptr_add]. rewrite decide_True by reflexivity. rewrite bind_ret_l.
      erewrite bind_Ret by reflexivity. cbn beta.
      rewrite (install_ok s0 this _ _ _ _ _ Hthis0). reflexivity. }
    cbn [vecs mem set_vecs size_ capacity_ data_ raw_ptr_].
    split; [apply Hins|].
    split; [unfold wf_vec; cbn; unfold PTRDIFF_MAX; lia|].
    split; [reflexivity|]. split; [reflexivity|]. split; [reflexivity|].
    split; [reflexivity|]. split; [discriminate|]. subst s0; cbn.
    split; [auto | discriminate].
  - assert (Hpos : 0 < size) by lia. specialize (Hg Hpos).
    pose proof (grants_bound _ _ Hg) as Hbound.
    pose proof (fresh_block_None (mem s)) as Hfresh.
    set (b' := fresh_block (mem s)) in *.
    set (fc := fresh_cell <$> seq 0 (Z.to_nat size)).
    assert (Hfc : Z.of_nat (length fc) = size) by (apply length_fresh_cells; lia).
    set (s1 := set_mem s0 (<[b' := fc]> (mem s0))).
    assert (Hb1 : mem s1 !! b' = Some fc) by (subst s1; cbn; apply lookup_insert_eq).
    destruct (std_fill_ok s1 b' fc 0 (0 + size) value Hb1)
      as (s2 & cs2 & Hrun2 & Hv2 & Hb2 & Hl2 & Hin & Hfr & Hoth); try lia.
    exists (set_vecs s2 (<[this := MkSimpleVector (MkArrayPtr (Ptr b' 0)) size size]> (vecs s2))),
           (MkSimpleVector (MkArrayPtr (Ptr b' 0)) size size).
    split.
    { apply constructor_ok. fold s0.
      step_with (ArrayPtr_sized_ok s0 size Hpos Hg).
      change (fresh_block (mem s0)) with b'. fold fc s1.
      pure_step. step_with Hrun2.
      rewrite (install_ok s2 this _ _ _ _ _ ltac:(rewrite Hv2; exact Hthis0)).
      reflexivity. }
    cbn [vecs mem set_vecs size_ capacity_ data_ raw_ptr_].
    split; [rewrite Hv2; apply Hins|].
    split; [|split; [reflexivity|split; [reflexivity|split; [|split; [lia|split; [|split]]]]]].
    + unfold wf_vec; cbn [size_ capacity_ data_ raw_ptr_]. rewrite Hb2.
      repeat split; lia.
    + unfold elements, buffer; cbn [size_ capacity_ data_ raw_ptr_].
      rewrite Hb2; cbn [from_option id]. apply take_all_ext.
      intros t Ht. apply Hin. lia.
    + intros b0 Hb0. replace b0 with b' by congruence. exact Hfresh.
    + intros b0 cs0 Hb0. rewrite Hoth by congruence.
      subst s1 s0; cbn. rewrite lookup_insert_ne by congruence. exact Hb0.
    + intros b b0 [= <-] Hb0. rewrite Hoth by assumption.
      subst s1 s0; cbn. now rewrite lookup_insert_ne by congruence.
Qed.

(** X1: [SimpleVector(size, value)] builds a vector whose size and capacity
    are [size] and whose elements all equal [value]; for [size = 0] it
    requests no block; the blocks of other vectors are not touched. *)
Theorem fill_constructor_fills s this size value :
  vecs s !! this = None -> 0 <= size ->
  (0 < size -> grants (mem s) size = true) ->
  exists s' v',
    SimpleVector_fill this size value s = Ret tt s' /\
    vecs s' = <[this := v']> (vecs s) /\
    wf_vec (mem s') v' /\
    size_ v' = size /\ capacity_ v' = size /\
    elements (mem s') v' = replicate (Z.to_nat size) value /\
    (size = 0 -> mem s' = mem s) /\
    (forall b, raw_ptr_ (data_ v') = Ptr b 0 -> mem s !! b = None) /\
    (forall b cs, mem s !! b = Some cs -> mem s' !! b = Some cs).
Proof.
  intros Hnew Hsize Hg.
  destruct (SimpleVector_fill_ok s this size value Hnew Hsize Hg)
    as (s' & v' & Hrun & Hvs & Hwf & Hsz & Hcp & Hel & Hzero & Hfresh & Hkeep & _).
  exists s', v'. repeat split; try assumption; apply Hwf.
Qed.

Lemma store_list_ok init : forall s b cs (i : nat),
  mem s !! b = Some cs -> (i + length init <= length cs)%nat ->
  exists s' cs',
    store_list (Ptr b (Z.of_nat i)) init s = Ret tt s' /\
    vecs s' = vecs s /\
    mem s' !! b = Some cs' /\ length cs' = length cs /\
    (forall t, (t < length init)%nat -> cs' !! (i + t)%nat = init !! t) /\
    (forall t, (t < i)%nat -> cs' !! t = cs !! t) /\
    (forall b', b' <> b -> mem s' !! b' = mem s !! b').
Proof.
  induction init as [|x init IH]; intros s b cs i Hb Hi.
  - exists s, cs. cbn. repeat split; auto. intros; lia.
  - cbn [length] in Hi. assert (Hi' : (i < length cs)%nat) by lia.
    cbn [store_list].
    rewrite (bind_Ret _ _ _ _ _ (store_ok _ _ _ _ x Hb Hi')).
    cbn [ptr_add]. unfold bind at 1. cbn [ret].
    replace (Z.of_nat i + 1) with (Z.of_nat (S i)) by lia.
    set (s1 := set_mem s _).
    destruct (IH s1 b (<[i := x]> cs) (S i))
      as (s' & cs' & Hrun & Hv & Hb' & Hl & Hin & Hfr & Hoth).
    + subst s1; cbn. now rewrite lookup_insert_eq.
    + rewrite length_insert. lia.
    + exists s', cs'. rewrite Hrun. rewrite length_insert in Hl.
      repeat split; auto.
      * intros t Ht. destruct t as [|t].
        -- rewrite Nat.add_0_r. rewrite Hfr by lia. cbn.
           apply list_lookup_insert_eq. lia.
        -- replace (i + S t)%nat with (S i + t)%nat by lia.
           cbn [length] in Ht. rewrite Hin by lia. reflexivity.
      * intros t Ht. rewrite Hfr by lia. apply list_lookup_insert_ne. lia.
      * intros b' Hb'ne. rewrite Hoth by auto. subst s1; cbn.
        now rewrite lookup_insert_ne by congruence.
Qed.

(** X3: the initializer-list constructor builds a vector holding exactly
    the listed elements in order, with size and capacity equal to their
    number. *)
Theorem init_constructor_copies_list s this init :
  vecs s !! this = None ->
  (init <> [] -> grants (mem s) (Z.of_nat (length init)) = true) ->
  exists s' v',
    SimpleVector_init this init s = Ret tt s' /\
    vecs s' = <[this := v']> (vecs s) /\
    wf_vec (mem s') v' /\
    size_ v' = Z.of_nat (length init) /\
    capacity_ v' = Z.of_nat (length init) /\
    elements (mem s') v' = init /\
    (forall b cs, mem s !! b = Some cs -> mem s' !! b = Some cs).
Proof.
  intros Hnew Hg.
  set (s0 := set_vecs s (<[this := MkSimpleVector ArrayPtr_default 0 0]> (vecs s))).
  assert (Hthis0 : vecs s0 !! this = Some (MkSimpleVector ArrayPtr_default 0 0)).
  { subst s0; cbn. apply lookup_insert_eq. }
  assert (Hins : forall v', <[this := v']> (vecs s0) = <[this := v']> (vecs s)).
  { intros v'. subst s0; cbn. apply insert_insert_eq. }
  unfold SimpleVector_init.
  destruct init as [|x init].
  - exists (set_vecs s0 (<[this := MkSimpleVector (MkArrayPtr nullptr) 0 0]> (vecs s0))),
           (MkSimpleVector (MkArrayPtr nullptr) 0 0).
    split.
    { apply constructor_ok. fold s0. cbn [length Z.of_nat].
      step_with (ArrayPtr_sized_zero s0 0 ltac:(lia)).
      cbn [store_list]. rewrite bind_ret_l.
      rewrite (install_ok s0 this _ _ _ _ _ Hthis0). reflexivity. }
    cbn [vecs mem set_vecs size_ capacity_ data_ raw_ptr_].
    split; [apply Hins|].
    split; [unfold wf_vec; cbn; unfold PTRDIFF_MAX; lia|].
    split; [reflexivity|]. split; [reflexivity|]. split; [reflexivity|].
    subst s0; cbn. auto.
  - set (l := x :: init) in *. set (n := Z.of_nat (length l)).
    assert (Hpos : 0 < n) by (subst n l; cbn [length]; lia).
    specialize (Hg ltac:(discriminate)). fold n in Hg.
    pose proof (grants_bound _ _ Hg) as Hbound.
    pose proof (fresh_block_None (mem s)) as Hfresh.
    set (b' := fresh_block (mem s)) in *.
    set (fc := fresh_cell <$> seq 0 (Z.to_nat n)).
    assert (Hfc : Z.of_nat (length fc) = n) by (apply length_fresh_cells; lia).
    set (s1 := set_mem s0 (<[b' := fc]> (mem s0))).
    assert (Hb1 : mem s1 !! b' = Some fc) by (subst s1; cbn; apply lookup_insert_eq).
    destruct (store_list_ok l s1 b' fc 0 Hb1)
      as (s2 & cs2 & Hrun2 & Hv2 & Hb2 & Hl2 & Hin & Hfr & Hoth); [lia|].
    exists (set_vecs s2 (<[this := MkSimpleVector (MkArrayPtr (Ptr b' 0)) n n]> (vecs s2))),
           (MkSimpleVector (MkArrayPtr (Ptr b' 0)) n n).
    split.
    { apply constructor_ok. fold s0. cbn zeta. fold n.
      step_with (ArrayPtr_sized_ok s0 n Hpos Hg).
      change (fresh_block (mem s0)) with b'. fold fc s1.
      cbn [Get raw_ptr_]. step_with Hrun2.
      rewrite (install_ok s2 this _ _ _ _ _ ltac:(rewrite Hv2; exact Hthis0)).
      reflexivity. }
    cbn [vecs mem set_vecs size_ capacity_ data_ raw_ptr_].
    split; [rewrite Hv2; apply Hins|].
    split; [|split; [reflexivity|split; [reflexivity|split]]].
    + unfold wf_vec; cbn [size_ capacity_ data_ raw_ptr_]. rewrite Hb2.
      repeat split; lia.
    + unfold elements, buffer; cbn [size_ capacity_ data_ raw_ptr_].
      rewrite Hb2; cbn [from_option id].
      transitivity (take (Z.to_nat n) l); [|apply take_ge; lia].
      apply take_ext. intros t Ht. apply (Hin t). lia.
    + intros b0 cs0 Hb0. rewrite Hoth by congruence.
      subst s1 s0; cbn. rewrite lookup_insert_ne by congruence. exact Hb0.
Qed.

Lemma wf_vec_empty m : wf_vec m (MkSimpleVector ArrayPtr_default 0 0).
Proof. unfold wf_vec; cbn. unfold PTRDIFF_MAX. lia. Qed.

Lemma SimpleVector_reserved_ok s this n :
  vecs s !! this = None -> 0 <= n ->
  (0 < n -> grants (mem s) n = true) ->
  exists s' v',
    SimpleVector_reserved this n s = Ret tt s' /\
    vecs s' = <[this := v']> (vecs s) /\
    wf_vec (mem s') v' /\
    size_ v' = 0 /\ capacity_ v' = n /\
    elements (mem s') v' = [] /\
    (forall b cs, mem s !! b = Some cs -> mem s' !! b = Some cs).
Proof.
  intros Hnew Hn Hg.
  set (s0 := set_vecs s (<[this := MkSimpleVector ArrayPtr_default 0 0]> (vecs s))).
  assert (Hthis0 : vecs s0 !! this = Some (MkSimpleVector ArrayPtr_default 0 0)).
  { subst s0; cbn. apply lookup_insert_eq. }
  destruct (Reserve_ok s0 this _ n Hthis0 (wf_vec_empty _))
    as (s' & v' & Hrun & Hvs & Hwf & Hsz & Hcp & Hel & _ & Hkeep).
  { cbn [capacity_]. exact Hg. }
  exists s', v'. split; [now apply constructor_ok|].
  split; [rewrite Hvs; subst s0; cbn; apply insert_insert_eq|].
  split; [exact Hwf|]. split; [exact Hsz|]. cbn [capacity_] in Hcp.
  split; [lia|]. split; [rewrite Hel; reflexivity|].
  intros b cs Hb. apply Hkeep; [exact Hb|]. cbn. discriminate.
Qed.

(** X4: [SimpleVector(Reserve(n))] builds a vector of size 0 and capacity
    [n] with no elements: [At] throws [out_of_range] at every index. *)
Theorem reserve_constructor_preallocates s this n :
  vecs s !! this = None -> 0 <= n ->
  (0 < n -> grants (mem s) n = true) ->
  exists s' v',
    SimpleVector_reserved this n s = Ret tt s' /\
    vecs s' !! this = Some v' /\
    size_ v' = 0 /\ capacity_ v' = n /\
    elements (mem s') v' = [] /\
    IsEmpty this s' = Ret true s' /\
    (forall index, 0 <= index -> At this index s' = Throw out_of_range s').
Proof.
  intros Hnew Hn Hg.
  destruct (SimpleVector_reserved_ok s this n Hnew Hn Hg)
    as (s' & v' & Hrun & Hvs & Hwf & Hsz & Hcp & Hel & _).
  assert (Hv' : vecs s' !! this = Some v') by (rewrite Hvs; apply lookup_insert_eq).
  exists s', v'. split; [exact Hrun|]. split; [exact Hv'|].
  split; [exact Hsz|]. split; [exact Hcp|]. split; [exact Hel|]. split.
  - unfold IsEmpty. step_with (get_vec_ok s' this v' Hv').
    unfold ret. now rewrite bool_decide_eq_true_2.
  - intros index Hi. rewrite (At_ok s' this v' index Hv').
    now rewrite decide_True by lia.
Qed.

(** X2: when the free store refuses the block, the constructors that
    allocate throw [bad_alloc] and leave the state exactly as it was: no
    object at [this], no new block. *)
Theorem constructor_failure_leaves_nothing s this :
  vecs s !! this = None ->
  (forall size value,
     0 < size -> grants (mem s) size = false ->
     SimpleVector_fill this size value s = Throw bad_alloc s) /\
  (forall n,
     0 < n -> grants (mem s) n = false ->
     SimpleVector_reserved this n s = Throw bad_alloc s) /\
  (forall init,
     init <> [] -> grants (mem s) (Z.of_nat (length init)) = false ->
     SimpleVector_init this init s = Throw bad_alloc s) /\
  (forall other o,
     vecs s !! other = Some o -> 0 < size_ o ->
     grants (mem s) (size_ o) = false ->
     SimpleVector_copy this other s = Throw bad_alloc s).
Proof.
  intros Hnew.
  set (s0 := set_vecs s (<[this := MkSimpleVector ArrayPtr_default 0 0]> (vecs s))).
  assert (Hthis0 : vecs s0 !! this = Some (MkSimpleVector ArrayPtr_default 0 0)).
  { subst s0; cbn. apply lookup_insert_eq. }
  split; [|split; [|split]].
  - intros size value Hpos Hg. apply constructor_fail; [exact Hnew|]. fold s0.
    now rewrite (bind_Throw _ _ _ _ _ (ArrayPtr_sized_fail s0 size Hpos Hg)).
  - intros n Hpos Hg. apply constructor_fail; [exact Hnew|]. fold s0.
    unfold Reserve. step_with (get_vec_ok s0 this _ Hthis0).
    cbn [capacity_]. rewrite decide_False by lia.
    now rewrite (bind_Throw _ _ _ _ _ (ArrayPtr_sized_fail s0 n Hpos Hg)).
  - intros init Hne Hg. apply constructor_fail; [exact Hnew|]. fold s0. cbn zeta.
    assert (Hpos : 0 < Z.of_nat (length init)) by (destruct init; [done | cbn; lia]).
    now rewrite (bind_Throw _ _ _ _ _ (ArrayPtr_sized_fail s0 _ Hpos Hg)).
  - intros other o Ho Hpos Hg. apply constructor_fail; [exact Hnew|]. fold s0.
    assert (Ho0 : vecs s0 !! other = Some o).
    { subst s0; cbn. rewrite lookup_insert_ne; [exact Ho | congruence]. }
    step_with (get_vec_ok s0 other o Ho0). unfold Construct.
    now rewrite (bind_Throw _ _ _ _ _ (ArrayPtr_sized_fail s0 _ Hpos Hg)).
Qed.

(** ** Clear, PopBack, writes *)

Lemma Clear_ok s this v :
  vecs s !! this = Some v -> wf_vec (mem s) v ->
  Clear this s
  = Ret tt (set_vecs s (<[this := MkSimpleVector (data_ v) 0 (capacity_ v)]> (vecs s))) /\
  wf_vec (mem s) (MkSimpleVector (data_ v) 0 (capacity_ v)).
Proof.
  intros Hv (Hsz & Hcp & Hp). split; [now apply set_size_ok|].
  unfold wf_vec; cbn [size_ capacity_ data_]. repeat split; try lia. exact Hp.
Qed.

Lemma PopBack_ok s this v :
  vecs s !! this = Some v -> wf_vec (mem s) v -> 0 < size_ v ->
  PopBack this s
  = Ret tt (set_vecs s (<[this := MkSimpleVector (data_ v) (size_ v - 1) (capacity_ v)]>
                          (vecs s))) /\
  wf_vec (mem s) (MkSimpleVector (data_ v) (size_ v - 1) (capacity_ v)) /\
  elements (mem s) (MkSimpleVector (data_ v) (size_ v - 1) (capacity_ v))
  = take (Z.to_nat (size_ v) - 1) (elements (mem s) v).
Proof.
  intros Hv (Hsz & Hcp & Hp) Hpos. split; [|split].
  - unfold PopBack. step_with (get_vec_ok s this v Hv).
    rewrite to_size_t_small by (unfold SIZE_MAX, PTRDIFF_MAX in *; lia).
    now apply set_size_ok.
  - unfold wf_vec; cbn [size_ capacity_ data_]. repeat split; try lia. exact Hp.
  - unfold elements; cbn [size_]. unfold buffer; cbn [data_].
    rewrite take_take. f_equal. lia.
Qed.

(** X5: [PushBack(item)] followed by [PopBack()] gives back the elements
    and the size; the capacity does not shrink. *)
Theorem PushBack_PopBack_roundtrip s this v item :
  vecs s !! this = Some v -> wf_vec (mem s) v ->
  (size_ v = capacity_ v -> grants (mem s) (grown (capacity_ v)) = true) ->
  exists s' v',
    (PushBack this item;; PopBack this) s = Ret tt s' /\
    vecs s' !! this = Some v' /\
    wf_vec (mem s') v' /\
    elements (mem s') v' = elements (mem s) v /\
    size_ v' = size_ v /\
    capacity_ v <= capacity_ v'.
Proof.
  intros Hv Hwf Hg. pose proof (length_elements _ _ Hwf) as Hlen.
  pose proof Hwf as (Hsz & Hcp & _).
  destruct (PushBack_ok s this v item Hv Hwf Hg)
    as (s1 & v1 & Hrun1 & Hvs1 & Hwf1 & Hsz1 & Hcp1 & Hel1 & _).
  assert (Hv1 : vecs s1 !! this = Some v1) by (rewrite Hvs1; apply lookup_insert_eq).
  destruct (PopBack_ok s1 this v1 Hv1 Hwf1 ltac:(lia)) as (Hrun2 & Hwf2 & Hel2).
  eexists _, _. split; [step_with Hrun1; exact Hrun2|].
  cbn [vecs mem set_vecs]. split; [apply lookup_insert_eq|].
  split; [exact Hwf2|]. split; [|split].
  - rewrite Hel2, Hel1.
    replace (Z.to_nat (size_ v1) - 1)%nat with (length (elements (mem s) v)) by lia.
    apply take_app_length.
  - cbn [size_]. lia.
  - cbn [capacity_]. rewrite Hcp1.
    destruct (decide (size_ v = capacity_ v)); [|lia].
    destruct (decide (capacity_ v = 0)); lia.
Qed.

(** X6: [PopBack()] does not look at the size: on an empty vector the size
    wraps to [SIZE_MAX], the invariants are lost, and the range check of
    [At] then lets every index below [SIZE_MAX] through. *)
Theorem PopBack_on_empty_wraps s this v :
  vecs s !! this = Some v -> size_ v = 0 ->
  exists s' v',
    PopBack this s = Ret tt s' /\
    vecs s' !! this = Some v' /\
    mem s' = mem s /\
    size_ v' = SIZE_MAX /\ capacity_ v' = capacity_ v /\
    ~ wf_vec (mem s') v' /\
    IsEmpty this s' = Ret false s' /\
    (forall index, 0 <= index < SIZE_MAX -> RangeCheck this index s' = Ret tt s').
Proof.
  intros Hv Hempty.
  assert (Hrun : PopBack this s
                 = Ret tt (set_vecs s (<[this := MkSimpleVector (data_ v) SIZE_MAX (capacity_ v)]>
                                         (vecs s)))).
  { unfold PopBack. step_with (get_vec_ok s this v Hv). rewrite Hempty.
    change (to_size_t (0 - 1)) with SIZE_MAX. now apply set_size_ok. }
  eexists _, _. split; [exact Hrun|]. cbn [vecs mem set_vecs].
  assert (Hv' : forall m, vecs (MkState m (<[this := MkSimpleVector (data_ v) SIZE_MAX (capacity_ v)]>
                                   (vecs s))) !! this
                = Some (MkSimpleVector (data_ v) SIZE_MAX (capacity_ v)))
    by (intros; cbn; apply lookup_insert_eq).
  split; [apply lookup_insert_eq|]. split; [reflexivity|].
  split; [reflexivity|]. split; [reflexivity|]. split; [|split].
  - intros (Hsz & Hcp & _). cbn [size_ capacity_] in *.
    unfold SIZE_MAX, PTRDIFF_MAX in *. lia.
  - unfold IsEmpty. erewrite bind_Ret by (apply get_vec_ok; apply Hv').
    cbn [size_]. unfold ret. now rewrite bool_decide_eq_false_2.
  - intros index Hi. unfold RangeCheck.
    erewrite bind_Ret by (apply get_vec_ok; apply Hv').
    cbn [size_]. now rewrite decide_False by lia.
Qed.

(** X7: a write through [operator[]] below the size replaces exactly that
    element: [At] at the same index reads the new value, the other elements,
    the size and the capacity stay. *)
Theorem write_then_read s this v index x :
  vecs s !! this = Some v -> wf_vec (mem s) v -> 0 <= index < size_ v ->
  exists s',
    write_index this index x s = Ret tt s' /\
    vecs s' = vecs s /\
    wf_vec (mem s') v /\
    elements (mem s') v = <[Z.to_nat index := x]> (elements (mem s) v) /\
    read_At this index s' = Ret x s'.
Proof.
  intros Hv Hwf Hi. pose proof Hwf as (Hsz & Hcp & Hp).
  destruct v as [[p] sz cp]; cbn [data_ size_ capacity_ raw_ptr_] in *.
  destruct p as [|b off]; [lia|].
  destruct Hp as (-> & Hcp0 & Hb). destruct (mem s !! b) as [cs|] eqn:Hcs; [|done].
  assert (Hrun : write_index this index x s
                 = Ret tt (set_mem s (<[b := <[Z.to_nat index := x]> cs]> (mem s)))).
  { unfold write_index. erewrite bind_Ret
      by (rewrite (operator_index_ok s this _ index Hv); reflexivity).
    cbn beta. cbn [raw_ptr_ data_].
    replace (0 + index) with (Z.of_nat (Z.to_nat index)) by lia.
    apply store_ok; [exact Hcs | lia]. }
  eexists. split; [exact Hrun|]. cbn [vecs mem set_mem].
  assert (Hwf' : wf_vec (<[b := <[Z.to_nat index := x]> cs]> (mem s))
                   (MkSimpleVector (MkArrayPtr (Ptr b 0)) sz cp)).
  { unfold wf_vec; cbn [size_ capacity_ data_ raw_ptr_].
    rewrite lookup_insert_eq, length_insert. repeat split; lia. }
  assert (Hel : elements (<[b := <[Z.to_nat index := x]> cs]> (mem s))
                  (MkSimpleVector (MkArrayPtr (Ptr b 0)) sz cp)
                = <[Z.to_nat index := x]>
                    (elements (mem s) (MkSimpleVector (MkArrayPtr (Ptr b 0)) sz cp))).
  { unfold elements, buffer; cbn [size_ capacity_ data_ raw_ptr_].
    rewrite lookup_insert_eq, Hcs; cbn [from_option id].
    apply take_insert_lt. lia. }
  split; [reflexivity|]. split; [exact Hwf'|]. split; [exact Hel|].
  destruct (read_At_ok (set_mem s (<[b := <[Z.to_nat index := x]> cs]> (mem s)))
              this _ index Hv Hwf' Hi) as (y & Hy & Hread).
  cbn [mem set_mem] in Hy. rewrite Hel in Hy.
  rewrite list_lookup_insert_eq in Hy.
  - congruence.
  - unfold elements, buffer; cbn [size_ capacity_ data_ raw_ptr_].
    rewrite Hcs; cbn [from_option id]. rewrite length_take. lia.
Qed.

(** X8: storage left over by a truncation is never exposed: after
    [Resize(k)] below the size, or after [Clear()], a [Resize(n)] within the
    capacity shows default values in the slots it opens again, whatever they
    held; no block is requested for it. *)
Theorem leftover_storage_is_reset s this v k n :
  vecs s !! this = Some v -> wf_vec (mem s) v ->
  0 <= k <= size_ v -> k <= n <= capacity_ v ->
  (exists s' v',
     (Resize this k;; Resize this n) s = Ret tt s' /\
     vecs s' !! this = Some v' /\
     size_ v' = n /\ capacity_ v' = capacity_ v /\
     elements (mem s') v'
     = take (Z.to_nat k) (elements (mem s) v)
       ++ replicate (Z.to_nat (n - k)) T_default) /\
  (exists s' v',
     (Clear this;; Resize this n) s = Ret tt s' /\
     vecs s' !! this = Some v' /\
     size_ v' = n /\ capacity_ v' = capacity_ v /\
     elements (mem s') v' = replicate (Z.to_nat n) T_default).
Proof.
  intros Hv Hwf Hk Hn. pose proof Hwf as (Hsz & Hcp & _).
  pose proof (length_elements _ _ Hwf) as Hlen. split.
  - destruct (Resize_ok s this v k Hv Hwf ltac:(lia) ltac:(intros; lia))
      as (s1 & v1 & Hrun1 & Hvs1 & Hwf1 & Hsz1 & Hcp1 & Hel1 & _).
    assert (Hv1 : vecs s1 !! this = Some v1) by (rewrite Hvs1; apply lookup_insert_eq).
    destruct (Resize_ok s1 this v1 n Hv1 Hwf1 ltac:(lia) ltac:(intros; lia))
      as (s2 & v2 & Hrun2 & Hvs2 & Hwf2 & Hsz2 & Hcp2 & Hel2 & _).
    exists s2, v2. split; [step_with Hrun1; exact Hrun2|].
    split; [rewrite Hvs2; apply lookup_insert_eq|].
    split; [exact Hsz2|]. split; [lia|].
    rewrite Hel2, Hel1, Hsz1.
    replace (Z.to_nat (k - size_ v)) with 0%nat by lia. rewrite app_nil_r.
    f_equal. apply take_ge. rewrite length_take. lia.
  - destruct (Clear_ok s this v Hv Hwf) as [Hrun1 Hwf1].
    set (v1 := MkSimpleVector (data_ v) 0 (capacity_ v)) in *.
    set (s1 := set_vecs s (<[this := v1]> (vecs s))) in *.
    assert (Hv1 : vecs s1 !! this = Some v1) by (subst s1; cbn; apply lookup_insert_eq).
    destruct (Resize_ok s1 this v1 n Hv1 Hwf1 ltac:(lia) ltac:(cbn; intros; lia))
      as (s2 & v2 & Hrun2 & Hvs2 & Hwf2 & Hsz2 & Hcp2 & Hel2 & _).
    exists s2, v2. split; [step_with Hrun1; exact Hrun2|].
    split; [rewrite Hvs2; apply lookup_insert_eq|].
    split; [exact Hsz2|]. cbn [capacity_ size_ v1] in *. split; [lia|].
    rewrite Hel2.
    replace (elements (mem s1) v1) with (@nil T) by reflexivity.
    rewrite take_nil. cbn [app size_ v1]. f_equal. lia.
Qed.

(** ** Insert and Erase at any position *)

Lemma ptr_add_iterator_at s v k :
  wf_vec (mem s) v -> 0 <= k <= size_ v ->
  ptr_add (raw_ptr_ (data_ v)) k s = Ret (iterator_at v k) s.
Proof.
  intros (Hsz & Hcp & Hp) Hk. unfold iterator_at.
  destruct (raw_ptr_ (data_ v)) as [|b off]; [|reflexivity].
  cbn [ptr_add]. now rewrite decide_True by lia.
Qed.

Lemma ptr_diff_iterator_at_wf s v k :
  wf_vec (mem s) v -> 0 <= k <= size_ v ->
  ptr_diff (iterator_at v k) (raw_ptr_ (data_ v)) s = Ret k s.
Proof.
  intros (Hsz & Hcp & Hp) Hk. rewrite ptr_diff_iterator_at.
  destruct (raw_ptr_ (data_ v)); [|reflexivity]. f_equal. lia.
Qed.

Lemma Insert_ok s this v k value :
  vecs s !! this = Some v -> wf_vec (mem s) v ->
  0 <= k <= size_ v ->
  (size_ v = capacity_ v -> grants (mem s) (grown (capacity_ v)) = true) ->
  exists s' v',
    Insert this (iterator_at v k) value s = Ret (iterator_at v' k) s' /\
    vecs s' = <[this := v']> (vecs s) /\
    wf_vec (mem s') v' /\
    size_ v' = size_ v + 1 /\
    capacity_ v' = (if decide (size_ v = capacity_ v)
                    then if decide (capacity_ v = 0) then 1 else 2 * capacity_ v
                    else capacity_ v) /\
    elements (mem s') v'
    = take (Z.to_nat k) (elements (mem s) v)
      ++ value :: drop (Z.to_nat k) (elements (mem s) v) /\
    (forall b cs, mem s !! b = Some cs -> Ptr b 0 <> raw_ptr_ (data_ v) ->
                  mem s' !! b = Some cs).
Proof.
  intros Hv Hwf Hk Hg. pose proof Hwf as (Hsz & Hcp & Hp).
  destruct (decide (size_ v = capacity_ v)) as [Hfull|Hroom].
  - specialize (Hg Hfull).
    pose proof (grown_wf (capacity_ v) ltac:(lia)) as Hgrown.
    assert (Hgt : size_ v < grown (capacity_ v)).
    { rewrite Hgrown. destruct (decide (capacity_ v = 0)); lia. }
    destruct (Recreate_ok s this v (grown (capacity_ v)) k value Hv Hwf Hk Hgt Hg)
      as (s' & b' & cs' & Hrun & Hvs & Hfresh & Hb' & Hlen & Hlow & Hat & Hhigh & Hoth).
    pose proof (grants_bound _ _ Hg) as Hbound.
    exists s', (MkSimpleVector (MkArrayPtr (Ptr b' 0)) (size_ v + 1) (grown (capacity_ v))).
    split.
    { unfold Insert, InsertInt.
      step_with (begin_ok s this v Hv).
      step_with (ptr_diff_iterator_at_wf s v k Hwf Hk).
      step_with (get_vec_ok s this v Hv). rewrite decide_True by assumption.
      rewrite to_size_t_small by (unfold SIZE_MAX, PTRDIFF_MAX in *; lia).
      step_with Hrun.
      erewrite bind_Ret by (apply begin_ok; rewrite Hvs; apply lookup_insert_eq).
      reflexivity. }
    split; [exact Hvs|]. cbn [size_ capacity_ data_ raw_ptr_].
    split; [|split; [reflexivity|split; [exact Hgrown|split]]].
    + unfold wf_vec; cbn [size_ capacity_ data_ raw_ptr_]. rewrite Hb'.
      repeat split; lia.
    + unfold elements at 1, buffer at 1; cbn [size_ capacity_ data_ raw_ptr_].
      rewrite Hb'; cbn [from_option id].
      replace (Z.to_nat (size_ v + 1)) with (S (Z.to_nat (size_ v))) by lia.
      unfold elements. apply insert_ext; auto.
      split; [lia|]. unfold buffer.
      destruct (raw_ptr_ (data_ v)) as [|b off]; [cbn; lia|].
      destruct Hp as (_ & _ & Hb). destruct (mem s !! b); [|done]. cbn. lia.
    + intros b cs Hb Hne. rewrite Hoth; auto. congruence.
  - destruct (InsertInt_ok s this v k value Hv Hwf Hk ltac:(lia))
      as (s' & v' & Hrun & Hvs & Hwf' & Hd & Hsz' & Hcp' & Hel & Hfr).
    exists s', v'. split.
    { unfold Insert. rewrite Hrun. f_equal. unfold iterator_at. now rewrite Hd. }
    split; [exact Hvs|]. split; [exact Hwf'|]. split; [exact Hsz'|].
    split; [exact Hcp'|]. split; [exact Hel|exact Hfr].
Qed.

Lemma Insert_at_ok s this v k value :
  vecs s !! this = Some v -> wf_vec (mem s) v -> 0 <= k <= size_ v ->
  Insert_at this k value s = Insert this (iterator_at v k) value s.
Proof.
  intros Hv Hwf Hk. unfold Insert_at.
  step_with (begin_ok s this v Hv).
  now step_with (ptr_add_iterator_at s v k Hwf Hk).
Qed.

Lemma load_iterator_at m s this v k x :
  m = mem s -> vecs s !! this = Some v -> wf_vec m v -> 0 <= k < size_ v ->
  elements m v !! Z.to_nat k = Some x ->
  load (iterator_at v k) s = Ret x s.
Proof.
  intros -> Hv Hwf Hk Hx.
  destruct (read_index_ok s this v k Hv Hwf Hk) as (y & r & Hy & Hr & Hl).
  rewrite (operator_index_ok s this v k Hv) in Hr.
  rewrite (ptr_add_iterator_at s v k Hwf ltac:(lia)) in Hr.
  injection Hr as <-. congruence.
Qed.

(** X9: [Insert(begin() + k, value)] for [0 <= k <= size] puts [value] at
    index [k] and moves the elements from [k] on one place up, with or
    without reallocation; the size grows by one, the capacity follows the
    growth policy, and the iterator returned refers to the new element. *)
Theorem Insert_at_inserts s this v k value :
  vecs s !! this = Some v -> wf_vec (mem s) v ->
  0 <= k <= size_ v ->
  (size_ v = capacity_ v -> grants (mem s) (grown (capacity_ v)) = true) ->
  exists s' v' r,
    Insert_at this k value s = Ret r s' /\
    vecs s' !! this = Some v' /\
    wf_vec (mem s') v' /\
    elements (mem s') v'
    = take (Z.to_nat k) (elements (mem s) v)
      ++ value :: drop (Z.to_nat k) (elements (mem s) v) /\
    size_ v' = size_ v + 1 /\
    (size_ v <> capacity_ v -> capacity_ v' = capacity_ v) /\
    (size_ v = capacity_ v -> capacity_ v' = Z.max 1 (2 * capacity_ v)) /\
    r = iterator_at v' k /\
    load r s' = Ret value s'.
Proof.
  intros Hv Hwf Hk Hg. pose proof Hwf as (Hsz & Hcp & _).
  pose proof (length_elements _ _ Hwf) as Hlen.
  destruct (Insert_ok s this v k value Hv Hwf Hk Hg)
    as (s' & v' & Hrun & Hvs & Hwf' & Hsz' & Hcp' & Hel & _).
  assert (Hv' : vecs s' !! this = Some v') by (rewrite Hvs; apply lookup_insert_eq).
  exists s', v', (iterator_at v' k).
  split; [now rewrite (Insert_at_ok s this v k value Hv Hwf Hk)|].
  split; [exact Hv'|]. split; [exact Hwf'|]. split; [exact Hel|].
  split; [exact Hsz'|]. split; [|split; [|split; [reflexivity|]]].
  - intros Hroom. now rewrite decide_False in Hcp'.
  - intros Hfull. rewrite decide_True in Hcp' by assumption.
    destruct (decide (capacity_ v = 0)); lia.
  - apply (load_iterator_at (mem s') s' this v' k value eq_refl Hv' Hwf'); [lia|].
    rewrite Hel. rewrite lookup_app_r by (rewrite length_take; lia).
    rewrite length_take.
    replace (Z.to_nat k - Z.to_nat k `min` length (elements (mem s) v))%nat
      with 0%nat by lia.
    reflexivity.
Qed.

(** X10: [Erase(begin() + k)] for [0 <= k < size] removes the element at
    index [k] and moves the later ones one place down; the size drops by
    one, the capacity and the block stay, and the iterator returned refers
    to the element that followed the erased one, or is [end()] when the last
    element was erased. *)
Theorem Erase_at_removes s this v k :
  vecs s !! this = Some v -> wf_vec (mem s) v ->
  0 <= k < size_ v ->
  exists s' v' r,
    Erase_at this k s = Ret r s' /\
    vecs s' !! this = Some v' /\
    wf_vec (mem s') v' /\
    elements (mem s') v'
    = take (Z.to_nat k) (elements (mem s) v)
      ++ drop (S (Z.to_nat k)) (elements (mem s) v) /\
    size_ v' = size_ v - 1 /\
    capacity_ v' = capacity_ v /\
    data_ v' = data_ v /\
    r = iterator_at v' k /\
    (k = size_ v - 1 -> end_ this s' = Ret r s') /\
    (forall y, elements (mem s) v !! S (Z.to_nat k) = Some y -> load r s' = Ret y s').
Proof.
  intros Hv Hwf Hk. pose proof Hwf as (Hsz & Hcp & _).
  pose proof (length_elements _ _ Hwf) as Hlen.
  destruct (Erase_ok s this v k Hv Hwf Hk)
    as (s' & v' & Hrun & Hvs & Hwf' & Hd & Hsz' & Hcp' & Hel & _).
  assert (Hv' : vecs s' !! this = Some v') by (rewrite Hvs; apply lookup_insert_eq).
  assert (Hit : iterator_at v' k = iterator_at v k).
  { unfold iterator_at. now rewrite Hd. }
  exists s', v', (iterator_at v' k). split.
  { unfold Erase_at. step_with (begin_ok s this v Hv).
    step_with (ptr_add_iterator_at s v k Hwf ltac:(lia)). now rewrite Hit. }
  split; [exact Hv'|]. split; [exact Hwf'|]. split; [exact Hel|].
  split; [exact Hsz'|]. split; [exact Hcp'|]. split; [exact Hd|].
  split; [reflexivity|]. split.
  - intros Hlast. rewrite (end_ok s' this v' Hv').
    rewrite (ptr_add_iterator_at s' v' (size_ v') Hwf' ltac:(lia)).
    do 2 f_equal. lia.
  - intros y Hy.
    assert (Hlt : (S (Z.to_nat k) < length (elements (mem s) v))%nat)
      by (apply lookup_lt_Some in Hy; exact Hy).
    apply (load_iterator_at (mem s') s' this v' k y eq_refl Hv' Hwf'); [lia|].
    rewrite Hel. rewrite lookup_app_r by (rewrite length_take; lia).
    rewrite length_take, lookup_drop.
    replace (S (Z.to_nat k) + (Z.to_nat k - Z.to_nat k `min` length (elements (mem s) v)))%nat
      with (S (Z.to_nat k)) by lia.
    exact Hy.
Qed.

Lemma std_copy_backward_move_nothing s b off d :
  std_copy_backward_move (Ptr b off) (Ptr b off) d s = Ret tt s.
Proof.
  unfold std_copy_backward_move.
  rewrite (bind_Ret _ _ _ _ _ (range_length_ok s b off off ltac:(lia))).
  cbn beta. now replace (Z.to_nat (off - off)) with 0%nat by lia.
Qed.

Lemma bind_unfold {A B} (m : M A) (k : A -> M B) s :
  bind m k s
  = match m s with
    | Ret a s' => k a s'
    | Throw e s' => Throw e s'
    | Undef => Undef
    end.
Proof. reflexivity. Qed.

Lemma PushBack_unfold s this v item :
  vecs s !! this = Some v ->
  PushBack this item s
  = if decide (size_ v = capacity_ v)
    then Recreate this (grown (capacity_ v)) (size_ v) item s
    else (set_size this (to_size_t (size_ v + 1));;
          let* r := ArrayPtr_index (data_ v) (size_ v) in
          store r item) s.
Proof.
  intros Hv. unfold PushBack. step_with (get_vec_ok s this v Hv).
  now destruct (decide (size_ v = capacity_ v)).
Qed.

(** X11: [Insert(end(), value)] is [PushBack(value)]: the same state
    afterwards, the same exception when the block is refused, and the
    iterator returned is [begin() + old size]. *)
Theorem Insert_end_is_PushBack s this v value :
  vecs s !! this = Some v -> wf_vec (mem s) v ->
  Insert_end this value s
  = (PushBack this value;; let* b := begin this in ptr_add b (size_ v)) s.
Proof.
  intros Hv Hwf. pose proof Hwf as (Hsz & Hcp & Hp).
  assert (Hsmall : to_size_t (size_ v) = size_ v)
    by (apply to_size_t_small; unfold SIZE_MAX, PTRDIFF_MAX in *; lia).
  rewrite (bind_unfold (PushBack this value)).
  rewrite (PushBack_unfold s this v value Hv).
  unfold Insert_end.
  erewrite bind_Ret
    by (rewrite (end_ok s this v Hv); apply (ptr_add_iterator_at s v (size_ v) Hwf); lia).
  cbn beta. unfold Insert, InsertInt.
  step_with (begin_ok s this v Hv).
  step_with (ptr_diff_iterator_at_wf s v (size_ v) Hwf ltac:(lia)).
  step_with (get_vec_ok s this v Hv). rewrite Hsmall.
  rewrite bind_unfold.
  destruct (decide (size_ v = capacity_ v)) as [Hfull|Hroom]; [reflexivity|].
  destruct v as [[p] sz cp]; cbn [data_ size_ capacity_ raw_ptr_] in *.
  destruct p as [|b off]; [lia|].
  destruct Hp as (-> & Hcp0 & Hb). destruct (mem s !! b) as [cs|] eqn:Hcs; [|done].
  assert (Hst : forall s1, mem s1 = mem s ->
            store (Ptr b (0 + sz)) value s1
            = Ret tt (set_mem s1 (<[b := <[Z.to_nat sz := value]> cs]> (mem s1)))).
  { intros s1 Hm. replace (0 + sz) with (Z.of_nat (Z.to_nat sz)) by lia.
    apply store_ok; [rewrite Hm; exact Hcs | lia]. }
  rewrite to_size_t_small by (unfold SIZE_MAX, PTRDIFF_MAX in *; lia).
  (* the left side *)
  do 4 pure_step.
  step_with (std_copy_backward_move_nothing s b (0 + sz) (Ptr b (0 + sz + 1))).
  pure_step. step_with (Hst s eq_refl).
  erewrite set_size_ok by (cbn; exact Hv).
  erewrite bind_Ret by (apply begin_ok; cbn; apply lookup_insert_eq).
  (* the right side *)
  erewrite (bind_Ret (set_size _ _)) by (apply set_size_ok; exact Hv).
  cbn beta. pure_step.
  erewrite Hst by reflexivity.
  erewrite bind_Ret by (apply begin_ok; cbn; apply lookup_insert_eq).
  reflexivity.
Qed.

(** ** swap *)

Lemma swap_self s a v :
  vecs s !! a = Some v -> swap a a s = Ret tt s.
Proof.
  intros Ha. unfold swap. rewrite bool_decide_eq_true_2 by reflexivity.
  do 2 step_with (get_vec_ok s a v Ha).
  destruct v as [[p] sz cp].
  cbn [ArrayPtr_swap ArrayPtr_move ArrayPtr_move_assign data_ raw_ptr_].
  assert (Hid : set_vecs s (<[a := MkSimpleVector (MkArrayPtr p) sz cp]> (vecs s)) = s).
  { unfold set_vecs. rewrite insert_id by assumption. apply state_eta. }
  assert (Hd : set_data a (MkArrayPtr p) s = Ret tt s)
    by (rewrite (set_data_ok s a _ _ Ha); cbn; now rewrite Hid).
  assert (Hs : set_size a sz s = Ret tt s)
    by (rewrite (set_size_ok s a _ _ Ha); cbn; now rewrite Hid).
  assert (Hc : set_capacity a cp s = Ret tt s)
    by (rewrite (set_capacity_ok s a _ _ Ha); cbn; now rewrite Hid).
  do 2 step_with Hd. do 2 step_with (get_vec_ok s a _ Ha). cbn [size_].
  do 2 step_with Hs. do 2 step_with (get_vec_ok s a _ Ha). cbn [capacity_].
  step_with Hc. exact Hc.
Qed.

(** X12: [swap] exchanges the blocks, sizes and capacities of two vectors
    and touches neither the free store nor any other vector; swapping twice
    gives back the state, and swapping a vector with itself changes
    nothing. *)
Theorem swap_exchanges s a b va vb :
  vecs s !! a = Some va -> vecs s !! b = Some vb ->
  exists s',
    swap a b s = Ret tt s' /\
    vecs s' !! a = Some vb /\
    vecs s' !! b = Some va /\
    (forall c, c <> a -> c <> b -> vecs s' !! c = vecs s !! c) /\
    mem s' = mem s /\
    swap a b s' = Ret tt s.
Proof.
  intros Ha Hb. destruct (decide (a = b)) as [->|Hne].
  - assert (va = vb) by congruence. subst vb.
    exists s. rewrite (swap_self s b va Ha). repeat split; auto.
  - eexists. split; [apply (swap_ok s a b va vb Hne Ha Hb)|].
    cbn [vecs mem set_vecs].
    split; [solve_lookup|]. split; [solve_lookup|].
    split; [intros c Hca Hcb; now rewrite !lookup_insert_ne by congruence|].
    split; [reflexivity|].
    erewrite swap_ok; [| exact Hne | solve_lookup | solve_lookup].
    unfold set_vecs; cbn [vecs mem].
    rewrite <- (state_eta s) at 3. f_equal. f_equal.
    apply map_eq. intros i.
    destruct (decide (i = b)) as [->|Hib]; [now rewrite lookup_insert_eq|].
    rewrite (lookup_insert_ne _ b) by congruence.
    destruct (decide (i = a)) as [->|Hia]; [now rewrite lookup_insert_eq|].
    now rewrite !lookup_insert_ne by congruence.
Qed.

(** ** Comparisons *)

Lemma equal_loop_decides n : forall s b1 b2 c1 c2 (i j : nat),
  mem s !! b1 = Some c1 -> mem s !! b2 = Some c2 ->
  (i + n <= length c1)%nat -> (j + n <= length c2)%nat ->
  equal_loop n (Ptr b1 (Z.of_nat i)) (Ptr b2 (Z.of_nat j)) s
  = Ret (bool_decide (take n (drop i c1) = take n (drop j c2))) s.
Proof.
  induction n as [|n IH]; intros s b1 b2 c1 c2 i j H1 H2 Hi Hj.
  - cbn. unfold ret. now rewrite bool_decide_eq_true_2.
  - destruct (lookup_lt_is_Some_2 c1 i) as [x Hx]; [lia|].
    destruct (lookup_lt_is_Some_2 c2 j) as [y Hy]; [lia|].
    cbn [equal_loop].
    rewrite (bind_Ret _ _ _ _ _ (load_ok _ _ _ _ _ H1 Hx)).
    rewrite (bind_Ret _ _ _ _ _ (load_ok _ _ _ _ _ H2 Hy)).
    rewrite (drop_S _ _ _ Hx), (drop_S _ _ _ Hy). cbn [take].
    destruct (decide (x = y)) as [->|Hne].
    + cbn [ptr_add]. unfold bind at 1 2. cbn [ret].
      replace (Z.of_nat i + 1) with (Z.of_nat (S i)) by lia.
      replace (Z.of_nat j + 1) with (Z.of_nat (S j)) by lia.
      rewrite (IH s b1 b2 c1 c2 (S i) (S j)) by (auto; lia).
      f_equal. apply bool_decide_ext. split; [congruence|].
      intros [= ?]. assumption.
    + unfold ret. rewrite bool_decide_eq_false_2; [reflexivity|]. congruence.
Qed.

(** X13: on two well-formed vectors [operator==] returns [true] exactly
    when the sizes agree and the elements are equal one by one, and
    [operator!=] returns the opposite; spare capacity plays no part. *)
Theorem operator_eq_decides s lhs rhs v w :
  vecs s !! lhs = Some v -> vecs s !! rhs = Some w ->
  wf_vec (mem s) v -> wf_vec (mem s) w ->
  operator_eq lhs rhs s
  = Ret (bool_decide (elements (mem s) v = elements (mem s) w)) s /\
  operator_ne lhs rhs s
  = Ret (negb (bool_decide (elements (mem s) v = elements (mem s) w))) s.
Proof.
  intros Hv Hw Hwfv Hwfw.
  assert (Heq : operator_eq lhs rhs s
                = Ret (bool_decide (elements (mem s) v = elements (mem s) w)) s).
  { pose proof (length_elements _ _ Hwfv) as Hlv.
    pose proof (length_elements _ _ Hwfw) as Hlw.
    destruct Hwfv as (Hsv & Hcv & Hpv), Hwfw as (Hsw & Hcw & Hpw).
    unfold operator_eq.
    step_with (GetSize_ok s lhs v Hv). step_with (GetSize_ok s rhs w Hw).
    destruct (decide (size_ v = size_ w)) as [Hsize|Hsize].
    - step_with (begin_ok s lhs v Hv).
      unfold bind at 1. rewrite (end_ok s lhs v Hv).
      destruct v as [[p] sz cp], w as [[q] sz' cp']; cbn [data_ size_ capacity_ raw_ptr_] in *.
      subst sz'.
      destruct p as [|b off].
      + assert (sz = 0) by lia. subst sz.
        cbn [ptr_add]. rewrite decide_True by reflexivity. cbn [ret].
        step_with (begin_ok s rhs _ Hw). unfold elements. cbn.
        unfold ret. now rewrite bool_decide_eq_true_2.
      + destruct Hpv as (-> & Hcp0 & Hb). destruct (mem s !! b) as [cs|] eqn:Hcs; [|done].
        cbn [ptr_add ret]. step_with (begin_ok s rhs _ Hw). cbn [data_ raw_ptr_].
        unfold std_equal.
        rewrite (bind_Ret _ _ _ _ _ (range_length_ok s b 0 (0 + sz) ltac:(lia))). cbn beta.
        replace (Z.to_nat (0 + sz - 0)) with (Z.to_nat sz) by lia.
        destruct (decide (sz = 0)) as [->|Hnz].
        { unfold elements. cbn. unfold ret. now rewrite bool_decide_eq_true_2. }
        destruct q as [|b2 off2]; [lia|].
        destruct Hpw as (-> & Hcp0' & Hb2). destruct (mem s !! b2) as [cs2|] eqn:Hcs2; [|done].
        pose proof (equal_loop_decides (Z.to_nat sz) s b b2 cs cs2 0 0 Hcs Hcs2
                      ltac:(lia) ltac:(lia)) as Hloop.
        change (Z.of_nat 0) with 0 in Hloop. rewrite Hloop.
        unfold elements, buffer; cbn [data_ size_ raw_ptr_].
        rewrite Hcs, Hcs2; cbn [from_option id]. now rewrite !drop_0.
    - unfold ret. rewrite bool_decide_eq_false_2; [reflexivity|].
      intros Hel. rewrite Hel in Hlv. lia. }
  split; [exact Heq|]. unfold operator_ne. now step_with Heq.
Qed.

Lemma lex_lt_nil_r l : lex_lt l [] = false.
Proof. now destruct l. Qed.

Lemma readable_cons m b off n :
  readable m (Ptr b off) (S n) ->
  exists x,
    cells_from m (Ptr b off) = x :: cells_from m (Ptr b (off + 1)) /\
    (forall s, mem s = m -> load (Ptr b off) s = Ret x s) /\
    readable m (Ptr b (off + 1)) n.
Proof.
  intros (Hoff & Hlen & [cs Hcs]). cbn [cells_from] in *. rewrite Hcs in *.
  cbn [from_option id] in *. rewrite length_drop in Hlen.
  destruct (lookup_lt_is_Some_2 cs (Z.to_nat off)) as [x Hx]; [lia|].
  exists x. split; [|split].
  - rewrite (drop_S _ _ _ Hx). do 2 f_equal. lia.
  - intros s <-. replace off with (Z.of_nat (Z.to_nat off)) at 1 by lia.
    now apply (load_ok s b cs).
  - split; [lia|]. cbn [cells_from]. rewrite Hcs; cbn [from_option id].
    rewrite length_drop. split; [lia | eauto].
Qed.

Lemma lexicographical_loop_ok n1 : forall n2 p q s,
  readable (mem s) p n1 -> readable (mem s) q n2 ->
  lexicographical_loop n1 n2 p q s
  = Ret (lex_lt (take n1 (cells_from (mem s) p)) (take n2 (cells_from (mem s) q))) s.
Proof.
  induction n1 as [|n1 IH]; intros n2 p q s Hp Hq.
  - destruct n2 as [|n2]; [reflexivity|].
    destruct q as [|b2 off2]; [discriminate|].
    destruct (readable_cons _ _ _ _ Hq) as (y & Hcy & _ & _).
    rewrite Hcy. reflexivity.
  - destruct n2 as [|n2].
    + cbn [lexicographical_loop take]. now rewrite lex_lt_nil_r.
    + destruct p as [|b1 off1]; [discriminate|].
      destruct q as [|b2 off2]; [discriminate|].
      destruct (readable_cons _ _ _ _ Hp) as (x & Hcx & Hlx & Hp').
      destruct (readable_cons _ _ _ _ Hq) as (y & Hcy & Hly & Hq').
      cbn [lexicographical_loop].
      rewrite (bind_Ret _ _ _ _ _ (Hlx s eq_refl)).
      rewrite (bind_Ret _ _ _ _ _ (Hly s eq_refl)).
      rewrite Hcx, Hcy. cbn [take lex_lt].
      destruct (T_lt x y); [reflexivity|]. destruct (T_lt y x); [reflexivity|].
      cbn [ptr_add]. unfold bind at 1 2. cbn [ret].
      now apply IH.
Qed.

Lemma range_length_iterator_at s v :
  wf_vec (mem s) v ->
  range_length (raw_ptr_ (data_ v)) (iterator_at v (size_ v)) s
  = Ret (Z.to_nat (size_ v)) s.
Proof.
  intros (Hsz & Hcp & Hp). unfold iterator_at.
  destruct (raw_ptr_ (data_ v)) as [|b off].
  - replace (size_ v) with 0 by lia. reflexivity.
  - rewrite range_length_ok by lia. do 2 f_equal. lia.
Qed.

Lemma readable_elements m v :
  wf_vec m v ->
  readable m (raw_ptr_ (data_ v)) (Z.to_nat (size_ v)) /\
  take (Z.to_nat (size_ v)) (cells_from m (raw_ptr_ (data_ v))) = elements m v.
Proof.
  intros (Hsz & Hcp & Hp). unfold elements, buffer, readable.
  destruct (raw_ptr_ (data_ v)) as [|b off].
  - split; [lia|]. reflexivity.
  - destruct Hp as (-> & Hpos & Hb). cbn [cells_from].
    destruct (m !! b) as [cs|] eqn:Hcs; [|done]. cbn [from_option id Z.to_nat].
    rewrite drop_0. split; [|reflexivity]. split; [lia|]. split; [lia|eauto].
Qed.

Lemma operator_lt_ok s lhs rhs v w :
  vecs s !! lhs = Some v -> vecs s !! rhs = Some w ->
  wf_vec (mem s) v -> wf_vec (mem s) w ->
  operator_lt lhs rhs s
  = Ret (lex_lt (elements (mem s) v) (elements (mem s) w)) s.
Proof.
  intros Hv Hw Hwfv Hwfw.
  destruct (readable_elements _ _ Hwfv) as [Hrv Hev].
  destruct (readable_elements _ _ Hwfw) as [Hrw Hew].
  pose proof Hwfv as (Hsv & _). pose proof Hwfw as (Hsw & _).
  unfold operator_lt.
  step_with (begin_ok s lhs v Hv).
  erewrite bind_Ret
    by (rewrite (end_ok s lhs v Hv); apply ptr_add_iterator_at; [exact Hwfv | lia]).
  cbn beta. step_with (begin_ok s rhs w Hw).
  erewrite bind_Ret
    by (rewrite (end_ok s rhs w Hw); apply ptr_add_iterator_at; [exact Hwfw | lia]).
  cbn beta. unfold std_lexicographical_compare.
  step_with (range_length_iterator_at s v Hwfv).
  step_with (range_length_iterator_at s w Hwfw).
  rewrite (lexicographical_loop_ok _ _ _ _ s Hrv Hrw). now rewrite Hev, Hew.
Qed.

Lemma lex_lt_irrefl l : (forall x, T_lt x x = false) -> lex_lt l l = false.
Proof.
  intros Hirr. induction l as [|x l IH]; [reflexivity|].
  cbn. now rewrite Hirr.
Qed.

(** X14: [operator<] on two well-formed vectors is the lexicographic order
    of their elements under the element type's [<]; [>], [<=] and [>=] are
    that order with the operands exchanged or the result negated; a vector
    is not below itself when the element order is irreflexive. *)
Theorem operator_lt_lexicographic s lhs rhs v w :
  vecs s !! lhs = Some v -> vecs s !! rhs = Some w ->
  wf_vec (mem s) v -> wf_vec (mem s) w ->
  operator_lt lhs rhs s
  = Ret (lex_lt (elements (mem s) v) (elements (mem s) w)) s /\
  operator_gt lhs rhs s
  = Ret (lex_lt (elements (mem s) w) (elements (mem s) v)) s /\
  operator_le lhs rhs s
  = Ret (negb (lex_lt (elements (mem s) w) (elements (mem s) v))) s /\
  operator_ge lhs rhs s
  = Ret (negb (lex_lt (elements (mem s) v) (elements (mem s) w))) s /\
  ((forall x, T_lt x x = false) ->
   operator_lt lhs lhs s = Ret false s /\ operator_le lhs lhs s = Ret true s).
Proof.
  intros Hv Hw Hwfv Hwfw.
  pose proof (operator_lt_ok s lhs rhs v w Hv Hw Hwfv Hwfw) as Hlt.
  pose proof (operator_lt_ok s rhs lhs w v Hw Hv Hwfw Hwfv) as Hgt.
  pose proof (operator_lt_ok s lhs lhs v v Hv Hv Hwfv Hwfv) as Hself.
  split; [exact Hlt|]. split; [exact Hgt|].
  split; [unfold operator_le; now step_with Hgt|].
  split; [unfold operator_ge; now step_with Hlt|].
  intros Hirr. rewrite (lex_lt_irrefl _ Hirr) in Hself.
  split; [exact Hself|]. unfold operator_le. now step_with Hself.
Qed.

(** ** Assignment: failure, release, self-assignment *)

Lemma SimpleVector_copy_fail s this other o :
  vecs s !! this = None -> vecs s !! other = Some o ->
  0 < size_ o -> grants (mem s) (size_ o) = false ->
  SimpleVector_copy this other s = Throw bad_alloc s.
Proof.
  intros Hnew Ho Hpos Hg. apply constructor_fail; [exact Hnew|].
  set (s0 := set_vecs s (<[this := MkSimpleVector ArrayPtr_default 0 0]> (vecs s))).
  assert (Ho0 : vecs s0 !! other = Some o).
  { subst s0; cbn. rewrite lookup_insert_ne; [exact Ho | congruence]. }
  step_with (get_vec_ok s0 other o Ho0). unfold Construct.
  now rewrite (bind_Throw _ _ _ _ _ (ArrayPtr_sized_fail s0 _ Hpos Hg)).
Qed.

(** X15: copy assignment either fails before it touches anything, with
    [bad_alloc] and the state as it was, or succeeds and then releases the
    block the target held; the temporary it works with is gone in both
    cases. *)
Theorem copy_assign_strong_guarantee s this rhs v w :
  vecs s !! this = Some v -> vecs s !! rhs = Some w ->
  wf_vec (mem s) v -> wf_vec (mem s) w ->
  (0 < size_ w -> grants (mem s) (size_ w) = false ->
   copy_assign this rhs s = Throw bad_alloc s) /\
  ((0 < size_ w -> grants (mem s) (size_ w) = true) ->
   exists s',
     copy_assign this rhs s = Ret tt s' /\
     dom (vecs s') = dom (vecs s) /\
     (forall b off, raw_ptr_ (data_ v) = Ptr b off -> mem s' !! b = None)).
Proof.
  intros Hv Hw Hwfv Hwfw.
  set (tmp := fresh (dom (vecs s))).
  assert (Htmp : vecs s !! tmp = None).
  { apply not_elem_of_dom. apply is_fresh. }
  assert (Hne : this <> tmp) by congruence.
  split.
  - intros Hpos Hg. unfold copy_assign.
    erewrite bind_Ret by reflexivity. cbn beta. fold tmp.
    now rewrite (bind_Throw _ _ _ _ _ (SimpleVector_copy_fail s tmp rhs w Htmp Hw Hpos Hg)).
  - intros Hg.
    destruct (SimpleVector_copy_ok s tmp rhs w Htmp Hw Hwfw Hg)
      as (s1 & t & Hrun1 & Hvs1 & _ & _ & _ & _ & _ & Hkeep).
    assert (Hv1 : vecs s1 !! this = Some v) by (rewrite Hvs1, lookup_insert_ne; auto).
    assert (Ht1 : vecs s1 !! tmp = Some t) by (rewrite Hvs1; apply lookup_insert_eq).
    assert (Hfinal : delete tmp (<[tmp := v]> (<[this := t]> (vecs s1)))
                     = <[this := t]> (vecs s)).
    { rewrite delete_insert_eq, delete_insert_ne by congruence.
      rewrite Hvs1. now rewrite delete_insert_id. }
    assert (Hdom : dom (<[this := t]> (vecs s)) = dom (vecs s)).
    { apply dom_insert_lookup_L. eauto. }
    assert (Hstart : copy_assign this rhs s
                     = SimpleVector_destroy tmp
                         (set_vecs s1 (<[tmp := v]> (<[this := t]> (vecs s1))))).
    { unfold copy_assign. erewrite bind_Ret by reflexivity. cbn beta. fold tmp.
      step_with Hrun1. now step_with (swap_ok s1 this tmp v t Hne Hv1 Ht1). }
    rewrite Hstart. unfold SimpleVector_destroy.
    erewrite bind_Ret by (apply get_vec_ok; solve_lookup). cbn beta.
    unfold ArrayPtr_destroy.
    destruct v as [[p] sz cp]; cbn [data_ raw_ptr_] in *.
    destruct p as [|b off].
    + eexists. split.
      { cbn [delete_array]. erewrite bind_Ret by reflexivity. cbn beta. reflexivity. }
      cbn [vecs mem set_vecs]. rewrite Hfinal. split; [exact Hdom|]. discriminate.
    + destruct (wf_vec_held _ _ _ _ _ Hwfv) as (-> & cs & Hcs & _).
      eexists. split.
      { erewrite bind_Ret by (apply (delete_array_ok _ b cs); cbn; auto).
        cbn beta. reflexivity. }
      cbn [vecs mem set_vecs set_mem]. rewrite Hfinal. split; [exact Hdom|].
      intros b0 off0 [= <- _]. apply lookup_delete_eq.
Qed.

Lemma move_assign_ok s this rhs a b :
  this <> rhs -> vecs s !! this = Some a -> vecs s !! rhs = Some b ->
  exists s',
    move_assign this rhs s = Ret tt s' /\
    vecs s' !! this = Some b /\
    vecs s' !! rhs
    = Some (MkSimpleVector (MkArrayPtr nullptr) (size_ b) (capacity_ b)) /\
    (forall x, x <> this -> x <> rhs -> vecs s' !! x = vecs s !! x) /\
    mem s' = mem s.
Proof.
  intros Hne Ha Hb. destruct a as [[p] sa ca], b as [[q] sb cb].
  eexists. split.
  - unfold move_assign. rewrite bool_decide_eq_false_2 by assumption.
    step_with (get_vec_ok s this _ Ha). step_with (get_vec_ok s rhs _ Hb).
    cbn [ArrayPtr_move_assign data_ raw_ptr_].
    erewrite bind_Ret by (apply set_data_ok; solve_lookup). cbn beta.
    erewrite bind_Ret by (apply set_data_ok; solve_lookup). cbn beta.
    erewrite bind_Ret by (apply get_vec_ok; solve_lookup). cbn beta.
    erewrite bind_Ret by (apply set_size_ok; solve_lookup). cbn beta.
    erewrite bind_Ret by (apply get_vec_ok; solve_lookup). cbn beta.
    erewrite set_capacity_ok by solve_lookup. reflexivity.
  - cbn [vecs mem set_vecs set_mem data_ size_ capacity_].
    split; [solve_lookup|]. split; [solve_lookup|]. split; [|reflexivity].
    intros x Hx1 Hx2. now rewrite !lookup_insert_ne by congruence.
Qed.

(** X16: move assignment leaks.  When [this] is the only vector holding
    its block, after [this = std::move(rhs)] the block is still allocated
    with its cells, and no vector refers to it any more. *)
Theorem move_assign_leaks_target_block s this rhs a b blk off cs :
  this <> rhs -> vecs s !! this = Some a -> vecs s !! rhs = Some b ->
  raw_ptr_ (data_ a) = Ptr blk off -> mem s !! blk = Some cs ->
  (forall x u off', x <> this -> vecs s !! x = Some u ->
                    raw_ptr_ (data_ u) <> Ptr blk off') ->
  exists s',
    move_assign this rhs s = Ret tt s' /\
    mem s' !! blk = Some cs /\
    (forall x u off', vecs s' !! x = Some u -> raw_ptr_ (data_ u) <> Ptr blk off').
Proof.
  intros Hne Ha Hb Hblk Hcs Honly.
  destruct (move_assign_ok s this rhs a b Hne Ha Hb)
    as (s' & Hrun & Hthis & Hrhs & Hothers & Hmem).
  exists s'. split; [exact Hrun|]. split; [now rewrite Hmem|].
  intros x u off' Hx.
  destruct (decide (x = this)) as [->|Hx1].
  - assert (u = b) by congruence. subst u.
    apply (Honly rhs); [congruence | exact Hb].
  - destruct (decide (x = rhs)) as [->|Hx2].
    + assert (u = MkSimpleVector (MkArrayPtr nullptr) (size_ b) (capacity_ b))
        by congruence.
      subst u. discriminate.
    + rewrite Hothers in Hx by assumption. now apply (Honly x).
Qed.

(** X17: a vector move-assigned to itself is left as it is: the test
    [this != &other] of [ArrayPtr] keeps the block, and the size and the
    capacity are assigned to themselves. *)
Theorem move_assign_self_keeps s this v :
  vecs s !! this = Some v ->
  move_assign this this s = Ret tt s.
Proof.
  intros Hv. destruct v as [[p] sz cp].
  assert (Hid : forall s0 : state, vecs s0 = vecs s -> mem s0 = mem s -> s0 = s).
  { intros [m0 o0] Ho Hm. cbn in *. subst. apply state_eta. }
  unfold move_assign. rewrite bool_decide_eq_true_2 by reflexivity.
  step_with (get_vec_ok s this _ Hv). step_with (get_vec_ok s this _ Hv).
  cbn [ArrayPtr_move_assign data_ raw_ptr_].
  erewrite bind_Ret by (apply set_data_ok; solve_lookup). cbn beta.
  erewrite bind_Ret by (apply set_data_ok; solve_lookup). cbn beta.
  erewrite bind_Ret by (apply get_vec_ok; solve_lookup). cbn beta.
  erewrite bind_Ret by (apply set_size_ok; solve_lookup). cbn beta.
  erewrite bind_Ret by (apply get_vec_ok; solve_lookup). cbn beta.
  erewrite set_capacity_ok by solve_lookup.
  f_equal. apply Hid; [|reflexivity].
  cbn [vecs mem set_vecs set_mem data_ size_ capacity_].
  rewrite !insert_insert_eq. now apply insert_id.
Qed.

(** ** The invariants under every member function *)

Lemma write_index_ok s this v index x :
  vecs s !! this = Some v -> wf_vec (mem s) v -> 0 <= index < size_ v ->
  exists s',
    write_index this index x s = Ret tt s' /\
    vecs s' = vecs s /\
    wf_vec (mem s') v /\
    (forall b cs, mem s !! b = Some cs -> Ptr b 0 <> raw_ptr_ (data_ v) ->
                  mem s' !! b = Some cs).
Proof.
  intros Hv Hwf Hi. pose proof Hwf as (Hsz & Hcp & Hp).
  destruct v as [[p] sz cp]; cbn [data_ size_ capacity_ raw_ptr_] in *.
  destruct p as [|b off]; [lia|].
  destruct Hp as (-> & Hcp0 & Hb). destruct (mem s !! b) as [cs|] eqn:Hcs; [|done].
  exists (set_mem s (<[b := <[Z.to_nat index := x]> cs]> (mem s))).
  split.
  { unfold write_index. erewrite bind_Ret
      by (rewrite (operator_index_ok s this _ index Hv); reflexivity).
    cbn beta. cbn [raw_ptr_ data_].
    replace (0 + index) with (Z.of_nat (Z.to_nat index)) by lia.
    apply store_ok; [exact Hcs | lia]. }
  cbn [vecs mem set_mem]. split; [reflexivity|]. split.
  - unfold wf_vec; cbn [size_ capacity_ data_ raw_ptr_].
    rewrite lookup_insert_eq, length_insert. repeat split; lia.
  - intros b0 cs0 Hb0 Hne. rewrite lookup_insert_ne by congruence. exact Hb0.
Qed.

Lemma run_operation_ok s this v o :
  vecs s !! this = Some v -> wf_vec (mem s) v -> precondition v o ->
  run_operation this o s = Throw bad_alloc s \/
  exists s' v',
    run_operation this o s = Ret tt s' /\
    vecs s' = <[this := v']> (vecs s) /\
    wf_vec (mem s') v' /\
    (forall b cs, mem s !! b = Some cs -> Ptr b 0 <> raw_ptr_ (data_ v) ->
                  mem s' !! b = Some cs).
Proof.
  intros Hv Hwf Hpre. pose proof Hwf as (Hsz & Hcp & Hp).
  pose proof (grown_pos (capacity_ v) ltac:(lia)) as Hgrown.
  destruct o as [item| | |new_size|new_capacity|k value|k|index x];
    cbn [run_operation precondition] in *.
  - destruct (decide (size_ v = capacity_ v)) as [Hfull|Hroom].
    + destruct (grants (mem s) (grown (capacity_ v))) eqn:Hg.
      * right.
        destruct (PushBack_ok s this v item Hv Hwf (fun _ => Hg))
          as (s' & v' & Hrun & Hvs & Hwf' & _ & _ & _ & Hkeep & _).
        exists s', v'. auto.
      * left. unfold PushBack. step_with (get_vec_ok s this v Hv).
        rewrite decide_True by assumption. now apply Recreate_fail.
    + right.
      destruct (PushBack_ok s this v item Hv Hwf ltac:(intros; contradiction))
        as (s' & v' & Hrun & Hvs & Hwf' & _ & _ & _ & Hkeep & _).
      exists s', v'. auto.
  - right. destruct (PopBack_ok s this v Hv Hwf Hpre) as (Hrun & Hwf' & _).
    eexists _, _. split; [exact Hrun|]. cbn [vecs mem set_vecs]. auto.
  - right. destruct (Clear_ok s this v Hv Hwf) as (Hrun & Hwf').
    eexists _, _. split; [exact Hrun|]. cbn [vecs mem set_vecs]. auto.
  - destruct (decide (capacity_ v < new_size)) as [Hgrow|Hfit].
    + destruct (grants (mem s) new_size) eqn:Hg.
      * right.
        destruct (Resize_ok s this v new_size Hv Hwf ltac:(lia) (fun _ => Hg))
          as (s' & v' & Hrun & Hvs & Hwf' & _ & _ & _ & Hkeep).
        exists s', v'. auto.
      * left. unfold Resize. step_with (get_vec_ok s this v Hv).
        rewrite decide_False by lia.
        now rewrite (bind_Throw _ _ _ _ _ (ArrayPtr_sized_fail s new_size ltac:(lia) Hg)).
    + right.
      destruct (Resize_ok s this v new_size Hv Hwf ltac:(lia) ltac:(intros; lia))
        as (s' & v' & Hrun & Hvs & Hwf' & _ & _ & _ & Hkeep).
      exists s', v'. auto.
  - destruct (decide (capacity_ v < new_capacity)) as [Hgrow|Hfit].
    + destruct (grants (mem s) new_capacity) eqn:Hg.
      * right.
        destruct (Reserve_ok s this v new_capacity Hv Hwf (fun _ => Hg))
          as (s' & v' & Hrun & Hvs & Hwf' & _ & _ & _ & _ & Hkeep).
        exists s', v'. auto.
      * left. unfold Reserve. step_with (get_vec_ok s this v Hv).
        rewrite decide_False by lia.
        now rewrite (bind_Throw _ _ _ _ _
                       (ArrayPtr_sized_fail s new_capacity ltac:(lia) Hg)).
    + right.
      destruct (Reserve_ok s this v new_capacity Hv Hwf ltac:(intros; lia))
        as (s' & v' & Hrun & Hvs & Hwf' & _ & _ & _ & _ & Hkeep).
      exists s', v'. auto.
  - rewrite bind_unfold, (Insert_at_ok s this v k value Hv Hwf Hpre).
    assert (Hfail : size_ v = capacity_ v ->
                    grants (mem s) (grown (capacity_ v)) = false ->
                    Insert this (iterator_at v k) value s = Throw bad_alloc s).
    { intros Hfull Hg. unfold Insert, InsertInt.
      step_with (begin_ok s this v Hv).
      step_with (ptr_diff_iterator_at s v k).
      step_with (get_vec_ok s this v Hv). rewrite decide_True by assumption.
      unfold bind at 1. now rewrite Recreate_fail. }
    assert (Hok : (size_ v = capacity_ v ->
                   grants (mem s) (grown (capacity_ v)) = true) ->
                  exists s' v',
                    Insert this (iterator_at v k) value s = Ret (iterator_at v' k) s' /\
                    vecs s' = <[this := v']> (vecs s) /\
                    wf_vec (mem s') v' /\
                    (forall b cs, mem s !! b = Some cs ->
                                  Ptr b 0 <> raw_ptr_ (data_ v) ->
                                  mem s' !! b = Some cs)).
    { intros Hg.
      destruct (Insert_ok s this v k value Hv Hwf Hpre Hg)
        as (s' & v' & Hrun & Hvs & Hwf' & _ & _ & _ & Hkeep).
      exists s', v'. auto. }
    destruct (decide (size_ v = capacity_ v)) as [Hfull|Hroom].
    + destruct (grants (mem s) (grown (capacity_ v))) eqn:Hg.
      * right. destruct (Hok (fun _ => eq_refl)) as (s' & v' & Hrun & Hrest).
        exists s', v'. rewrite Hrun. auto.
      * left. now rewrite Hfail.
    + right. destruct (Hok ltac:(intros; contradiction)) as (s' & v' & Hrun & Hrest).
      exists s', v'. rewrite Hrun. auto.
  - right.
    destruct (Erase_ok s this v k Hv Hwf Hpre)
      as (s' & v' & Hrun & Hvs & Hwf' & _ & _ & _ & _ & Hkeep).
    exists s', v'. split; [|auto].
    rewrite bind_unfold. unfold Erase_at.
    step_with (begin_ok s this v Hv).
    step_with (ptr_add_iterator_at s v k Hwf ltac:(lia)). now rewrite Hrun.
  - right.
    destruct (write_index_ok s this v index x Hv Hwf Hpre)
      as (s' & Hrun & Hvs & Hwf' & Hkeep).
    exists s', v. split; [exact Hrun|]. split; [|auto].
    rewrite Hvs. symmetry. now apply insert_id.
Qed.

(** X18: the invariants are inductive and the member functions are safe.
    From a well-formed vector, any sequence of [PushBack], [PopBack],
    [Clear], [Resize], [Reserve], [Insert], [Erase] and writes through
    [operator[]] whose preconditions the caller keeps either runs to the end
    or stops with [bad_alloc]; it never has undefined behaviour, and in
    both cases the vector is well formed in the state reached. *)
Theorem operations_keep_invariants os : forall s this v,
  vecs s !! this = Some v -> wf_vec (mem s) v -> admissible this os s ->
  exists s' v',
    (run_operations this os s = Ret tt s' \/
     run_operations this os s = Throw bad_alloc s') /\
    vecs s' !! this = Some v' /\ wf_vec (mem s') v'.
Proof.
  induction os as [|o os IH]; intros s this v Hv Hwf Hadm.
  - exists s, v. cbn. auto.
  - destruct Hadm as (v0 & Hv0 & Hpre & Hnext).
    assert (v0 = v) by congruence. subst v0.
    cbn [run_operations]. rewrite bind_unfold.
    destruct (run_operation_ok s this v o Hv Hwf Hpre)
      as [Hthrow|(s1 & v1 & Hrun & Hvs & Hwf1 & _)].
    + rewrite Hthrow. exists s, v. auto.
    + rewrite Hrun.
      apply (IH s1 this v1); [rewrite Hvs; apply lookup_insert_eq | exact Hwf1 |].
      now apply Hnext.
Qed.

(** ** Lifetimes *)

(** X19: the life of an [ArrayPtr].  [ArrayPtr(n)] for [n > 0] takes a
    block that was not allocated, of [n] cells, and tests as [true]; its
    destructor gives the store back as it was, and a second [delete[]] of
    the same pointer is undefined; after [Release()] the object tests as
    [false], its destructor frees nothing, and the pointer released builds
    the same [ArrayPtr] again.  [ArrayPtr(0)] holds no block. *)
Theorem ArrayPtr_lifetime s n :
  0 < n -> grants (mem s) n = true ->
  ArrayPtr_sized 0 s = Ret ArrayPtr_default s /\
  exists a s1 b cs,
    ArrayPtr_sized n s = Ret a s1 /\
    Get a = Ptr b 0 /\ ArrayPtr_bool a = true /\
    mem s !! b = None /\ mem s1 !! b = Some cs /\ Z.of_nat (length cs) = n /\
    ArrayPtr_destroy a s1 = Ret tt s /\
    ArrayPtr_destroy a s = Undef /\
    ArrayPtr_bool (snd (Release a)) = false /\
    ArrayPtr_destroy (snd (Release a)) s1 = Ret tt s1 /\
    ArrayPtr_from_raw (fst (Release a)) = a.
Proof.
  intros Hn Hg. split; [now apply ArrayPtr_sized_zero|].
  pose proof (fresh_block_None (mem s)) as Hfresh.
  set (b := fresh_block (mem s)) in *.
  set (fc := fresh_cell <$> seq 0 (Z.to_nat n)).
  exists (MkArrayPtr (Ptr b 0)),
         (set_mem s (<[b := fc]> (mem s))), b, fc.
  split; [now apply ArrayPtr_sized_ok|].
  split; [reflexivity|]. split; [reflexivity|]. split; [exact Hfresh|].
  split; [cbn; apply lookup_insert_eq|].
  split; [apply length_fresh_cells; lia|]. split; [|split].
  - unfold ArrayPtr_destroy; cbn [raw_ptr_].
    rewrite (delete_array_ok _ b fc) by (cbn; apply lookup_insert_eq).
    unfold set_mem; cbn [mem vecs].
    rewrite delete_insert_id by exact Hfresh. now rewrite state_eta.
  - unfold ArrayPtr_destroy, delete_array; cbn [raw_ptr_].
    rewrite decide_True by reflexivity. now rewrite Hfresh.
  - repeat split.
Qed.

Lemma SimpleVector_destroy_ok s this v :
  vecs s !! this = Some v -> wf_vec (mem s) v ->
  exists m',
    SimpleVector_destroy this s = Ret tt (MkState m' (delete this (vecs s))) /\
    (forall b, raw_ptr_ (data_ v) = Ptr b 0 -> m' !! b = None) /\
    (forall b, Ptr b 0 <> raw_ptr_ (data_ v) -> m' !! b = mem s !! b).
Proof.
  intros Hv Hwf. unfold SimpleVector_destroy.
  step_with (get_vec_ok s this v Hv). unfold ArrayPtr_destroy.
  destruct v as [[p] sz cp]; cbn [data_ raw_ptr_] in *.
  destruct p as [|b off].
  - exists (mem s). split; [|split; [discriminate | reflexivity]].
    cbn [delete_array]. erewrite bind_Ret by reflexivity. reflexivity.
  - destruct (wf_vec_held _ _ _ _ _ Hwf) as (-> & cs & Hcs & _).
    exists (delete b (mem s)). split; [|split].
    + erewrite bind_Ret by (apply (delete_array_ok _ b cs); exact Hcs). reflexivity.
    + intros b0 [= <-]. apply lookup_delete_eq.
    + intros b0 Hb0. apply lookup_delete_ne. congruence.
Qed.

(** X20: a vector that is constructed and then destroyed leaves nothing
    behind: after [SimpleVector(size, value)] the destructor removes the
    object and returns its block, and the state is the one before the
    construction. *)
Theorem construct_destroy_roundtrip s this size value :
  vecs s !! this = None -> 0 <= size ->
  (0 < size -> grants (mem s) size = true) ->
  (SimpleVector_fill this size value;; SimpleVector_destroy this) s = Ret tt s.
Proof.
  intros Hnew Hsize Hg.
  destruct (SimpleVector_fill_ok s this size value Hnew Hsize Hg)
    as (s1 & v1 & Hrun & Hvs & Hwf & _ & Hcp1 & _ & Hzero & Hfresh & _ & Hothers).
  assert (Hv1 : vecs s1 !! this = Some v1) by (rewrite Hvs; apply lookup_insert_eq).
  destruct (SimpleVector_destroy_ok s1 this v1 Hv1 Hwf) as (m' & Hd & Hgone & Hrest).
  step_with Hrun. rewrite Hd. f_equal.
  rewrite Hvs, delete_insert_id by exact Hnew.
  rewrite <- (state_eta s) at 2. f_equal.
  apply map_eq. intros b0.
  destruct (raw_ptr_ (data_ v1)) as [|b off] eqn:Hp.
  - rewrite Hrest by discriminate.
    pose proof Hwf as (Hs & _ & Hc). rewrite Hp in Hc.
    rewrite Hzero; [reflexivity | lia].
  - pose proof Hwf as (_ & _ & Hc). rewrite Hp in Hc. destruct Hc as (-> & _).
    destruct (decide (b0 = b)) as [->|Hne].
    + rewrite (Hgone b eq_refl). symmetry. now apply Hfresh.
    + rewrite Hrest by congruence. now apply (Hothers b).
Qed.

(** ** Runs of PushBack *)

Lemma PushBack_room s this b sz cp cs item :
  vecs s !! this = Some (MkSimpleVector (MkArrayPtr (Ptr b 0)) sz cp) ->
  mem s !! b = Some cs -> Z.of_nat (length cs) = cp ->
  0 <= sz < cp -> cp <= PTRDIFF_MAX ->
  PushBack this item s
  = Ret tt (MkState (<[b := <[Z.to_nat sz := item]> cs]> (mem s))
                    (<[this := MkSimpleVector (MkArrayPtr (Ptr b 0)) (sz + 1) cp]> (vecs s))).
Proof.
  intros Hv Hcs Hlen Hsz Hcp. rewrite (PushBack_unfold s this _ item Hv).
  cbn [size_ capacity_ data_]. rewrite decide_False by lia.
  rewrite to_size_t_small by (unfold SIZE_MAX, PTRDIFF_MAX in *; lia).
  step_with (set_size_ok s this _ (sz + 1) Hv).
  cbn [ArrayPtr_index raw_ptr_ ptr_add data_ size_ capacity_].
  rewrite bind_ret_l.
  replace (0 + sz) with (Z.of_nat (Z.to_nat sz)) by lia.
  rewrite (store_ok _ b cs) by (cbn; first [exact Hcs | lia]).
  reflexivity.
Qed.

(** X21: pushes that fit into the capacity never reallocate.  When
    [size + n <= capacity], [n] calls of [PushBack] succeed without asking
    the free store for anything: the vector keeps its block and its
    capacity, so iterators stay valid, the set of allocated blocks is the
    same, and the items are appended in order. *)
Theorem PushBack_within_capacity_keeps_block items : forall s this v,
  vecs s !! this = Some v -> wf_vec (mem s) v ->
  size_ v + Z.of_nat (length items) <= capacity_ v ->
  exists s' v',
    push_all this items s = Ret tt s' /\
    vecs s' = <[this := v']> (vecs s) /\
    wf_vec (mem s') v' /\
    data_ v' = data_ v /\
    capacity_ v' = capacity_ v /\
    size_ v' = size_ v + Z.of_nat (length items) /\
    elements (mem s') v' = elements (mem s) v ++ items /\
    dom (mem s') = dom (mem s).
Proof.
  induction items as [|item items IH]; intros s this v Hv Hwf Hfit.
  - exists s, v. cbn [push_all length]. rewrite app_nil_r.
    repeat split; try apply Hwf; try lia.
    symmetry. now apply insert_id.
  - cbn [length] in Hfit. pose proof Hwf as (Hsz & Hcp & Hp).
    destruct (PushBack_ok s this v item Hv Hwf ltac:(intros; lia))
      as (s1 & v1 & Hrun1 & Hvs1 & Hwf1 & Hsz1 & _ & Hel1 & _).
    destruct v as [[p] sz cp]; cbn [data_ size_ capacity_ raw_ptr_] in *.
    destruct p as [|b off]; [lia|].
    destruct (wf_vec_held _ _ _ _ _ Hwf) as (-> & cs & Hcs & Hlen).
    pose proof (PushBack_room s this b sz cp cs item Hv Hcs Hlen ltac:(lia) Hcp) as Hexact.
    rewrite Hrun1 in Hexact. injection Hexact as Hs1. subst s1.
    cbn [vecs mem] in *.
    assert (v1 = MkSimpleVector (MkArrayPtr (Ptr b 0)) (sz + 1) cp).
    { apply (f_equal (fun m => m !! this)) in Hvs1.
      rewrite !lookup_insert_eq in Hvs1. congruence. }
    subst v1. clear Hvs1.
    set (s1 := MkState (<[b := <[Z.to_nat sz := item]> cs]> (mem s))
                       (<[this := MkSimpleVector (MkArrayPtr (Ptr b 0)) (sz + 1) cp]> (vecs s))).
    destruct (IH s1 this (MkSimpleVector (MkArrayPtr (Ptr b 0)) (sz + 1) cp))
      as (s' & v' & Hrun & Hvs & Hwf' & Hd & Hc & Hs & Hel & Hdom).
    { subst s1; cbn. apply lookup_insert_eq. }
    { exact Hwf1. }
    { cbn [size_ capacity_]. lia. }
    exists s', v'. split.
    { cbn [push_all]. now step_with Hrun1. }
    cbn [size_ capacity_ data_] in *.
    split; [rewrite Hvs; subst s1; cbn; apply insert_insert_eq|].
    split; [exact Hwf'|]. split; [exact Hd|]. split; [exact Hc|].
    split; [cbn [length]; lia|]. split.
    + rewrite Hel. subst s1; cbn [mem]. rewrite Hel1. now rewrite <- app_assoc.
    + rewrite Hdom. subst s1; cbn [mem]. apply dom_insert_lookup_L. eauto.
Qed.

Lemma push_all_ok items : forall s this v,
  vecs s !! this = Some v -> wf_vec (mem s) v -> doubling_capacity v ->
  (forall m n, 0 < n < 2 * (size_ v + Z.of_nat (length items)) -> grants m n = true) ->
  exists s' v',
    push_all this items s = Ret tt s' /\
    vecs s' = <[this := v']> (vecs s) /\
    wf_vec (mem s') v' /\
    doubling_capacity v' /\
    size_ v' = size_ v + Z.of_nat (length items) /\
    elements (mem s') v' = elements (mem s) v ++ items.
Proof.
  induction items as [|item items IH]; intros s this v Hv Hwf Hinv Hg.
  - exists s, v. cbn [push_all length]. rewrite app_nil_r.
    repeat split; try apply Hwf; try assumption; try lia.
    symmetry. now apply insert_id.
  - cbn [length] in Hg. pose proof Hwf as (Hsz & Hcp & _).
    assert (Hgrown : size_ v = capacity_ v ->
                     grants (mem s) (grown (capacity_ v)) = true).
    { intros Hfull. apply Hg. rewrite grown_wf by lia.
      destruct (decide (capacity_ v = 0)); lia. }
    destruct (PushBack_ok s this v item Hv Hwf Hgrown)
      as (s1 & v1 & Hrun1 & Hvs1 & Hwf1 & Hsz1 & Hcp1 & Hel1 & _).
    assert (Hinv1 : doubling_capacity v1).
    { right. destruct (decide (size_ v = capacity_ v)) as [Hfull|Hroom].
      - destruct (decide (capacity_ v = 0)) as [Hz|Hnz].
        + exists 0. rewrite Hcp1, Hsz1. cbn. lia.
        + destruct Hinv as [[_ Hc0]|(k & Hk & Hpow & Hhalf)]; [contradiction|].
          exists (k + 1). rewrite Hcp1, Hsz1, Hpow.
          rewrite Z.pow_add_r by lia. cbn. lia.
      - destruct Hinv as [[Hs0 Hc0]|(k & Hk & Hpow & Hhalf)]; [lia|].
        exists k. rewrite Hcp1, Hsz1. split; [exact Hk|]. split; [exact Hpow|]. lia. }
    destruct (IH s1 this v1) as (s' & v' & Hrun & Hvs & Hwf' & Hinv' & Hs & Hel);
      [rewrite Hvs1; apply lookup_insert_eq | exact Hwf1 | exact Hinv1 | |].
    { intros m n Hn. apply Hg. lia. }
    exists s', v'. split.
    { cbn [push_all]. now step_with Hrun1. }
    split; [rewrite Hvs, Hvs1; apply insert_insert_eq|].
    split; [exact Hwf'|]. split; [exact Hinv'|]. split; [cbn [length]; lia|].
    rewrite Hel, Hel1. now rewrite <- app_assoc.
Qed.

(** X22: the growth policy.  From a vector with no storage, [n >= 1]
    calls of [PushBack] whose requests the free store grants leave the
    items in order in a block whose capacity is a power of two with
    [n <= capacity < 2 * n]; no request is larger than that. *)
Theorem PushBack_capacity_doubles items s this :
  vecs s !! this = Some (MkSimpleVector ArrayPtr_default 0 0) ->
  items <> [] ->
  (forall m n, 0 < n < 2 * Z.of_nat (length items) -> grants m n = true) ->
  exists s' v',
    push_all this items s = Ret tt s' /\
    vecs s' !! this = Some v' /\
    wf_vec (mem s') v' /\
    size_ v' = Z.of_nat (length items) /\
    elements (mem s') v' = items /\
    exists k, 0 <= k /\ capacity_ v' = 2 ^ k /\
              Z.of_nat (length items) <= capacity_ v' < 2 * Z.of_nat (length items).
Proof.
  intros Hv Hne Hg.
  destruct (push_all_ok items s this _ Hv (wf_vec_empty _))
    as (s' & v' & Hrun & Hvs & Hwf & Hinv & Hsz & Hel).
  { left. split; reflexivity. }
  { cbn [size_]. exact Hg. }
  cbn [size_] in Hsz.
  assert (Hpos : 0 < Z.of_nat (length items)) by (destruct items; [done | cbn; lia]).
  exists s', v'. split; [exact Hrun|].
  split; [rewrite Hvs; apply lookup_insert_eq|]. split; [exact Hwf|].
  split; [lia|]. split; [rewrite Hel; reflexivity|].
  destruct Hinv as [[Hs0 _]|(k & Hk & Hpow & Hhalf)]; [lia|].
  exists k. destruct Hwf as (Hs & _). rewrite Hsz in *. lia.
Qed.

(** X23: [Insert(begin() + k, value)] followed by [Erase(begin() + k)]
    gives back the elements and the size at every position [k] of the
    vector, with or without a reallocation in between; the capacity does
    not shrink. *)
Theorem Insert_Erase_at_roundtrip s this v k value :
  vecs s !! this = Some v -> wf_vec (mem s) v ->
  0 <= k <= size_ v ->
  (size_ v = capacity_ v -> grants (mem s) (grown (capacity_ v)) = true) ->
  exists s' v',
    (Insert_at this k value;; Erase_at this k;; ret tt) s = Ret tt s' /\
    vecs s' !! this = Some v' /\
    wf_vec (mem s') v' /\
    elements (mem s') v' = elements (mem s) v /\
    size_ v' = size_ v /\
    capacity_ v <= capacity_ v'.
Proof.
  intros Hv Hwf Hk Hg. pose proof Hwf as (Hsz & Hcp & _).
  pose proof (length_elements _ _ Hwf) as Hlen.
  destruct (Insert_ok s this v k value Hv Hwf Hk Hg)
    as (s1 & v1 & Hrun1 & Hvs1 & Hwf1 & Hsz1 & Hcp1 & Hel1 & _).
  assert (Hv1 : vecs s1 !! this = Some v1) by (rewrite Hvs1; apply lookup_insert_eq).
  destruct (Erase_ok s1 this v1 k Hv1 Hwf1 ltac:(lia))
    as (s2 & v2 & Hrun2 & Hvs2 & Hwf2 & _ & Hsz2 & Hcp2 & Hel2 & _).
  exists s2, v2. split.
  { rewrite bind_unfold, (Insert_at_ok s this v k value Hv Hwf Hk), Hrun1.
    rewrite bind_unfold. unfold Erase_at.
    step_with (begin_ok s1 this v1 Hv1).
    step_with (ptr_add_iterator_at s1 v1 k Hwf1 ltac:(lia)). now rewrite Hrun2. }
  split; [rewrite Hvs2; apply lookup_insert_eq|]. split; [exact Hwf2|].
  split; [|split; [lia|]].
  - rewrite Hel2, Hel1.
    assert (Hlk : length (take (Z.to_nat k) (elements (mem s) v)) = Z.to_nat k)
      by (rewrite length_take; lia).
    rewrite take_app_length' by (symmetry; exact Hlk).
    rewrite (cons_middle value), app_assoc.
    rewrite drop_app_length' by (rewrite length_app, Hlk; cbn; lia).
    apply take_drop.
  - rewrite Hcp2, Hcp1.
    destruct (decide (size_ v = capacity_ v)); [|lia].
    destruct (decide (capacity_ v = 0)); lia.
Qed.

End Model.


Arguments Ret {T A} a s.
Arguments Throw {T A} e s.
Arguments Undef {T A}.

(** * A concrete instance: vectors of integers *)

(** Elements are integers; a moved-from integer keeps its value, fresh cells
    hold 0, [int()] is 0, and the free store grants at most 8 elements at a
    time. *)
Definition int_moved_from (x : Z) : Z := x.
Definition int_fresh_cell (_ : nat) : Z := 0.
Definition int_can_alloc (_ : gmap block (list Z)) (n : Z) : bool :=
  bool_decide (n <= 8).

Definition empty_state : @state Z := MkState ∅ ∅.

(** The state a program ends in, when it returns. *)
Definition state_after (prog : @M Z unit) (s : @state Z) : @state Z :=
  match prog s with
  | Ret _ s' => s'
  | _ => s
  end.

Definition va : var := 1%positive.
Definition vb : var := 2%positive.

(** [SimpleVector<int> a(3, 7);] *)
Definition state_777 : @state Z :=
  state_after (SimpleVector_fill int_fresh_cell int_can_alloc va 3 7) empty_state.

Definition vec_777 : SimpleVector := MkSimpleVector (MkArrayPtr (Ptr 1%positive 0)) 3 3.

(** [SimpleVector<int> a; a.PushBack(1); a.PushBack(2); a.PushBack(3);] *)
Definition state_123 : @state Z :=
  state_after
    (bind (SimpleVector_default va) (fun _ =>
     bind (PushBack int_moved_from int_fresh_cell int_can_alloc va 1) (fun _ =>
     bind (PushBack int_moved_from int_fresh_cell int_can_alloc va 2) (fun _ =>
     PushBack int_moved_from int_fresh_cell int_can_alloc va 3))))
    empty_state.

Definition vec_123 : SimpleVector := MkSimpleVector (MkArrayPtr (Ptr 3%positive 0)) 3 4.

(** [SimpleVector<int> a(8, 1);]: as large as the free store allows. *)
Definition state_full : @state Z :=
  state_after (SimpleVector_fill int_fresh_cell int_can_alloc va 8 1) empty_state.

Definition vec_full : SimpleVector := MkSimpleVector (MkArrayPtr (Ptr 1%positive 0)) 8 8.

(** [SimpleVector<int> a(3, 7); SimpleVector<int> b(2, 9);] *)
Definition state_two : @state Z :=
  state_after (SimpleVector_fill int_fresh_cell int_can_alloc vb 2 9) state_777.

Definition vec_99 : SimpleVector := MkSimpleVector (MkArrayPtr (Ptr 2%positive 0)) 2 2.

(** [SimpleVector<int> a(Reserve(4));] *)
Definition state_reserved : @state Z :=
  state_after
    (SimpleVector_reserved int_moved_from int_fresh_cell int_can_alloc va 4)
    empty_state.

Definition vec_reserved : SimpleVector :=
  MkSimpleVector (MkArrayPtr (Ptr 1%positive 0)) 0 4.

(** ** The theorems at these states *)

Ltac by_evaluation := vm_compute; reflexivity.
Ltac wf_by_evaluation := apply wf_vecb_true; vm_compute; reflexivity.

Lemma state_777_va : vecs state_777 !! va = Some vec_777.
Proof. by_evaluation. Defined.

Lemma state_777_wf : wf_vec (mem state_777) vec_777.
Proof. wf_by_evaluation. Defined.

Lemma state_123_va : vecs state_123 !! va = Some vec_123.
Proof. by_evaluation. Defined.

Lemma state_123_wf : wf_vec (mem state_123) vec_123.
Proof. wf_by_evaluation. Defined.

Lemma state_full_va : vecs state_full !! va = Some vec_full.
Proof. by_evaluation. Defined.

Lemma state_full_wf : wf_vec (mem state_full) vec_full.
Proof. wf_by_evaluation. Defined.

Lemma PushBack_appends_witness :
  vecs state_777 !! va = Some vec_777 /\
  wf_vec (mem state_777) vec_777 /\
  (size_ vec_777 = capacity_ vec_777 ->
   grants int_can_alloc (mem state_777) (grown (capacity_ vec_777)) = true) /\
  exists s' v',
    PushBack int_moved_from int_fresh_cell int_can_alloc va 5 state_777 = Ret tt s' /\
    vecs s' !! va = Some v' /\
    read_At va 3 s' = Ret 5 s' /\
    size_ v' = 4 /\ capacity_ v' = 6 /\
    elements (mem s') v' = [7; 7; 7; 5].
Proof.
  assert (Hg : size_ vec_777 = capacity_ vec_777 ->
               grants int_can_alloc (mem state_777) (grown (capacity_ vec_777)) = true)
    by (intros _; by_evaluation).
  split; [exact state_777_va|]. split; [exact state_777_wf|]. split; [exact Hg|].
  destruct (PushBack_appends int_moved_from int_fresh_cell int_can_alloc
              state_777 va vec_777 5 state_777_va state_777_wf Hg)
    as (s' & v' & Hrun & Hv' & Hread & Hsz & Hroom & Hcap0 & Hcap & Hel & Hkeep).
  exists s', v'. split; [exact Hrun|]. split; [exact Hv'|].
  split; [rewrite Hsz in Hread; exact Hread|].
  split; [exact Hsz|]. split; [apply Hcap; [reflexivity | discriminate]|].
  rewrite Hel. by_evaluation.
Defined.

Lemma At_checked_access_witness :
  vecs state_777 !! va = Some vec_777 /\
  At va 1 state_777 = operator_index va 1 state_777 /\
  At va 3 state_777 = Throw out_of_range state_777.
Proof.
  split; [exact state_777_va|].
  split.
  - apply (At_checked_access state_777 va vec_777 1 state_777_va). reflexivity.
  - apply (At_checked_access state_777 va vec_777 3 state_777_va). discriminate.
Defined.

Lemma Resize_truncates_or_fills_witness :
  vecs state_777 !! va = Some vec_777 /\
  wf_vec (mem state_777) vec_777 /\
  0 <= 5 /\
  (capacity_ vec_777 < 5 -> grants int_can_alloc (mem state_777) 5 = true) /\
  exists s' v',
    Resize 0 int_moved_from int_fresh_cell int_can_alloc va 5 state_777 = Ret tt s' /\
    vecs s' !! va = Some v' /\
    size_ v' = 5 /\
    elements (mem s') v' = [7; 7; 7; 0; 0] /\
    exists s2 v2,
      Resize 0 int_moved_from int_fresh_cell int_can_alloc va 2 s' = Ret tt s2 /\
      vecs s2 !! va = Some v2 /\
      size_ v2 = 2 /\ capacity_ v2 = 5 /\
      elements (mem s2) v2 = [7; 7].
Proof.
  assert (Hg : capacity_ vec_777 < 5 -> grants int_can_alloc (mem state_777) 5 = true)
    by (intros _; by_evaluation).
  assert (Hn : 0 <= 5) by lia.
  split; [exact state_777_va|]. split; [exact state_777_wf|].
  split; [exact Hn|]. split; [exact Hg|].
  destruct (Resize_truncates_or_fills 0 int_moved_from int_fresh_cell int_can_alloc
              state_777 va vec_777 5 state_777_va state_777_wf Hn Hg)
    as (s' & v' & Hrun & Hv' & Hsz & _ & Hup).
  destruct Hup as (Hel & _); [by_evaluation|].
  assert (Hel5 : elements (mem s') v' = [7; 7; 7; 0; 0])
    by (rewrite Hel; by_evaluation).
  exists s', v'. split; [exact Hrun|]. split; [exact Hv'|]. split; [exact Hsz|].
  split; [exact Hel5|].
  (* and back down to two elements, in the state just reached *)
  assert (Hrun' : Resize 0 int_moved_from int_fresh_cell int_can_alloc va 5 state_777
                  = Ret tt (state_after
                              (Resize 0 int_moved_from int_fresh_cell int_can_alloc va 5)
                              state_777)) by by_evaluation.
  assert (Hs' : s' = state_after
                       (Resize 0 int_moved_from int_fresh_cell int_can_alloc va 5)
                       state_777) by congruence.
  assert (Hv5 : vecs s' !! va
                = Some (MkSimpleVector (MkArrayPtr (Ptr 2%positive 0)) 5 5))
    by (rewrite Hs'; by_evaluation).
  assert (Hwf5 : wf_vec (mem s') (MkSimpleVector (MkArrayPtr (Ptr 2%positive 0)) 5 5))
    by (rewrite Hs'; wf_by_evaluation).
  assert (Hn2 : 0 <= 2) by lia.
  destruct (Resize_truncates_or_fills 0 int_moved_from int_fresh_cell int_can_alloc
              s' va _ 2 Hv5 Hwf5 Hn2)
    as (s2 & v2 & Hrun2 & Hv2 & Hsz2 & Hdown & _).
  { cbn [capacity_]. lia. }
  destruct Hdown as (Hel2 & Hcp2); [by_evaluation|].
  exists s2, v2. split; [exact Hrun2|]. split; [exact Hv2|]. split; [exact Hsz2|].
  split; [exact Hcp2|]. rewrite Hel2.
  assert (Hsame : elements (mem s') (MkSimpleVector (MkArrayPtr (Ptr 2%positive 0)) 5 5)
                  = [7; 7; 7; 0; 0]) by (rewrite Hs'; by_evaluation).
  rewrite Hsame. by_evaluation.
Defined.

Lemma Insert_Erase_front_roundtrip_witness :
  vecs state_123 !! va = Some vec_123 /\
  wf_vec (mem state_123) vec_123 /\
  size_ vec_123 < capacity_ vec_123 /\
  exists s' v',
    insert_erase_front int_moved_from int_fresh_cell int_can_alloc va 9 state_123
    = Ret tt s' /\
    vecs s' !! va = Some v' /\
    elements (mem s') v' = [1; 2; 3] /\
    size_ v' = 3 /\ capacity_ v' = 4.
Proof.
  assert (Hroom : size_ vec_123 < capacity_ vec_123) by by_evaluation.
  split; [exact state_123_va|]. split; [exact state_123_wf|]. split; [exact Hroom|].
  destruct (Insert_Erase_front_roundtrip int_moved_from int_fresh_cell int_can_alloc
              state_123 va vec_123 9 state_123_va state_123_wf Hroom)
    as (s' & v' & Hrun & Hv' & Hel & Hsz & Hcp).
  exists s', v'. split; [exact Hrun|]. split; [exact Hv'|].
  split; [rewrite Hel; by_evaluation|]. split; [exact Hsz|exact Hcp].
Defined.

Lemma Reserve_preallocates_witness :
  vecs state_777 !! va = Some vec_777 /\
  wf_vec (mem state_777) vec_777 /\
  (capacity_ vec_777 < 8 -> grants int_can_alloc (mem state_777) 8 = true) /\
  exists s' v',
    Reserve int_moved_from int_fresh_cell int_can_alloc va 8 state_777 = Ret tt s' /\
    vecs s' !! va = Some v' /\
    capacity_ v' = 8 /\ size_ v' = 3 /\
    elements (mem s') v' = [7; 7; 7].
Proof.
  assert (Hg : capacity_ vec_777 < 8 -> grants int_can_alloc (mem state_777) 8 = true)
    by (intros _; by_evaluation).
  split; [exact state_777_va|]. split; [exact state_777_wf|]. split; [exact Hg|].
  destruct (Reserve_preallocates int_moved_from int_fresh_cell int_can_alloc
              state_777 va vec_777 8 state_777_va state_777_wf Hg)
    as (_ & Hgrow).
  destruct Hgrow as (s' & v' & Hrun & Hv' & Hcp & Hsz & Hel); [by_evaluation|].
  exists s', v'. split; [exact Hrun|]. split; [exact Hv'|].
  split; [exact Hcp|]. split; [exact Hsz|]. rewrite Hel. by_evaluation.
Defined.

Lemma reallocation_failure_keeps_state_witness :
  vecs state_full !! va = Some vec_full /\
  wf_vec (mem state_full) vec_full /\
  PushBack int_moved_from int_fresh_cell int_can_alloc va 5 state_full
  = Throw bad_alloc state_full /\
  Insert int_moved_from int_fresh_cell int_can_alloc va (iterator_at vec_full 2) 5
    state_full
  = Throw bad_alloc state_full /\
  Resize 0 int_moved_from int_fresh_cell int_can_alloc va 9 state_full
  = Throw bad_alloc state_full /\
  Reserve int_moved_from int_fresh_cell int_can_alloc va 9 state_full
  = Throw bad_alloc state_full.
Proof.
  split; [exact state_full_va|]. split; [exact state_full_wf|].
  destruct (reallocation_failure_keeps_state 0 int_moved_from int_fresh_cell
              int_can_alloc state_full va vec_full state_full_va state_full_wf)
    as (Hpush & Hinsert & Hresize & Hreserve).
  split; [apply Hpush; by_evaluation|].
  split; [apply Hinsert; by_evaluation|].
  split; [apply Hresize; by_evaluation|].
  apply Hreserve; by_evaluation.
Defined.

Lemma state_two_va : vecs state_two !! va = Some vec_777.
Proof. by_evaluation. Defined.

Lemma state_two_vb : vecs state_two !! vb = Some vec_99.
Proof. by_evaluation. Defined.

Lemma state_two_wf_a : wf_vec (mem state_two) vec_777.
Proof. wf_by_evaluation. Defined.

Lemma state_two_wf_b : wf_vec (mem state_two) vec_99.
Proof. wf_by_evaluation. Defined.

Lemma state_reserved_va : vecs state_reserved !! va = Some vec_reserved.
Proof. by_evaluation. Defined.

Lemma state_reserved_wf : wf_vec (mem state_reserved) vec_reserved.
Proof. wf_by_evaluation. Defined.

Lemma copy_construct_independent_witness :
  vecs state_123 !! vb = None /\
  vecs state_123 !! va = Some vec_123 /\
  wf_vec (mem state_123) vec_123 /\
  (0 < size_ vec_123 -> grants int_can_alloc (mem state_123) (size_ vec_123) = true) /\
  exists s' v',
    SimpleVector_copy int_fresh_cell int_can_alloc vb va state_123 = Ret tt s' /\
    vecs s' !! vb = Some v' /\
    vecs s' !! va = Some vec_123 /\
    operator_eq vb va s' = Ret true s' /\
    elements (mem s') v' = [1; 2; 3] /\
    size_ v' = 3 /\ capacity_ v' = 3 /\
    (forall s'',
       final_state
         (mutate_all int_moved_from int_fresh_cell int_can_alloc vb
            [WriteAt 0 42; Push 5] s') = Some s'' ->
       vecs s'' !! va = Some vec_123 /\ elements (mem s'') vec_123 = [1; 2; 3]).
Proof.
  assert (Hnew : vecs state_123 !! vb = None) by by_evaluation.
  assert (Hg : 0 < size_ vec_123 ->
               grants int_can_alloc (mem state_123) (size_ vec_123) = true)
    by (intros _; by_evaluation).
  split; [exact Hnew|]. split; [exact state_123_va|].
  split; [exact state_123_wf|]. split; [exact Hg|].
  destruct (copy_construct_independent int_moved_from int_fresh_cell int_can_alloc
              state_123 vb va vec_123 Hnew state_123_va state_123_wf Hg)
    as (s' & v' & Hrun & Hv' & Ho & Heq & Hel & Helo & Hsz & Hcp & Hlater).
  exists s', v'. split; [exact Hrun|]. split; [exact Hv'|]. split; [exact Ho|].
  split; [exact Heq|]. split; [rewrite Hel, Helo; by_evaluation|].
  split; [exact Hsz|]. split; [exact Hcp|].
  intros s'' Hfin. destruct (Hlater _ _ Hfin) as [Ha Hela].
  split; [exact Ha|]. rewrite Hela. by_evaluation.
Defined.

(** C2 as stated fails: the copy of a vector of size 3 and capacity 4 has
    capacity 3. *)
Lemma copy_construct_capacity_counterexample :
  exists s' v',
    vecs state_123 !! va = Some vec_123 /\
    wf_vec (mem state_123) vec_123 /\
    SimpleVector_copy int_fresh_cell int_can_alloc vb va state_123 = Ret tt s' /\
    vecs s' !! vb = Some v' /\
    capacity_ vec_123 = 4 /\
    capacity_ v' = 3 /\
    capacity_ v' <> capacity_ vec_123.
Proof.
  eexists _, _. split; [exact state_123_va|]. split; [exact state_123_wf|].
  split; [by_evaluation|]. split; [by_evaluation|].
  split; [reflexivity|]. split; [reflexivity|]. discriminate.
Qed.

Lemma move_construct_transfers_witness :
  vecs state_123 !! vb = None /\
  vecs state_123 !! va = Some vec_123 /\
  exists s',
    SimpleVector_move vb va state_123 = Ret tt s' /\
    vecs s' !! vb = Some vec_123 /\
    vecs s' !! va = Some (MkSimpleVector (MkArrayPtr nullptr) 0 0) /\
    elements (mem s') vec_123 = [1; 2; 3].
Proof.
  assert (Hnew : vecs state_123 !! vb = None) by by_evaluation.
  split; [exact Hnew|]. split; [exact state_123_va|].
  destruct (move_construct_transfers state_123 vb va vec_123 Hnew state_123_va)
    as (s' & Hrun & Hb & Ha & Hmem & Hel).
  exists s'. split; [exact Hrun|]. split; [exact Hb|]. split; [exact Ha|].
  rewrite Hel. by_evaluation.
Defined.

Lemma copy_assign_copies_witness :
  vecs state_two !! va = Some vec_777 /\
  vecs state_two !! vb = Some vec_99 /\
  wf_vec (mem state_two) vec_777 /\
  wf_vec (mem state_two) vec_99 /\
  (va <> vb -> separate vec_777 vec_99) /\
  (0 < size_ vec_99 -> grants int_can_alloc (mem state_two) (size_ vec_99) = true) /\
  exists s' t,
    copy_assign int_fresh_cell int_can_alloc va vb state_two = Ret tt s' /\
    vecs s' !! va = Some t /\
    size_ t = 2 /\
    elements (mem s') t = [9; 9] /\
    vecs s' !! vb = Some vec_99 /\
    elements (mem s') vec_99 = [9; 9] /\
    operator_eq va vb s' = Ret true s'.
Proof.
  assert (Hne : va <> vb) by discriminate.
  assert (Hsep : va <> vb -> separate vec_777 vec_99)
    by (intros _; right; discriminate).
  assert (Hg : 0 < size_ vec_99 ->
               grants int_can_alloc (mem state_two) (size_ vec_99) = true)
    by (intros _; by_evaluation).
  split; [exact state_two_va|]. split; [exact state_two_vb|].
  split; [exact state_two_wf_a|]. split; [exact state_two_wf_b|].
  split; [exact Hsep|]. split; [exact Hg|].
  destruct (copy_assign_copies int_fresh_cell int_can_alloc
              state_two va vb vec_777 vec_99
              state_two_va state_two_vb state_two_wf_a state_two_wf_b Hsep Hg)
    as (s' & t & Hrun & Ht & Hsz & Hel & Hcp & Hdistinct & _).
  destruct (Hdistinct Hne) as (Hb & Helb & Heq).
  exists s', t. split; [exact Hrun|]. split; [exact Ht|]. split; [exact Hsz|].
  split; [rewrite Hel; by_evaluation|]. split; [exact Hb|].
  split; [rewrite Helb; by_evaluation|exact Heq].
Defined.

(** C10 as stated fails: a vector of size 0 and capacity 4 assigned to
    itself comes out with capacity 0. *)
Lemma copy_assign_self_capacity_counterexample :
  exists s' t,
    vecs state_reserved !! va = Some vec_reserved /\
    wf_vec (mem state_reserved) vec_reserved /\
    copy_assign int_fresh_cell int_can_alloc va va state_reserved = Ret tt s' /\
    vecs s' !! va = Some t /\
    capacity_ vec_reserved = 4 /\
    capacity_ t = 0 /\
    ~ (capacity_ vec_reserved = 0 <-> capacity_ t = 0).
Proof.
  eexists _, _. split; [exact state_reserved_va|]. split; [exact state_reserved_wf|].
  split; [by_evaluation|]. split; [by_evaluation|].
  split; [reflexivity|]. split; [reflexivity|].
  intros [_ H]. specialize (H eq_refl). discriminate.
Qed.

Lemma move_assign_keeps_source_capacity_witness :
  vb <> va /\
  vecs state_two !! vb = Some vec_99 /\
  vecs state_two !! va = Some vec_777 /\
  exists s',
    move_assign vb va state_two = Ret tt s' /\
    vecs s' !! vb = Some vec_777 /\
    vecs s' !! va = Some (MkSimpleVector (MkArrayPtr nullptr) 3 3) /\
    mem s' = mem state_two /\
    ~ capacity_matches_buffer (MkSimpleVector (MkArrayPtr nullptr) 3 3).
Proof.
  assert (Hne : vb <> va) by discriminate.
  split; [exact Hne|]. split; [exact state_two_vb|]. split; [exact state_two_va|].
  destruct (move_assign_keeps_source_capacity state_two vb va vec_99 vec_777
              Hne state_two_vb state_two_va)
    as (s' & Hrun & Hb & Ha & Hmem & Hbroken).
  exists s'. split; [exact Hrun|]. split; [exact Hb|]. split; [exact Ha|].
  split; [exact Hmem|]. apply Hbroken. discriminate.
Defined.

(** ** More states, and the remaining theorems at them *)

(** A free store that grants at most 2 elements at a time. *)
Definition small_can_alloc (_ : gmap block (list Z)) (n : Z) : bool :=
  bool_decide (n <= 2).

(** [SimpleVector<int> a;] *)
Definition state_default : @state Z :=
  state_after (SimpleVector_default va) empty_state.

Lemma empty_state_va : vecs empty_state !! va = None.
Proof. by_evaluation. Defined.

Lemma state_default_va :
  vecs state_default !! va = Some (MkSimpleVector ArrayPtr_default 0 0).
Proof. by_evaluation. Defined.

Lemma state_two_vecs :
  vecs state_two = <[vb := vec_99]> (<[va := vec_777]> ∅).
Proof. by_evaluation. Defined.

Lemma int_store_grants (m : gmap block (list Z)) (n : Z) :
  n <= 8 -> grants int_can_alloc m n = true.
Proof.
  intros Hn. apply andb_true_intro.
  split; apply bool_decide_eq_true_2; unfold PTRDIFF_MAX; lia.
Defined.

Lemma fill_constructor_fills_witness :
  vecs empty_state !! va = None /\ 0 <= 3 /\
  (0 < 3 -> grants int_can_alloc (mem empty_state) 3 = true) /\
  exists s' v',
    SimpleVector_fill int_fresh_cell int_can_alloc va 3 7 empty_state = Ret tt s' /\
    vecs s' !! va = Some v' /\
    size_ v' = 3 /\ capacity_ v' = 3 /\
    elements (mem s') v' = [7; 7; 7].
Proof.
  assert (Hg : 0 < 3 -> grants int_can_alloc (mem empty_state) 3 = true)
    by (intros _; by_evaluation).
  split; [exact empty_state_va|]. split; [lia|]. split; [exact Hg|].
  destruct (fill_constructor_fills int_fresh_cell int_can_alloc empty_state va 3 7
              empty_state_va ltac:(lia) Hg)
    as (s' & v' & Hrun & Hvs & _ & Hsz & Hcp & Hel & _).
  exists s', v'. split; [exact Hrun|].
  split; [rewrite Hvs; apply lookup_insert_eq|].
  split; [exact Hsz|]. split; [exact Hcp|]. rewrite Hel. reflexivity.
Defined.

Lemma constructor_failure_leaves_nothing_witness :
  vecs state_777 !! vb = None /\
  SimpleVector_fill int_fresh_cell small_can_alloc vb 3 1 state_777
  = Throw bad_alloc state_777 /\
  SimpleVector_reserved int_moved_from int_fresh_cell small_can_alloc vb 3 state_777
  = Throw bad_alloc state_777 /\
  SimpleVector_init int_fresh_cell small_can_alloc vb [1; 2; 3] state_777
  = Throw bad_alloc state_777 /\
  SimpleVector_copy int_fresh_cell small_can_alloc vb va state_777
  = Throw bad_alloc state_777.
Proof.
  assert (Hnew : vecs state_777 !! vb = None) by by_evaluation.
  split; [exact Hnew|].
  destruct (constructor_failure_leaves_nothing int_moved_from int_fresh_cell
              small_can_alloc state_777 vb Hnew)
    as (Hfill & Hreserved & Hinit & Hcopy).
  split; [apply Hfill; by_evaluation|].
  split; [apply Hreserved; by_evaluation|].
  split; [apply Hinit; [discriminate | by_evaluation]|].
  apply (Hcopy va vec_777); by_evaluation.
Defined.

Lemma init_constructor_copies_list_witness :
  vecs empty_state !! va = None /\
  ([4; 5; 6] <> [] ->
   grants int_can_alloc (mem empty_state) (Z.of_nat (length [4; 5; 6])) = true) /\
  exists s' v',
    SimpleVector_init int_fresh_cell int_can_alloc va [4; 5; 6] empty_state = Ret tt s' /\
    vecs s' !! va = Some v' /\
    size_ v' = 3 /\ capacity_ v' = 3 /\
    elements (mem s') v' = [4; 5; 6].
Proof.
  assert (Hg : [4; 5; 6] <> [] ->
               grants int_can_alloc (mem empty_state) (Z.of_nat (length [4; 5; 6])) = true)
    by (intros _; by_evaluation).
  split; [exact empty_state_va|]. split; [exact Hg|].
  destruct (init_constructor_copies_list int_fresh_cell int_can_alloc empty_state va
              [4; 5; 6] empty_state_va Hg)
    as (s' & v' & Hrun & Hvs & _ & Hsz & Hcp & Hel & _).
  exists s', v'. split; [exact Hrun|].
  split; [rewrite Hvs; apply lookup_insert_eq|].
  split; [exact Hsz|]. split; [exact Hcp|]. exact Hel.
Defined.

Lemma reserve_constructor_preallocates_witness :
  vecs empty_state !! va = None /\ 0 <= 4 /\
  (0 < 4 -> grants int_can_alloc (mem empty_state) 4 = true) /\
  exists s' v',
    SimpleVector_reserved int_moved_from int_fresh_cell int_can_alloc va 4 empty_state
    = Ret tt s' /\
    vecs s' !! va = Some v' /\
    size_ v' = 0 /\ capacity_ v' = 4 /\
    IsEmpty va s' = Ret true s' /\
    At va 0 s' = Throw out_of_range s'.
Proof.
  assert (Hg : 0 < 4 -> grants int_can_alloc (mem empty_state) 4 = true)
    by (intros _; by_evaluation).
  split; [exact empty_state_va|]. split; [lia|]. split; [exact Hg|].
  destruct (reserve_constructor_preallocates int_moved_from int_fresh_cell int_can_alloc
              empty_state va 4 empty_state_va ltac:(lia) Hg)
    as (s' & v' & Hrun & Hv' & Hsz & Hcp & _ & Hempty & Hat).
  exists s', v'. split; [exact Hrun|]. split; [exact Hv'|].
  split; [exact Hsz|]. split; [exact Hcp|]. split; [exact Hempty|].
  apply Hat. lia.
Defined.

Lemma PushBack_PopBack_roundtrip_witness :
  vecs state_777 !! va = Some vec_777 /\
  wf_vec (mem state_777) vec_777 /\
  (size_ vec_777 = capacity_ vec_777 ->
   grants int_can_alloc (mem state_777) (grown (capacity_ vec_777)) = true) /\
  exists s' v',
    bind (PushBack int_moved_from int_fresh_cell int_can_alloc va 5)
         (fun _ => PopBack va) state_777 = Ret tt s' /\
    vecs s' !! va = Some v' /\
    elements (mem s') v' = [7; 7; 7] /\
    size_ v' = 3 /\ 3 <= capacity_ v'.
Proof.
  assert (Hg : size_ vec_777 = capacity_ vec_777 ->
               grants int_can_alloc (mem state_777) (grown (capacity_ vec_777)) = true)
    by (intros _; by_evaluation).
  split; [exact state_777_va|]. split; [exact state_777_wf|]. split; [exact Hg|].
  destruct (PushBack_PopBack_roundtrip int_moved_from int_fresh_cell int_can_alloc
              state_777 va vec_777 5 state_777_va state_777_wf Hg)
    as (s' & v' & Hrun & Hv' & _ & Hel & Hsz & Hcp).
  exists s', v'. split; [exact Hrun|]. split; [exact Hv'|].
  split; [rewrite Hel; by_evaluation|]. split; [exact Hsz | exact Hcp].
Defined.

Lemma PopBack_on_empty_wraps_witness :
  vecs state_reserved !! va = Some vec_reserved /\
  size_ vec_reserved = 0 /\
  exists s' v',
    PopBack va state_reserved = Ret tt s' /\
    vecs s' !! va = Some v' /\
    size_ v' = SIZE_MAX /\
    capacity_ v' = 4 /\
    ~ wf_vec (mem s') v' /\
    RangeCheck va 1000 s' = Ret tt s'.
Proof.
  split; [exact state_reserved_va|]. split; [reflexivity|].
  destruct (PopBack_on_empty_wraps state_reserved va vec_reserved
              state_reserved_va eq_refl)
    as (s' & v' & Hrun & Hv' & _ & Hsz & Hcp & Hnwf & _ & Hrange).
  exists s', v'. split; [exact Hrun|]. split; [exact Hv'|].
  split; [exact Hsz|]. split; [exact Hcp|]. split; [exact Hnwf|].
  apply Hrange. unfold SIZE_MAX. lia.
Defined.

Lemma write_then_read_witness :
  vecs state_777 !! va = Some vec_777 /\
  wf_vec (mem state_777) vec_777 /\
  0 <= 1 < size_ vec_777 /\
  exists s',
    write_index va 1 5 state_777 = Ret tt s' /\
    elements (mem s') vec_777 = [7; 5; 7] /\
    read_At va 1 s' = Ret 5 s'.
Proof.
  assert (Hi : 0 <= 1 < size_ vec_777) by (cbn [size_ vec_777]; lia).
  split; [exact state_777_va|]. split; [exact state_777_wf|]. split; [exact Hi|].
  destruct (write_then_read state_777 va vec_777 1 5 state_777_va state_777_wf Hi)
    as (s' & Hrun & _ & _ & Hel & Hread).
  exists s'. split; [exact Hrun|]. split; [rewrite Hel; by_evaluation | exact Hread].
Defined.

Lemma leftover_storage_is_reset_witness :
  vecs state_123 !! va = Some vec_123 /\
  wf_vec (mem state_123) vec_123 /\
  0 <= 1 <= size_ vec_123 /\ 1 <= 4 <= capacity_ vec_123 /\
  (exists s' v',
     bind (Resize 0 int_moved_from int_fresh_cell int_can_alloc va 1)
          (fun _ => Resize 0 int_moved_from int_fresh_cell int_can_alloc va 4) state_123
     = Ret tt s' /\
     vecs s' !! va = Some v' /\
     elements (mem s') v' = [1; 0; 0; 0]) /\
  (exists s' v',
     bind (Clear va)
          (fun _ => Resize 0 int_moved_from int_fresh_cell int_can_alloc va 4) state_123
     = Ret tt s' /\
     vecs s' !! va = Some v' /\
     elements (mem s') v' = [0; 0; 0; 0]).
Proof.
  assert (Hk : 0 <= 1 <= size_ vec_123) by (cbn [size_ vec_123]; lia).
  assert (Hn : 1 <= 4 <= capacity_ vec_123) by (cbn [capacity_ vec_123]; lia).
  split; [exact state_123_va|]. split; [exact state_123_wf|].
  split; [exact Hk|]. split; [exact Hn|].
  destruct (leftover_storage_is_reset 0 int_moved_from int_fresh_cell int_can_alloc
              state_123 va vec_123 1 4 state_123_va state_123_wf Hk Hn)
    as [(s1 & v1 & Hrun1 & Hv1 & _ & _ & Hel1) (s2 & v2 & Hrun2 & Hv2 & _ & _ & Hel2)].
  split.
  - exists s1, v1. split; [exact Hrun1|]. split; [exact Hv1|].
    rewrite Hel1. by_evaluation.
  - exists s2, v2. split; [exact Hrun2|]. split; [exact Hv2|].
    rewrite Hel2. by_evaluation.
Defined.

Lemma Insert_at_inserts_witness :
  vecs state_123 !! va = Some vec_123 /\
  wf_vec (mem state_123) vec_123 /\
  0 <= 1 <= size_ vec_123 /\
  (size_ vec_123 = capacity_ vec_123 ->
   grants int_can_alloc (mem state_123) (grown (capacity_ vec_123)) = true) /\
  exists s' v' r,
    Insert_at int_moved_from int_fresh_cell int_can_alloc va 1 9 state_123 = Ret r s' /\
    vecs s' !! va = Some v' /\
    elements (mem s') v' = [1; 9; 2; 3] /\
    size_ v' = 4 /\ capacity_ v' = 4 /\
    load r s' = Ret 9 s'.
Proof.
  assert (Hk : 0 <= 1 <= size_ vec_123) by (cbn [size_ vec_123]; lia).
  assert (Hg : size_ vec_123 = capacity_ vec_123 ->
               grants int_can_alloc (mem state_123) (grown (capacity_ vec_123)) = true)
    by (intros _; by_evaluation).
  split; [exact state_123_va|]. split; [exact state_123_wf|].
  split; [exact Hk|]. split; [exact Hg|].
  destruct (Insert_at_inserts int_moved_from int_fresh_cell int_can_alloc
              state_123 va vec_123 1 9 state_123_va state_123_wf Hk Hg)
    as (s' & v' & r & Hrun & Hv' & _ & Hel & Hsz & Hroom & _ & _ & Hload).
  exists s', v', r. split; [exact Hrun|]. split; [exact Hv'|].
  split; [rewrite Hel; by_evaluation|]. split; [exact Hsz|].
  split; [apply Hroom; discriminate | exact Hload].
Defined.

Lemma Erase_at_removes_witness :
  vecs state_123 !! va = Some vec_123 /\
  wf_vec (mem state_123) vec_123 /\
  0 <= 1 < size_ vec_123 /\
  exists s' v' r,
    Erase_at int_moved_from va 1 state_123 = Ret r s' /\
    vecs s' !! va = Some v' /\
    elements (mem s') v' = [1; 3] /\
    size_ v' = 2 /\ capacity_ v' = 4 /\
    load r s' = Ret 3 s'.
Proof.
  assert (Hk : 0 <= 1 < size_ vec_123) by (cbn [size_ vec_123]; lia).
  split; [exact state_123_va|]. split; [exact state_123_wf|]. split; [exact Hk|].
  destruct (Erase_at_removes int_moved_from state_123 va vec_123 1
              state_123_va state_123_wf Hk)
    as (s' & v' & r & Hrun & Hv' & _ & Hel & Hsz & Hcp & _ & _ & _ & Hload).
  exists s', v', r. split; [exact Hrun|]. split; [exact Hv'|].
  split; [rewrite Hel; by_evaluation|]. split; [exact Hsz|].
  split; [exact Hcp|]. apply Hload. by_evaluation.
Defined.

Lemma Insert_end_is_PushBack_witness :
  vecs state_123 !! va = Some vec_123 /\
  wf_vec (mem state_123) vec_123 /\
  Insert_end int_moved_from int_fresh_cell int_can_alloc va 4 state_123
  = bind (PushBack int_moved_from int_fresh_cell int_can_alloc va 4)
         (fun _ => bind (begin va) (fun b => ptr_add b 3)) state_123.
Proof.
  split; [exact state_123_va|]. split; [exact state_123_wf|].
  exact (Insert_end_is_PushBack int_moved_from int_fresh_cell int_can_alloc
           state_123 va vec_123 4 state_123_va state_123_wf).
Defined.

Lemma swap_exchanges_witness :
  vecs state_two !! va = Some vec_777 /\
  vecs state_two !! vb = Some vec_99 /\
  exists s',
    swap va vb state_two = Ret tt s' /\
    vecs s' !! va = Some vec_99 /\
    vecs s' !! vb = Some vec_777 /\
    mem s' = mem state_two /\
    swap va vb s' = Ret tt state_two.
Proof.
  split; [exact state_two_va|]. split; [exact state_two_vb|].
  destruct (swap_exchanges state_two va vb vec_777 vec_99 state_two_va state_two_vb)
    as (s' & Hrun & Ha & Hb & _ & Hmem & Hback).
  exists s'. auto.
Defined.

Lemma operator_eq_decides_witness :
  vecs state_two !! va = Some vec_777 /\
  vecs state_two !! vb = Some vec_99 /\
  wf_vec (mem state_two) vec_777 /\
  wf_vec (mem state_two) vec_99 /\
  operator_eq va vb state_two = Ret false state_two /\
  operator_ne va vb state_two = Ret true state_two.
Proof.
  split; [exact state_two_va|]. split; [exact state_two_vb|].
  split; [exact state_two_wf_a|]. split; [exact state_two_wf_b|].
  destruct (operator_eq_decides state_two va vb vec_777 vec_99
              state_two_va state_two_vb state_two_wf_a state_two_wf_b)
    as [Heq Hne].
  split; [rewrite Heq | rewrite Hne]; by_evaluation.
Defined.

Lemma operator_lt_lexicographic_witness :
  vecs state_two !! va = Some vec_777 /\
  vecs state_two !! vb = Some vec_99 /\
  wf_vec (mem state_two) vec_777 /\
  wf_vec (mem state_two) vec_99 /\
  operator_lt Z.ltb va vb state_two = Ret true state_two /\
  operator_gt Z.ltb va vb state_two = Ret false state_two /\
  operator_le Z.ltb va vb state_two = Ret true state_two /\
  operator_ge Z.ltb va vb state_two = Ret false state_two /\
  operator_lt Z.ltb va va state_two = Ret false state_two.
Proof.
  split; [exact state_two_va|]. split; [exact state_two_vb|].
  split; [exact state_two_wf_a|]. split; [exact state_two_wf_b|].
  destruct (operator_lt_lexicographic Z.ltb state_two va vb vec_777 vec_99
              state_two_va state_two_vb state_two_wf_a state_two_wf_b)
    as (Hlt & Hgt & Hle & Hge & Hself).
  split; [rewrite Hlt; by_evaluation|].
  split; [rewrite Hgt; by_evaluation|].
  split; [rewrite Hle; by_evaluation|].
  split; [rewrite Hge; by_evaluation|].
  apply Hself. exact Z.ltb_irrefl.
Defined.

Lemma copy_assign_strong_guarantee_witness :
  vecs state_two !! vb = Some vec_99 /\
  vecs state_two !! va = Some vec_777 /\
  wf_vec (mem state_two) vec_99 /\
  wf_vec (mem state_two) vec_777 /\
  copy_assign int_fresh_cell small_can_alloc vb va state_two
  = Throw bad_alloc state_two /\
  exists s',
    copy_assign int_fresh_cell int_can_alloc vb va state_two = Ret tt s' /\
    dom (vecs s') = dom (vecs state_two) /\
    mem s' !! 2%positive = None.
Proof.
  split; [exact state_two_vb|]. split; [exact state_two_va|].
  split; [exact state_two_wf_b|]. split; [exact state_two_wf_a|].
  split.
  - apply (copy_assign_strong_guarantee int_fresh_cell small_can_alloc
             state_two vb va vec_99 vec_777
             state_two_vb state_two_va state_two_wf_b state_two_wf_a);
      by_evaluation.
  - destruct (copy_assign_strong_guarantee int_fresh_cell int_can_alloc
                state_two vb va vec_99 vec_777
                state_two_vb state_two_va state_two_wf_b state_two_wf_a)
      as [_ Hok].
    destruct Hok as (s' & Hrun & Hdom & Hfree); [intros _; by_evaluation|].
    exists s'. split; [exact Hrun|]. split; [exact Hdom|].
    apply (Hfree 2%positive 0). reflexivity.
Defined.

Lemma move_assign_leaks_target_block_witness :
  va <> vb /\
  vecs state_two !! va = Some vec_777 /\
  vecs state_two !! vb = Some vec_99 /\
  raw_ptr_ (data_ vec_777) = Ptr 1%positive 0 /\
  mem state_two !! 1%positive = Some [7; 7; 7] /\
  (forall x u off', x <> va -> vecs state_two !! x = Some u ->
                    raw_ptr_ (data_ u) <> Ptr 1%positive off') /\
  exists s',
    move_assign va vb state_two = Ret tt s' /\
    mem s' !! 1%positive = Some [7; 7; 7] /\
    (forall x u off', vecs s' !! x = Some u ->
                      raw_ptr_ (data_ u) <> Ptr 1%positive off').
Proof.
  assert (Hne : va <> vb) by discriminate.
  assert (Hcs : mem state_two !! 1%positive = Some [7; 7; 7]) by by_evaluation.
  assert (Honly : forall x u off', x <> va -> vecs state_two !! x = Some u ->
                                   raw_ptr_ (data_ u) <> Ptr 1%positive off').
  { intros x u off' Hx Hu. rewrite state_two_vecs in Hu.
    destruct (decide (x = vb)) as [->|Hxb].
    - rewrite lookup_insert_eq in Hu. injection Hu as <-. discriminate.
    - rewrite !lookup_insert_ne in Hu by congruence. discriminate. }
  split; [exact Hne|]. split; [exact state_two_va|]. split; [exact state_two_vb|].
  split; [reflexivity|]. split; [exact Hcs|]. split; [exact Honly|].
  exact (move_assign_leaks_target_block state_two va vb vec_777 vec_99 1%positive 0
           [7; 7; 7] Hne state_two_va state_two_vb eq_refl Hcs Honly).
Defined.

Lemma move_assign_self_keeps_witness :
  vecs state_777 !! va = Some vec_777 /\
  move_assign va va state_777 = Ret tt state_777.
Proof.
  split; [exact state_777_va|].
  exact (move_assign_self_keeps state_777 va vec_777 state_777_va).
Defined.

(** [a.PushBack(5); a.Insert(a.begin() + 1, 9); a.Erase(a.begin()); a[0] = 4;
    a.Resize(2); a.Reserve(8); a.PopBack(); a.Clear();] *)
Definition some_operations : list (@operation Z) :=
  [OpPushBack 5; OpInsert 1 9; OpErase 0; OpWrite 0 4;
   OpResize 2; OpReserve 8; OpPopBack; OpClear].

Ltac admissible_step :=
  cbn [admissible]; eexists;
  split; [by_evaluation|];
  split; [first [exact I | cbn [precondition size_]; unfold SIZE_MAX; lia]|];
  let s' := fresh "s" in
  let Hrun := fresh "Hrun" in
  intros s' Hrun; vm_compute in Hrun; injection Hrun as <-.

Lemma some_operations_admissible :
  admissible 0 int_moved_from int_fresh_cell int_can_alloc va some_operations state_777.
Proof.
  unfold some_operations. do 8 admissible_step. exact I.
Defined.

Lemma operations_keep_invariants_witness :
  vecs state_777 !! va = Some vec_777 /\
  wf_vec (mem state_777) vec_777 /\
  admissible 0 int_moved_from int_fresh_cell int_can_alloc va some_operations state_777 /\
  exists s' v',
    (run_operations 0 int_moved_from int_fresh_cell int_can_alloc va some_operations
       state_777 = Ret tt s' \/
     run_operations 0 int_moved_from int_fresh_cell int_can_alloc va some_operations
       state_777 = Throw bad_alloc s') /\
    vecs s' !! va = Some v' /\ wf_vec (mem s') v'.
Proof.
  split; [exact state_777_va|]. split; [exact state_777_wf|].
  split; [exact some_operations_admissible|].
  exact (operations_keep_invariants 0 int_moved_from int_fresh_cell int_can_alloc
           some_operations state_777 va vec_777
           state_777_va state_777_wf some_operations_admissible).
Defined.

Lemma ArrayPtr_lifetime_witness :
  0 < 3 /\ grants int_can_alloc (mem empty_state) 3 = true /\
  ArrayPtr_sized int_fresh_cell int_can_alloc 0 empty_state
  = Ret ArrayPtr_default empty_state /\
  exists a s1 b cs,
    ArrayPtr_sized int_fresh_cell int_can_alloc 3 empty_state = Ret a s1 /\
    Get a = Ptr b 0 /\ ArrayPtr_bool a = true /\
    mem empty_state !! b = None /\ mem s1 !! b = Some cs /\ Z.of_nat (length cs) = 3 /\
    ArrayPtr_destroy a s1 = Ret tt empty_state /\
    ArrayPtr_destroy a empty_state = Undef /\
    ArrayPtr_bool (snd (Release a)) = false /\
    ArrayPtr_destroy (snd (Release a)) s1 = Ret tt s1 /\
    ArrayPtr_from_raw (fst (Release a)) = a.
Proof.
  assert (Hg : grants int_can_alloc (mem empty_state) 3 = true) by by_evaluation.
  split; [lia|]. split; [exact Hg|].
  exact (ArrayPtr_lifetime int_fresh_cell int_can_alloc empty_state 3 ltac:(lia) Hg).
Defined.

Lemma construct_destroy_roundtrip_witness :
  vecs empty_state !! va = None /\ 0 <= 3 /\
  (0 < 3 -> grants int_can_alloc (mem empty_state) 3 = true) /\
  bind (SimpleVector_fill int_fresh_cell int_can_alloc va 3 7)
       (fun _ => SimpleVector_destroy va) empty_state
  = Ret tt empty_state.
Proof.
  assert (Hg : 0 < 3 -> grants int_can_alloc (mem empty_state) 3 = true)
    by (intros _; by_evaluation).
  split; [exact empty_state_va|]. split; [lia|]. split; [exact Hg|].
  exact (construct_destroy_roundtrip int_fresh_cell int_can_alloc empty_state va 3 7
           empty_state_va ltac:(lia) Hg).
Defined.

Lemma PushBack_within_capacity_keeps_block_witness :
  vecs state_reserved !! va = Some vec_reserved /\
  wf_vec (mem state_reserved) vec_reserved /\
  size_ vec_reserved + Z.of_nat (length [1; 2; 3]) <= capacity_ vec_reserved /\
  exists s' v',
    push_all int_moved_from int_fresh_cell int_can_alloc va [1; 2; 3] state_reserved
    = Ret tt s' /\
    vecs s' !! va = Some v' /\
    data_ v' = data_ vec_reserved /\
    capacity_ v' = 4 /\ size_ v' = 3 /\
    elements (mem s') v' = [1; 2; 3] /\
    dom (mem s') = dom (mem state_reserved).
Proof.
  assert (Hfit : size_ vec_reserved + Z.of_nat (length [1; 2; 3])
                 <= capacity_ vec_reserved)
    by (cbn; lia).
  split; [exact state_reserved_va|]. split; [exact state_reserved_wf|].
  split; [exact Hfit|].
  destruct (PushBack_within_capacity_keeps_block int_moved_from int_fresh_cell
              int_can_alloc [1; 2; 3] state_reserved va vec_reserved
              state_reserved_va state_reserved_wf Hfit)
    as (s' & v' & Hrun & Hvs & _ & Hd & Hcp & Hsz & Hel & Hdom).
  exists s', v'. split; [exact Hrun|].
  split; [rewrite Hvs; apply lookup_insert_eq|]. split; [exact Hd|].
  split; [exact Hcp|]. split; [exact Hsz|].
  split; [rewrite Hel; by_evaluation | exact Hdom].
Defined.

Lemma PushBack_capacity_doubles_witness :
  vecs state_default !! va = Some (MkSimpleVector ArrayPtr_default 0 0) /\
  [1; 2; 3] <> [] /\
  (forall m n, 0 < n < 2 * Z.of_nat (length [1; 2; 3]) ->
               grants int_can_alloc m n = true) /\
  exists s' v',
    push_all int_moved_from int_fresh_cell int_can_alloc va [1; 2; 3] state_default
    = Ret tt s' /\
    vecs s' !! va = Some v' /\
    size_ v' = 3 /\
    elements (mem s') v' = [1; 2; 3] /\
    exists k, 0 <= k /\ capacity_ v' = 2 ^ k /\ 3 <= capacity_ v' < 6.
Proof.
  assert (Hne : [1; 2; 3] <> @nil Z) by discriminate.
  assert (Hg : forall m n, 0 < n < 2 * Z.of_nat (length [1; 2; 3]) ->
                           grants int_can_alloc m n = true).
  { intros m n Hn. apply int_store_grants. cbn in Hn. lia. }
  split; [exact state_default_va|]. split; [exact Hne|]. split; [exact Hg|].
  destruct (PushBack_capacity_doubles int_moved_from int_fresh_cell int_can_alloc
              [1; 2; 3] state_default va state_default_va Hne Hg)
    as (s' & v' & Hrun & Hv' & _ & Hsz & Hel & k & Hk & Hpow & Hbound).
  exists s', v'. split; [exact Hrun|]. split; [exact Hv'|].
  split; [exact Hsz|]. split; [exact Hel|].
  exists k. split; [exact Hk|]. split; [exact Hpow | exact Hbound].
Defined.

Lemma Insert_Erase_at_roundtrip_witness :
  vecs state_123 !! va = Some vec_123 /\
  wf_vec (mem state_123) vec_123 /\
  0 <= 1 <= size_ vec_123 /\
  (size_ vec_123 = capacity_ vec_123 ->
   grants int_can_alloc (mem state_123) (grown (capacity_ vec_123)) = true) /\
  exists s' v',
    bind (Insert_at int_moved_from int_fresh_cell int_can_alloc va 1 9)
         (fun _ => bind (Erase_at int_moved_from va 1) (fun _ => ret tt)) state_123
    = Ret tt s' /\
    vecs s' !! va = Some v' /\
    elements (mem s') v' = [1; 2; 3] /\
    size_ v' = 3.
Proof.
  assert (Hk : 0 <= 1 <= size_ vec_123) by (cbn [size_ vec_123]; lia).
  assert (Hg : size_ vec_123 = capacity_ vec_123 ->
               grants int_can_alloc (mem state_123) (grown (capacity_ vec_123)) = true)
    by (intros _; by_evaluation).
  split; [exact state_123_va|]. split; [exact state_123_wf|].
  split; [exact Hk|]. split; [exact Hg|].
  destruct (Insert_Erase_at_roundtrip int_moved_from int_fresh_cell int_can_alloc
              state_123 va vec_123 1 9 state_123_va state_123_wf Hk Hg)
    as (s' & v' & Hrun & Hv' & _ & Hel & Hsz & _).
  exists s', v'. split; [exact Hrun|]. split; [exact Hv'|].
  split; [rewrite Hel; by_evaluation | exact Hsz].
Defined.
